(** * learning-agent: a shallow embedding of the ReAct agent and of the
    multi-agent coordination layer, with the properties of its specification.

    The embedding:
    - [PyStr], [Py]   Python strings (sequences of code points), exceptions
                      and outcomes, the state-and-exception monad,
                      insertion-ordered dicts, JSON values, slices;
    - [Chat]          the message dicts of a chat request;
    - [History], [HistoryObj]  src/memory/history.py, by value and with
                      object identity;
    - [Tools]         src/tools/base.py;
    - [Message], [SharedState], [State]  src/multi/message.py and
                      src/multi/shared_state.py;
    - [World]         the model service, the clock, the trace of events and
                      the store of message objects;
    - [Llm]           src/llm.py;
    - [Format], [Re]  [str.format] and the regular-expression searches;
    - [ReAct]         src/agent/react.py;
    - [Multi]         src/multi/roles.py and src/multi/base.py;
    - [Pipeline], [Orchestrator], [Debate]  the three strategies.
    Printing ([_log]) has no effect on the state and is left out.

    The properties follow, one module per component. *)

From Stdlib Require Import String Ascii List ZArith NArith Bool Arith Lia.
Import ListNotations.

Set Implicit Arguments.
Set Warnings "-register-all".
Set Default Proof Using "Type".

(* ================================================================== *)
(** ** Python strings *)
(* ================================================================== *)

Module PyStr.

(** A Python [str] is a sequence of Unicode code points. *)
Definition char := N.
Definition str := list char.

(** Source literals are written as Rocq strings (their UTF-8 bytes) and
    decoded into code points. *)
Fixpoint utf8_decode (bs : list N) : str :=
  match bs with
  | [] => []
  | b1 :: r1 =>
    if (b1 <? 128)%N then b1 :: utf8_decode r1
    else match r1 with
    | [] => [b1]
    | b2 :: r2 =>
      if (b1 <? 224)%N
      then ((b1 - 192) * 64 + (b2 - 128))%N :: utf8_decode r2
      else match r2 with
      | [] => [b1; b2]
      | b3 :: r3 =>
        if (b1 <? 240)%N
        then ((b1 - 224) * 4096 + (b2 - 128) * 64 + (b3 - 128))%N
               :: utf8_decode r3
        else match r3 with
        | [] => [b1; b2; b3]
        | b4 :: r4 =>
          ((b1 - 240) * 262144 + (b2 - 128) * 4096
             + (b3 - 128) * 64 + (b4 - 128))%N :: utf8_decode r4
        end
      end
    end
  end.

Definition u (s : string) : str :=
  utf8_decode (map N_of_ascii (list_ascii_of_string s)).

(** The newline character, written [\n] in the source literals. *)
Definition nl : str := [10%N].

(** The double-quote character. *)
Definition dq : str := [34%N].

Fixpoint eqb (a b : str) : bool :=
  match a, b with
  | [], [] => true
  | x :: a', y :: b' => (x =? y)%N && eqb a' b'
  | _, _ => false
  end.

(** [s.startswith(p)] *)
Fixpoint startswith (s p : str) {struct p} : bool :=
  match p, s with
  | [], _ => true
  | c :: p', d :: s' => (c =? d)%N && startswith s' p'
  | _ :: _, [] => false
  end.

(** [x in s] on strings *)
Fixpoint contains (s x : str) : bool :=
  startswith s x ||
  match s with
  | [] => false
  | _ :: s' => contains s' x
  end.

(** [sep.join(parts)] *)
Fixpoint join (sep : str) (parts : list str) : str :=
  match parts with
  | [] => []
  | [p] => p
  | p :: rest => p ++ sep ++ join sep rest
  end.

(** Py_UNICODE_ISSPACE: the characters [str.strip()] removes and the
    regular-expression class [\s] matches on [str] patterns. *)
Definition is_space (c : char) : bool :=
  ((9 <=? c) && (c <=? 13) || (28 <=? c) && (c <=? 32)
   || (c =? 133) || (c =? 160) || (c =? 5760)
   || (8192 <=? c) && (c <=? 8202) || (c =? 8232) || (c =? 8233)
   || (c =? 8239) || (c =? 8287) || (c =? 12288))%N.

Fixpoint lstrip (s : str) : str :=
  match s with
  | c :: s' => if is_space c then lstrip s' else s
  | [] => []
  end.

Definition rstrip (s : str) : str := rev (lstrip (rev s)).

(** [s.strip()] *)
Definition strip (s : str) : str := rstrip (lstrip s).

(** Decimal rendering of an [int], as [str(n)] and [f"{n}"] give it. *)
Fixpoint digits (fuel : nat) (n : N) (acc : str) : str :=
  match fuel with
  | O => acc
  | S fuel' =>
    let acc' := (48 + n mod 10)%N :: acc in
    if (n <? 10)%N then acc' else digits fuel' (n / 10)%N acc'
  end.

Definition of_N (n : N) : str := digits (S (N.to_nat (N.log2 n))) n [].

Definition of_Z (z : Z) : str :=
  if (z <? 0)%Z then 45%N :: of_N (Z.to_N (- z)) else of_N (Z.to_N z).

(** [x] occurs in [s] as a contiguous substring. *)
Definition Substring (x s : str) : Prop :=
  exists pre post, s = pre ++ x ++ post.

End PyStr.
Import PyStr.

(* ================================================================== *)
(** ** Python values: exceptions, outcomes, dicts, JSON *)
(* ================================================================== *)

Module Py.

(** The classes of [Exception] the program raises or catches by name. *)
Inductive ExnClass : Type :=
| ValueError | TypeError | KeyError | IndexError | JSONDecodeError
| OtherException (class_name : str).

(** An instance of [Exception]; [exn_text] is [str(e)]. *)
Record Exn : Type := mkExn { exn_class : ExnClass; exn_text : str }.

(** What evaluating a call gives: a value, or a raised exception. *)
Inductive Outcome (A : Type) : Type :=
| Returned (a : A)
| Raised (e : Exn).
Arguments Returned {A} a.
Arguments Raised {A} e.

(** State-and-exception monad: Python statements running over a mutable
    state [S]; state changes made before a raise persist. *)
Definition M (S A : Type) : Type := S -> Outcome A * S.

Definition ret {S A} (a : A) : M S A := fun s => (Returned a, s).
Definition raise {S A} (e : Exn) : M S A := fun s => (Raised e, s).
Definition bind {S A B} (m : M S A) (k : A -> M S B) : M S B :=
  fun s => match m s with
           | (Returned a, s') => k a s'
           | (Raised e, s') => (Raised e, s')
           end.
Definition get {S} : M S S := fun s => (Returned s, s).
Definition put {S} (s : S) : M S unit := fun _ => (Returned tt, s).
Definition modify {S} (f : S -> S) : M S unit := fun s => (Returned tt, f s).
Definition lift {S A} (o : Outcome A) : M S A := fun s => (o, s).

(** [try: m except Exception as e: h e] *)
Definition try_except {S A} (m : M S A) (h : Exn -> M S A) : M S A :=
  fun s => match m s with
           | (Returned a, s') => (Returned a, s')
           | (Raised e, s') => h e s'
           end.

(** A Python [dict] with [str] keys: insertion-ordered, one entry per key;
    assigning to a present key keeps its position. *)
Definition dict (V : Type) := list (str * V).

Fixpoint dict_get {V} (d : dict V) (k : str) : option V :=
  match d with
  | [] => None
  | (k', v) :: d' => if PyStr.eqb k' k then Some v else dict_get d' k
  end.

Definition dict_mem {V} (d : dict V) (k : str) : bool :=
  match dict_get d k with Some _ => true | None => false end.

Fixpoint dict_set {V} (d : dict V) (k : str) (v : V) : dict V :=
  match d with
  | [] => [(k, v)]
  | (k', v') :: d' =>
    if PyStr.eqb k' k then (k', v) :: d' else (k', v') :: dict_set d' k v
  end.

Definition dict_keys {V} (d : dict V) : list str := map fst d.
Definition dict_values {V} (d : dict V) : list V := map snd d.

(** Values produced by [json.loads] and stored in [dict[str, Any]];
    a float is kept as its literal. *)
Inductive JSON : Type :=
| JNull
| JBool (b : bool)
| JInt (z : Z)
| JFloat (literal : str)
| JStr (s : str)
| JArr (items : list JSON)
| JObj (fields : list (str * JSON)).

(** Python built-ins and library calls the program uses and whose
    implementation is not part of the repository. *)
Class Builtins : Type := {
  (** [json.loads(s)]; [None] stands for the raised [JSONDecodeError]. *)
  json_loads : str -> option JSON;
  (** [json.dumps(v, ensure_ascii=False, indent=2)] *)
  json_dumps : JSON -> str;
  (** [repr(s)] of a [str] *)
  repr_str : str -> str;
  (** [str(v)] of a value that [json.loads] produced *)
  str_of_json : JSON -> str;
  (** [template.format(...)] with the given keyword fields *)
  str_format : str -> dict str -> Outcome str;
  (** Py_UNICODE_ISALNUM above the ASCII range *)
  unicode_isalnum : char -> bool;
}.

(** [repr] of a list of [str], as an f-string renders [list(d.keys())]. *)
Definition repr_list `{Builtins} (l : list str) : str :=
  u "[" ++ join (u ", ") (map repr_str l) ++ u "]".

(** Assignment to the item [n] of a list that has one. *)
Fixpoint set_nth {A} (n : nat) (x : A) (l : list A) : list A :=
  match l, n with
  | [], _ => []
  | _ :: t, O => x :: t
  | y :: t, S n' => y :: set_nth n' x t
  end.

(** The [n] most recent items of a list. *)
Definition last_n {A} (n : nat) (l : list A) : list A := skipn (length l - n) l.

(** Python slicing [l[start:]]. *)
Definition slice_from {A} (start : Z) (l : list A) : list A :=
  let n := Z.of_nat (length l) in
  let lo := if (start <? 0)%Z then Z.max (start + n) 0 else Z.min start n in
  skipn (Z.to_nat lo) l.

(** Python slicing [l[:stop]]. *)
Definition slice_to {A} (stop : Z) (l : list A) : list A :=
  let n := Z.of_nat (length l) in
  let hi := if (stop <? 0)%Z then Z.max (stop + n) 0 else Z.min stop n in
  firstn (Z.to_nat hi) l.

End Py.
Import Py.

Declare Scope py_scope.
Delimit Scope py_scope with py.
Notation "x <- m ;; k" := (bind m (fun x => k))
  (at level 61, m at next level, right associativity) : py_scope.
Notation "m ;; k" := (bind m (fun _ => k))
  (at level 61, right associativity) : py_scope.

(* ================================================================== *)
(** ** Chat messages (the [dict[str, Any]] entries of a message list) *)
(* ================================================================== *)

Module Chat.

(** One entry of an assistant message's ["tool_calls"] list. *)
Record ToolCallDict : Type := mkToolCallDict {
  tcd_id : str;
  tcd_type : str;
  tcd_name : str;
  tcd_arguments : str;
}.

(** A message dict; a key that is absent from the dict is [None]. *)
Record ChatMsg : Type := mkChatMsg {
  role : str;
  content : option str;
  tool_calls : option (list ToolCallDict);
  tool_call_id : option str;
}.

Definition role_content (r c : str) : ChatMsg :=
  mkChatMsg r (Some c) None None.

End Chat.
Import Chat.

(* ================================================================== *)
(** ** src/memory/history.py *)
(* ================================================================== *)

Module History.

(** [ConversationHistory], seen through the contents of [_messages]. *)
Record ConversationHistory : Type := mkHistory {
  max_turns : Z;
  _messages : list ChatMsg;
}.

(** [__init__] *)
Definition init (max_turns : Z) : ConversationHistory :=
  mkHistory max_turns [].

Definition _truncate (h : ConversationHistory) : ConversationHistory :=
  let max_messages := (max_turns h * 2)%Z in
  if (Z.of_nat (length (_messages h)) >? max_messages)%Z
  then mkHistory (max_turns h) (slice_from (- max_messages) (_messages h))
  else h.

Definition append (h : ConversationHistory) (m : ChatMsg) :=
  mkHistory (max_turns h) (_messages h ++ [m]).

Definition add_user_message (h : ConversationHistory) (content : str) :=
  _truncate (append h (role_content (u "user") content)).

Definition add_assistant_message (h : ConversationHistory) (content : str) :=
  _truncate (append h (role_content (u "assistant") content)).

Definition get_messages (h : ConversationHistory) : list ChatMsg :=
  _messages h.

Definition clear (h : ConversationHistory) : ConversationHistory :=
  mkHistory (max_turns h) [].

Definition turn_count (h : ConversationHistory) : Z :=
  (Z.of_nat (length (_messages h)) / 2)%Z.

(** [__len__] *)
Definition len (h : ConversationHistory) : Z :=
  Z.of_nat (length (_messages h)).

(** A call of one of the two adding methods. *)
Inductive Call : Type :=
| AddUser (content : str)
| AddAssistant (content : str).

Definition call (h : ConversationHistory) (c : Call) : ConversationHistory :=
  match c with
  | AddUser s => add_user_message h s
  | AddAssistant s => add_assistant_message h s
  end.

Definition calls (h : ConversationHistory) (cs : list Call) :=
  fold_left call cs h.

(** The message a call appends. *)
Definition message_of (c : Call) : ChatMsg :=
  match c with
  | AddUser s => role_content (u "user") s
  | AddAssistant s => role_content (u "assistant") s
  end.

(** One turn: a question and its answer. *)
Definition turn (h : ConversationHistory) (qa : str * str) :=
  add_assistant_message (add_user_message h (fst qa)) (snd qa).

Definition turns (h : ConversationHistory) (qas : list (str * str)) :=
  fold_left turn qas h.

Definition turn_messages (qa : str * str) : list ChatMsg :=
  [role_content (u "user") (fst qa); role_content (u "assistant") (snd qa)].

End History.

(** The same class with Python's object identity: list objects and message
    dicts live in a heap, [_messages] is a reference to a list object whose
    items are references to dicts. *)
Module HistoryObj.

Definition ref := nat.

Record Heap : Type := mkHeap {
  lists : list (list ref);
  dicts : list ChatMsg;
}.

Record ConversationHistory : Type := mkHistory {
  max_turns : Z;
  _messages : ref;
}.

Definition list_at (hp : Heap) (r : ref) : list ref := nth r (lists hp) [].

(** In-place replacement of the items of the list object [r]: what
    [append], [remove], [pop], [reverse], [sort] or [clear] on it amount to. *)
Definition list_assign (hp : Heap) (r : ref) (items : list ref) : Heap :=
  mkHeap (set_nth r items (lists hp)) (dicts hp).

(** [l.append(x)], [l.pop()] and [l.reverse()] on the list object [r]. *)
Definition list_append (hp : Heap) (r : ref) (x : ref) : Heap :=
  list_assign hp r (list_at hp r ++ [x]).
Definition list_pop (hp : Heap) (r : ref) : Heap :=
  list_assign hp r (removelast (list_at hp r)).
Definition list_reverse (hp : Heap) (r : ref) : Heap :=
  list_assign hp r (rev (list_at hp r)).

(** A new list object. *)
Definition new_list (hp : Heap) (items : list ref) : ref * Heap :=
  (length (lists hp), mkHeap (lists hp ++ [items]) (dicts hp)).

(** A new dict object. *)
Definition new_dict (hp : Heap) (m : ChatMsg) : ref * Heap :=
  (length (dicts hp), mkHeap (lists hp) (dicts hp ++ [m])).

(** [__init__] *)
Definition init (hp : Heap) (max_turns : Z) : ConversationHistory * Heap :=
  let '(r, hp') := new_list hp [] in (mkHistory max_turns r, hp').

Definition _truncate (h : ConversationHistory) (hp : Heap)
  : ConversationHistory * Heap :=
  let max_messages := (max_turns h * 2)%Z in
  let items := list_at hp (_messages h) in
  if (Z.of_nat (length items) >? max_messages)%Z
  then let '(r, hp') := new_list hp (slice_from (- max_messages) items) in
       (mkHistory (max_turns h) r, hp')
  else (h, hp).

Definition append_msg (h : ConversationHistory) (hp : Heap) (m : ChatMsg) : Heap :=
  let '(d, hp1) := new_dict hp m in
  list_assign hp1 (_messages h) (list_at hp1 (_messages h) ++ [d]).

Definition add_user_message (h : ConversationHistory) (hp : Heap) (content : str) :=
  _truncate h (append_msg h hp (role_content (u "user") content)).

Definition add_assistant_message (h : ConversationHistory) (hp : Heap) (content : str) :=
  _truncate h (append_msg h hp (role_content (u "assistant") content)).

(** [list(self._messages)]: a new list object holding the same items. *)
Definition get_messages (h : ConversationHistory) (hp : Heap) : ref * Heap :=
  new_list hp (list_at hp (_messages h)).

Definition clear (h : ConversationHistory) (hp : Heap) : Heap :=
  list_assign hp (_messages h) [].

Definition len (h : ConversationHistory) (hp : Heap) : Z :=
  Z.of_nat (length (list_at hp (_messages h))).

(** The messages a list object holds, dereferenced. *)
Definition deref (hp : Heap) (r : ref) : list ChatMsg :=
  map (fun d => nth d (dicts hp) (role_content [] [])) (list_at hp r).

(** The stored history, as a reader of the object sees it. *)
Definition stored (h : ConversationHistory) (hp : Heap) : list ChatMsg :=
  deref hp (_messages h).

(** The history object refers to an allocated list whose items are
    allocated dicts. *)
Definition wf (h : ConversationHistory) (hp : Heap) : Prop :=
  _messages h < length (lists hp) /\
  Forall (fun d => d < length (dicts hp)) (list_at hp (_messages h)).

(** The value-level view of a history object. *)
Definition view (h : ConversationHistory) (hp : Heap) : History.ConversationHistory :=
  History.mkHistory (max_turns h) (stored h hp).

End HistoryObj.

(* ================================================================== *)
(** ** src/tools/base.py *)
(* ================================================================== *)

Module Tools.

(** The abstract class [Tool]. [run v] stands for the call
    [tool.run( **v )] on the decoded argument value [v]: it returns the
    tool's text or raises (the tool's own failure, or the [TypeError] of a
    call whose arguments do not fit the signature). *)
Record Tool : Type := mkTool {
  name : str;
  description : str;
  parameters : JSON;
  run : JSON -> Outcome str;
}.

Definition to_openai_tool (t : Tool) : JSON :=
  JObj [(u "type", JStr (u "function"));
        (u "function",
         JObj [(u "name", JStr (name t));
               (u "description", JStr (description t));
               (u "parameters", parameters t)])].

Record ToolRegistry : Type := mkRegistry { _tools : dict Tool }.

(** [__init__] *)
Definition empty : ToolRegistry := mkRegistry [].

(** The [arguments: str | dict] parameter of [execute]. *)
Inductive Args : Type :=
| ArgStr (s : str)
| ArgDict (v : JSON).

Section WithBuiltins.
Context `{Builtins}.

Definition register (r : ToolRegistry) (tool : Tool) : Outcome ToolRegistry :=
  if dict_mem (_tools r) (name tool)
  then Raised (mkExn ValueError
         (u "工具 '" ++ name tool ++ u "' 已注册，请勿重复注册。"))
  else Returned (mkRegistry (dict_set (_tools r) (name tool) tool)).

Definition get (r : ToolRegistry) (n : str) : option Tool :=
  dict_get (_tools r) n.

Definition execute (r : ToolRegistry) (n : str) (arguments : Args) : str :=
  match get r n with
  | None =>
    u "错误：未找到工具 '" ++ n ++ u "'。可用工具：" ++ repr_list (dict_keys (_tools r))
  | Some tool =>
    let call v :=
      match run tool v with
      | Returned s => s
      | Raised e => u "错误：工具 '" ++ n ++ u "' 执行失败：" ++ exn_text e
      end in
    match arguments with
    | ArgStr s =>
      match json_loads s with
      | None => u "错误：无法解析工具参数 JSON：" ++ s
      | Some v => call v
      end
    | ArgDict v => call v
    end
  end.

Definition to_openai_tools (r : ToolRegistry) : list JSON :=
  map to_openai_tool (dict_values (_tools r)).

Definition get_tools_description (r : ToolRegistry) : str :=
  join nl
    (map (fun tool =>
            let params := json_dumps (parameters tool) in
            u "- **" ++ name tool ++ u "**: " ++ description tool ++ nl
              ++ u "  参数: " ++ params)
         (dict_values (_tools r))).

Definition tool_names (r : ToolRegistry) : list str := dict_keys (_tools r).

(** [__len__] *)
Definition len (r : ToolRegistry) : Z := Z.of_nat (length (_tools r)).

(** [__contains__] *)
Definition contains (r : ToolRegistry) (n : str) : bool := dict_mem (_tools r) n.

End WithBuiltins.
End Tools.

(* ================================================================== *)
(** ** src/multi/message.py *)
(* ================================================================== *)

Module Message.

Inductive MessageType : Type := TASK | RESULT | FEEDBACK | SYSTEM.

(** The dataclass [Message]. *)
Record Message : Type := mkMessage {
  sender : str;
  receiver : str;
  content : str;
  msg_type : MessageType;
  metadata : dict JSON;
  timestamp : str;
}.

(** The dataclass [PipelineStep]; [transform] is an arbitrary callable. *)
Record PipelineStep : Type := mkPipelineStep {
  agent_name : str;
  task_template : str;
  retry : Z;
  transform : option (str -> Outcome str);
}.

End Message.

(* ================================================================== *)
(** ** src/multi/shared_state.py: the record *)
(* ================================================================== *)

Module SharedState.

(** A reference to a [Message] object of the world's store. *)
Definition ref := nat.

Inductive Status : Type :=
| idle | planning | executing | reviewing | done | failed.


(** The dataclass [SharedState]; [messages] holds references. *)
Record SharedState : Type := mkSharedState {
  task : str;
  plan : list str;
  results : dict str;
  messages : list ref;
  status : Status;
  current_step : Z;
  max_steps : Z;
  metadata : dict JSON;
}.

(** The field defaults of the dataclass. *)
Definition new : SharedState := mkSharedState [] [] [] [] idle 0 20 [].

End SharedState.

(* ================================================================== *)
(** ** The world outside the program *)
(* ================================================================== *)

Module World.

(** [tc.id], [tc.function.name], [tc.function.arguments] of a requested
    tool invocation. *)
Record ToolCall : Type := mkToolCall {
  tc_id : str;
  tc_name : str;
  tc_arguments : str;
}.

(** [choice.message] *)
Record CompletionMessage : Type := mkCompletionMessage {
  content : option str;
  tool_calls : option (list ToolCall);
}.

Record Choice : Type := mkChoice { message : CompletionMessage }.

Record ChatCompletion : Type := mkChatCompletion { choices : list Choice }.

(** The keyword arguments of [client.chat.completions.create] that vary
    from call to call ([model], [temperature] and [max_tokens] are
    constants of the client). *)
Record ChatRequest : Type := mkChatRequest {
  req_messages : list ChatMsg;
  req_tools : option (list JSON);
  req_tool_choice : option str;
}.

(** The keyword arguments a hook callback receives. *)
Inductive HookArgs : Type :=
| on_agent_start (agent_name task : str)
| on_agent_finish (agent_name result : str)
| on_step_complete (step : Z) (state : SharedState.SharedState)
| on_error (agent_name : str) (error : Exn).

Definition hook_event (a : HookArgs) : str :=
  match a with
  | on_agent_start _ _ => u "on_agent_start"
  | on_agent_finish _ _ => u "on_agent_finish"
  | on_step_complete _ _ => u "on_step_complete"
  | on_error _ _ => u "on_error"
  end.

(** What the program does to its environment, in the order it does it. *)
Inductive Event : Type :=
| EvChat (request : ChatRequest)
| EvExecute (tool_name : str) (arguments : Tools.Args)
| EvDispatch (agent_name task : str)
| EvHook (args : HookArgs).

(** The trace of events so far and the store of [Message] objects
    (a reference is an index into the store). *)
Record World : Type := mkWorld {
  events : list Event;
  store : list Message.Message;
}.

Definition start : World := mkWorld [] [].

Definition log (w : World) (e : Event) : World :=
  mkWorld (events w ++ [e]) (store w).

Definition is_chat (e : Event) : bool :=
  match e with EvChat _ => true | _ => false end.
Definition is_dispatch (e : Event) : bool :=
  match e with EvDispatch _ _ => true | _ => false end.

(** The number of model calls made so far. *)
Definition chat_count (w : World) : nat := length (filter is_chat (events w)).

(** The external collaborators: [create n req] is the reply of the model
    service to the call number [n] (counting from 0), a completion or a
    raised exception; [now n] is [datetime.now().isoformat()] at the
    creation of the message number [n]. *)
Class Ports : Type := {
  create : nat -> ChatRequest -> Outcome ChatCompletion;
  now : nat -> str;
}.

(** Constants of the module src/agent/prompt.py, which the repository's
    sources here do not include. *)
Class Prompts : Type := {
  SYSTEM_PROMPT_FUNCTION_CALLING : str;
  SYSTEM_PROMPT_TEXT_PARSING : str;
}.

End World.
Import World.

(* ================================================================== *)
(** ** src/llm.py *)
(* ================================================================== *)

Module Llm.
Section WithPorts.
Context `{Ports}.

(** [LLMClient.chat]: one call of the model service. *)
Definition chat (messages : list ChatMsg) (tools : option (list JSON))
  : M World ChatCompletion :=
  fun w =>
    let request :=
      match tools with
      | Some (t :: ts) => mkChatRequest messages (Some (t :: ts)) (Some (u "auto"))
      | _ => mkChatRequest messages None None
      end in
    (create (chat_count w) request, log w (EvChat request)).

(** [response.choices[0]] *)
Definition first_choice {S} (response : ChatCompletion) : M S Choice :=
  match choices response with
  | c :: _ => ret c
  | [] => raise (mkExn IndexError (u "list index out of range"))
  end.

(** [x or ""] on an optional string. *)
Definition or_empty (c : option str) : str :=
  match c with Some s => s | None => [] end.

(** [LLMClient.chat_simple] *)
Definition chat_simple (prompt system : str) : M World str :=
  let messages :=
    (match system with
     | [] => []
     | _ => [role_content (u "system") system]
     end) ++ [role_content (u "user") prompt] in
  (response <- chat messages None ;;
   choice <- first_choice response ;;
   ret (or_empty (World.content (message choice))))%py.

End WithPorts.
End Llm.

(* ================================================================== *)
(** ** [str.format] with keyword fields *)
(* ================================================================== *)

Module Format.
Section WithBuiltins.
Context `{Builtins}.

Definition open_brace : char := 123%N.
Definition close_brace : char := 125%N.

(** A replacement field that is just a keyword name: letters, digits and
    underscores, not starting with a digit. *)
Definition name_char (c : char) : bool :=
  ((48 <=? c) && (c <=? 57) || (65 <=? c) && (c <=? 90)
   || (97 <=? c) && (c <=? 122) || (c =? 95))%N.

Definition plain_name (f : str) : bool :=
  match f with
  | [] => false
  | c :: _ => negb ((48 <=? c) && (c <=? 57))%N && forallb name_char f
  end.

(** Every replacement field of the template is a plain keyword name;
    [inside] holds the characters of the field being read, latest first. *)
Fixpoint plain_template (t : str) (inside : option str) : bool :=
  match t, inside with
  | [], None => true
  | [], Some _ => false
  | c :: r, Some acc =>
    if (c =? close_brace)%N
    then plain_name (rev acc) && plain_template r None
    else plain_template r (Some (c :: acc))
  | c :: r, None =>
    if (c =? open_brace)%N then
      match r with
      | d :: r2 => if (d =? open_brace)%N then plain_template r2 None
                   else plain_template r (Some [])
      | [] => false
      end
    else if (c =? close_brace)%N then
      match r with
      | d :: r2 => if (d =? close_brace)%N then plain_template r2 None else false
      | [] => false
      end
    else plain_template r None
  end.

Definition prepend (c : char) (o : Outcome str) : Outcome str :=
  match o with
  | Returned s => Returned (c :: s)
  | Raised e => Raised e
  end.

(** Rendering of a template: doubled braces stand for one brace, a field
    [{name}] for the value of the keyword [name]. *)
Fixpoint render (t : str) (inside : option str) (fields : dict str) : Outcome str :=
  match t, inside with
  | [], None => Returned []
  | [], Some _ =>
    Raised (mkExn ValueError (u "expected '}' before end of string"))
  | c :: r, Some acc =>
    if (c =? close_brace)%N then
      match dict_get fields (rev acc) with
      | Some v =>
        match render r None fields with
        | Returned s => Returned (v ++ s)
        | Raised e => Raised e
        end
      | None => Raised (mkExn KeyError (repr_str (rev acc)))
      end
    else render r (Some (c :: acc)) fields
  | c :: r, None =>
    if (c =? open_brace)%N then
      match r with
      | d :: r2 => if (d =? open_brace)%N then prepend c (render r2 None fields)
                   else render r (Some []) fields
      | [] => Raised (mkExn ValueError (u "Single '{' encountered in format string"))
      end
    else if (c =? close_brace)%N then
      match r with
      | d :: r2 =>
        if (d =? close_brace)%N then prepend c (render r2 None fields)
        else Raised (mkExn ValueError (u "Single '}' encountered in format string"))
      | [] => Raised (mkExn ValueError (u "Single '}' encountered in format string"))
      end
    else prepend c (render r None fields)
  end.

(** [template.format(...)] with keyword arguments [fields]: computed here
    when every replacement field is a plain keyword name, and left to the
    built-in for templates that use conversions, format specifications,
    attribute or index access, or positional fields. *)
Definition format (template : str) (fields : dict str) : Outcome str :=
  if plain_template template None then render template None fields
  else str_format template fields.

End WithBuiltins.
End Format.

(* ================================================================== *)
(** ** Regular-expression searches of src/agent/react.py and
       src/multi/orchestrator.py *)
(* ================================================================== *)

Module Re.
Section WithBuiltins.
Context `{Builtins}.

(** The class [\w] on [str] patterns: Py_UNICODE_ISALNUM or underscore. *)
Definition is_word (c : char) : bool :=
  if (c <? 128)%N
  then ((48 <=? c) && (c <=? 57) || (65 <=? c) && (c <=? 90)
        || (97 <=? c) && (c <=? 122) || (c =? 95))%N
  else unicode_isalnum c.

(** [re.search]: the match at the leftmost start position that has one. *)
Fixpoint search {A} (at_pos : str -> option A) (s : str) : option A :=
  match at_pos s with
  | Some r => Some r
  | None => match s with
            | [] => None
            | _ :: t => search at_pos t
            end
  end.

(** A literal prefix of the pattern. *)
Definition literal {A} (p : str) (k : str -> option A) (s : str) : option A :=
  if startswith s p then k (skipn (length p) s) else None.

Fixpoint space_run (s : str) : nat :=
  match s with
  | c :: s' => if is_space c then S (space_run s') else O
  | [] => O
  end.

Fixpoint give_back {A} (k : str -> option A) (s : str) (n : nat) : option A :=
  match k (skipn n s) with
  | Some r => Some r
  | None => match n with
            | O => None
            | S n' => give_back k s n'
            end
  end.

(** [\s*] followed by the rest of the pattern: greedy, giving characters
    back one at a time while the rest does not match. *)
Definition spaces {A} (k : str -> option A) (s : str) : option A :=
  give_back k s (space_run s).

(** The group [(.+)] under [re.DOTALL] at the end of a pattern. *)
Definition rest_plus (s : str) : option str :=
  match s with
  | [] => None
  | _ => Some s
  end.

Fixpoint word_run (s : str) : str :=
  match s with
  | c :: s' => if is_word c then c :: word_run s' else []
  | [] => []
  end.

(** The group [(\w+)] at the end of a pattern. *)
Definition word_plus (s : str) : option str :=
  match word_run s with
  | [] => None
  | w => Some w
  end.

(** The characters up to and including the first [close]. *)
Fixpoint upto (close : char) (s : str) : option str :=
  match s with
  | [] => None
  | c :: s' =>
    if (c =? close)%N then Some [c]
    else match upto close s' with
         | Some r => Some (c :: r)
         | None => None
         end
  end.

(** The group [({.*?})] under [re.DOTALL] at the end of a pattern. *)
Definition braces_lazy (s : str) : option str :=
  match s with
  | c :: s' =>
    if (c =? 123)%N
    then match upto 125%N s' with
         | Some r => Some (c :: r)
         | None => None
         end
    else None
  | [] => None
  end.

(** The characters up to and including the last [close]. *)
Fixpoint upto_last (close : char) (s : str) : option str :=
  match s with
  | [] => None
  | c :: s' =>
    match upto_last close s' with
    | Some r => Some (c :: r)
    | None => if (c =? close)%N then Some [c] else None
    end
  end.

(** The whole match of [\[.*\]] under [re.DOTALL] at a position. *)
Definition brackets_greedy (s : str) : option str :=
  match s with
  | c :: s' =>
    if (c =? 91)%N
    then match upto_last 93%N s' with
         | Some r => Some (c :: r)
         | None => None
         end
    else None
  | [] => None
  end.

(** [re.search(r"Final Answer:\s*(.+)", text, re.DOTALL)], group 1 *)
Definition final_answer_match (text : str) : option str :=
  search (literal (u "Final Answer:") (spaces rest_plus)) text.

(** [re.search(r"Action:\s*(\w+)", text)], group 1 *)
Definition action_match (text : str) : option str :=
  search (literal (u "Action:") (spaces word_plus)) text.

(** [re.search(r"Action Input:\s*({.*?})", text, re.DOTALL)], group 1 *)
Definition action_input_match (text : str) : option str :=
  search (literal (u "Action Input:") (spaces braces_lazy)) text.

(** [re.search(r"\[.*\]", text, re.DOTALL)], the whole match *)
Definition json_array_match (text : str) : option str :=
  search brackets_greedy text.

End WithBuiltins.
End Re.

(* ================================================================== *)
(** ** src/agent/react.py *)
(* ================================================================== *)

Module ReAct.

(** [ReActAgent]; the last two fields are the attributes the coordinator
    attaches to an agent ([None]: the attribute is not set). The model
    client [llm] is the world's port. *)
Record ReActAgent : Type := mkAgent {
  tools : Tools.ToolRegistry;
  mode : str;
  max_steps : Z;
  verbose : bool;
  history : History.ConversationHistory;
  _role_system_prompt : option str;
  _role_name : option str;
}.

(** [__init__] *)
Definition init (tool_registry : Tools.ToolRegistry) (mode : str)
  (max_steps : Z) (verbose : bool) : ReActAgent :=
  mkAgent tool_registry mode max_steps verbose (History.init 20) None None.

Definition set_history (a : ReActAgent) (h : History.ConversationHistory) :=
  mkAgent (tools a) (mode a) (max_steps a) (verbose a) h
          (_role_system_prompt a) (_role_name a).

(** The state a run works on: the world and the agent object. *)
Definition RunState : Type := World * ReActAgent.

Definition fallback : str :=
  u "抱歉，我在多次尝试后仍未能得出明确结论。请尝试简化问题或提供更多信息。".

Section WithEnvironment.
Context `{Builtins} `{Ports} `{Prompts}.

Local Open Scope py_scope.

(** [self.llm.chat(messages, tools=...)] *)
Definition llm_chat (messages : list ChatMsg) (tools : option (list JSON))
  : M RunState ChatCompletion :=
  fun s => let '(o, w') := Llm.chat messages tools (fst s) in (o, (w', snd s)).

(** [self.tools.execute(name, arguments)] *)
Definition tools_execute (n arguments : str) : M RunState str :=
  fun s =>
    (Returned (Tools.execute (tools (snd s)) n (Tools.ArgStr arguments)),
     (log (fst s) (EvExecute n (Tools.ArgStr arguments)), snd s)).

(** [self.history.add_user_message(query)] followed by
    [self.history.add_assistant_message(answer)] *)
Definition remember (query answer : str) : M RunState unit :=
  modify (fun s : RunState =>
    (fst s,
     set_history (snd s)
       (History.add_assistant_message
          (History.add_user_message (history (snd s)) query) answer))).

Definition truthy_str (c : option str) : option str :=
  match c with
  | Some (x :: s) => Some (x :: s)
  | _ => None
  end.

Definition truthy_list {A} (l : option (list A)) : list A :=
  match l with
  | Some l' => l'
  | None => []
  end.

Definition tool_call_dict (tc : ToolCall) : ToolCallDict :=
  mkToolCallDict (tc_id tc) (u "function") (tc_name tc) (tc_arguments tc).

(** The [for tool_call in message.tool_calls] loop. *)
Fixpoint run_tool_calls (tcs : list ToolCall) (messages : list ChatMsg)
  : M RunState (list ChatMsg) :=
  match tcs with
  | [] => ret messages
  | tool_call :: rest =>
    observation <- tools_execute (tc_name tool_call) (tc_arguments tool_call) ;;
    run_tool_calls rest
      (messages ++ [mkChatMsg (u "tool") (Some observation) None
                              (Some (tc_id tool_call))])
  end.

(** The [for step in range(1, self.max_steps + 1)] loop of
    [_run_function_calling] with [n] iterations left, and the code after it. *)
Fixpoint function_calling_steps (n : nat) (query : str)
  (openai_tools : list JSON) (messages : list ChatMsg) : M RunState str :=
  match n with
  | O =>
    remember query fallback ;;
    ret fallback
  | S n' =>
    response <- llm_chat messages
                  (match openai_tools with [] => None | _ => Some openai_tools end) ;;
    choice <- Llm.first_choice response ;;
    let message := World.message choice in
    let assistant_msg :=
      mkChatMsg (u "assistant") (truthy_str (World.content message))
        (match truthy_list (World.tool_calls message) with
         | [] => None
         | tcs => Some (map tool_call_dict tcs)
         end) None in
    let messages := messages ++ [assistant_msg] in
    match truthy_list (World.tool_calls message) with
    | [] =>
      let final_answer := Llm.or_empty (World.content message) in
      remember query final_answer ;;
      ret final_answer
    | tcs =>
      messages' <- run_tool_calls tcs messages ;;
      function_calling_steps n' query openai_tools messages'
    end
  end.

Definition _run_function_calling (query : str) : M RunState str :=
  self <- get ;;
  let messages :=
    [role_content (u "system") SYSTEM_PROMPT_FUNCTION_CALLING]
      ++ History.get_messages (history (snd self))
      ++ [role_content (u "user") query] in
  let openai_tools := Tools.to_openai_tools (tools (snd self)) in
  function_calling_steps (Z.to_nat (max_steps (snd self))) query openai_tools messages.

(** The loop of [_run_text_parsing] with [n] iterations left, and the
    code after it. *)
Fixpoint text_parsing_steps (n : nat) (query : str) (messages : list ChatMsg)
  : M RunState str :=
  match n with
  | O =>
    remember query fallback ;;
    ret fallback
  | S n' =>
    response <- llm_chat messages None ;;
    choice <- Llm.first_choice response ;;
    let text := Llm.or_empty (World.content (World.message choice)) in
    match Re.final_answer_match text with
    | Some group1 =>
      let final_answer := strip group1 in
      remember query final_answer ;;
      ret final_answer
    | None =>
      match Re.action_match text with
      | None =>
        remember query text ;;
        ret text
      | Some action_name =>
        let action_input :=
          match Re.action_input_match text with
          | Some group1 => group1
          | None => u "{}"
          end in
        observation <- tools_execute action_name action_input ;;
        text_parsing_steps n' query
          (messages ++
             [role_content (u "assistant") text;
              role_content (u "user")
                (u "Observation: " ++ observation ++ nl ++ nl
                   ++ u "请继续思考，或给出 Final Answer。")])
      end
    end
  end.

Definition _run_text_parsing (query : str) : M RunState str :=
  self <- get ;;
  system_prompt <-
    lift (Format.format SYSTEM_PROMPT_TEXT_PARSING
            [(u "tools_description", Tools.get_tools_description (tools (snd self)))]) ;;
  let context := u "Question: " ++ query ++ nl in
  let messages :=
    [role_content (u "system") system_prompt]
      ++ History.get_messages (history (snd self))
      ++ [role_content (u "user") context] in
  text_parsing_steps (Z.to_nat (max_steps (snd self))) query messages.

Definition run (query : str) : M RunState str :=
  self <- get ;;
  if PyStr.eqb (mode (snd self)) (u "function_calling")
  then _run_function_calling query
  else if PyStr.eqb (mode (snd self)) (u "text_parsing")
  then _run_text_parsing query
  else raise (mkExn ValueError
         (u "不支持的模式: " ++ mode (snd self)
            ++ u "，请使用 'function_calling' 或 'text_parsing'")).

Definition reset (a : ReActAgent) : ReActAgent :=
  set_history a (History.clear (history a)).

End WithEnvironment.
End ReAct.

(* ================================================================== *)
(** ** src/multi/shared_state.py: the methods *)
(* ================================================================== *)

Module State.
Import SharedState.
Section WithPorts.
Context `{Ports}.

(** Construction of a [Message] object: a new entry of the store, stamped
    by the clock. *)
Definition new_message (w : World) (sender receiver content : str)
  (msg_type : Message.MessageType) (metadata : dict JSON) : ref * World :=
  let r := length (store w) in
  (r, mkWorld (events w)
        (store w ++ [Message.mkMessage sender receiver content msg_type
                       metadata (now r)])).

Definition set_messages (st : SharedState) (ms : list ref) : SharedState :=
  mkSharedState (task st) (plan st) (results st) ms (status st)
    (current_step st) (max_steps st) (metadata st).

Definition set_results (st : SharedState) (rs : dict str) : SharedState :=
  mkSharedState (task st) (plan st) rs (messages st) (status st)
    (current_step st) (max_steps st) (metadata st).

Definition set_task (st : SharedState) (t : str) : SharedState :=
  mkSharedState t (plan st) (results st) (messages st) (status st)
    (current_step st) (max_steps st) (metadata st).

Definition set_plan (st : SharedState) (p : list str) : SharedState :=
  mkSharedState (task st) p (results st) (messages st) (status st)
    (current_step st) (max_steps st) (metadata st).

Definition set_status (st : SharedState) (s : Status) : SharedState :=
  mkSharedState (task st) (plan st) (results st) (messages st) s
    (current_step st) (max_steps st) (metadata st).

Definition set_current_step (st : SharedState) (n : Z) : SharedState :=
  mkSharedState (task st) (plan st) (results st) (messages st) (status st)
    n (max_steps st) (metadata st).

Definition add_message (st : SharedState) (message : ref) : SharedState :=
  set_messages st (messages st ++ [message]).

Definition add_result (w : World) (st : SharedState) (agent_name result : str)
  : World * SharedState :=
  let st1 := set_results st (dict_set (results st) agent_name result) in
  let '(m, w1) := new_message w agent_name (u "system") result Message.RESULT [] in
  (w1, add_message st1 m).

Definition get_result (st : SharedState) (agent_name : str) : option str :=
  dict_get (results st) agent_name.

Definition get_all_results (st : SharedState) : str :=
  match results st with
  | [] => u "(暂无结果)"
  | rs =>
    join (nl ++ nl)
      (map (fun nr => u "[" ++ fst nr ++ u "] 的结果:" ++ nl ++ snd nr) rs)
  end.

Definition get_messages_for (w : World) (st : SharedState) (receiver : str)
  : list ref :=
  filter (fun m =>
            match nth_error (store w) m with
            | Some msg =>
              PyStr.eqb (Message.receiver msg) receiver
                || PyStr.eqb (Message.receiver msg) (u "all")
            | None => false
            end)
         (messages st).

Definition reset (st : SharedState) : SharedState :=
  mkSharedState [] [] [] [] idle 0 (max_steps st) [].


End WithPorts.
End State.

(* ================================================================== *)
(** ** src/multi/roles.py and src/multi/base.py *)
(* ================================================================== *)

Module Multi.
Import SharedState.

(** The dataclass [AgentRole]. *)
Record AgentRole : Type := mkAgentRole {
  name : str;
  description : str;
  system_prompt : str;
  tools : list str;
}.

(** A hook callback: called with the keyword arguments of its event, it
    returns or raises; it observes and does not change the coordinator. *)
Definition Callback : Type := HookArgs -> Outcome unit.

(** [BaseMultiAgent]; the model client [llm] is the world's port. *)
Record BaseMultiAgent : Type := mkBase {
  global_tools : Tools.ToolRegistry;
  verbose : bool;
  state : SharedState;
  _agents : dict ReAct.ReActAgent;
  _hooks : dict (list Callback);
}.

(** [__init__] *)
Definition init (tool_registry : Tools.ToolRegistry) (verbose : bool) :=
  mkBase tool_registry verbose SharedState.new [] [].

Definition set_state (b : BaseMultiAgent) (st : SharedState) :=
  mkBase (global_tools b) (verbose b) st (_agents b) (_hooks b).

Definition set_agents (b : BaseMultiAgent) (ags : dict ReAct.ReActAgent) :=
  mkBase (global_tools b) (verbose b) (state b) ags (_hooks b).

(** The state a coordinator method works on. *)
Definition Sys : Type := World * BaseMultiAgent.

Section WithEnvironment.
Context `{Builtins} `{Ports} `{Prompts}.

Local Open Scope py_scope.

(** The loop of [add_agent] that fills the role's own registry. *)
Fixpoint role_registry (global : Tools.ToolRegistry) (names : list str)
  (role_tools : Tools.ToolRegistry) : Outcome Tools.ToolRegistry :=
  match names with
  | [] => Returned role_tools
  | tool_name :: rest =>
    match Tools.get global tool_name with
    | Some tool =>
      match Tools.register role_tools tool with
      | Returned r => role_registry global rest r
      | Raised e => Raised e
      end
    | None => role_registry global rest role_tools
    end
  end.

(** [add_agent(role, mode=..., max_steps=...)]; [None] for a keyword
    that is not given. *)
Definition add_agent (role : AgentRole) (mode : option str)
  (max_steps : option Z) : M BaseMultiAgent unit :=
  self <- get ;;
  role_tools <- lift (role_registry (global_tools self) (tools role) Tools.empty) ;;
  let agent :=
    ReAct.init role_tools
      (match mode with Some m => m | None => u "function_calling" end)
      (match max_steps with Some n => n | None => 10%Z end)
      false in
  let agent :=
    ReAct.mkAgent (ReAct.tools agent) (ReAct.mode agent) (ReAct.max_steps agent)
      (ReAct.verbose agent) (ReAct.history agent)
      (Some (system_prompt role)) (Some (name role)) in
  modify (fun self => set_agents self (dict_set (_agents self) (name role) agent)).

Definition get_agent (b : BaseMultiAgent) (n : str) : option ReAct.ReActAgent :=
  dict_get (_agents b) n.

Definition agent_names (b : BaseMultiAgent) : list str := dict_keys (_agents b).

Definition log_event (e : Event) : M Sys unit :=
  modify (fun s : Sys => (log (fst s) e, snd s)).

Definition update_state (f : SharedState -> SharedState) : M Sys unit :=
  modify (fun s : Sys => (fst s, set_state (snd s) (f (state (snd s))))).

(** [self.state.add_message(Message(...))] *)
Definition post_message (sender receiver content : str)
  (msg_type : Message.MessageType) (metadata : dict JSON) : M Sys unit :=
  modify (fun s : Sys =>
    let '(m, w1) := State.new_message (fst s) sender receiver content msg_type metadata in
    (w1, set_state (snd s) (State.add_message (state (snd s)) m))).

(** [self.state.add_result(agent_name, result)] *)
Definition state_add_result (agent_name result : str) : M Sys unit :=
  modify (fun s : Sys =>
    let '(w1, st1) := State.add_result (fst s) (state (snd s)) agent_name result in
    (w1, set_state (snd s) st1)).

(** The loop of [_fire_hook]: each callback is called and whatever it
    raises is dropped. *)
Fixpoint call_hooks (callbacks : list Callback) (args : HookArgs) : M Sys unit :=
  match callbacks with
  | [] => ret tt
  | callback :: rest =>
    try_except (log_event (EvHook args) ;; lift (callback args))
               (fun _ => ret tt) ;;
    call_hooks rest args
  end.

Definition _fire_hook (args : HookArgs) : M Sys unit :=
  self <- get ;;
  call_hooks
    (match dict_get (_hooks (snd self)) (hook_event args) with
     | Some callbacks => callbacks
     | None => []
     end) args.

(** [on(event, callback)] *)
Definition on (b : BaseMultiAgent) (event : str) (callback : Callback) :=
  mkBase (global_tools b) (verbose b) (state b) (_agents b)
    (dict_set (_hooks b) event
       (match dict_get (_hooks b) event with
        | Some callbacks => callbacks ++ [callback]
        | None => [callback]
        end)).

(** [agent.run(full_task)] on the agent object registered as [agent_name]. *)
Definition agent_run (agent_name : str) (agent : ReAct.ReActAgent)
  (full_task : str) : M Sys str :=
  fun s =>
    let '(o, (w', agent')) := ReAct.run full_task (fst s, agent) in
    (o, (w', set_agents (snd s) (dict_set (_agents (snd s)) agent_name agent'))).

(** [agent.reset()] on the agent object registered as [agent_name]. *)
Definition agent_reset (agent_name : str) : M Sys unit :=
  modify (fun s : Sys =>
    match dict_get (_agents (snd s)) agent_name with
    | Some agent =>
      (fst s, set_agents (snd s)
                (dict_set (_agents (snd s)) agent_name (ReAct.reset agent)))
    | None => s
    end).

(** The task with the role's system prompt in front of it. *)
Definition full_task (agent : ReAct.ReActAgent) (task : str) : str :=
  let role_prompt :=
    match ReAct._role_system_prompt agent with Some p => p | None => [] end in
  match role_prompt with
  | [] => task
  | _ => u "[系统角色指令]" ++ nl ++ role_prompt ++ nl ++ nl
           ++ u "[当前任务]" ++ nl ++ task
  end.

(** The result that stands for an exception of the agent's run. *)
Definition failure (agent_name : str) (e : Exn) : str :=
  u "错误：Agent '" ++ agent_name ++ u "' 执行失败：" ++ exn_text e.

(** The result for a name that no agent is registered under. *)
Definition unknown_agent (b : BaseMultiAgent) (agent_name : str) : str :=
  u "错误：Agent '" ++ agent_name ++ u "' 不存在。可用："
    ++ repr_list (agent_names b).

Definition _dispatch (agent_name task : str) : M Sys str :=
  log_event (EvDispatch agent_name task) ;;
  self <- get ;;
  match dict_get (_agents (snd self)) agent_name with
  | None =>
    let error := unknown_agent (snd self) agent_name in
    ret error
  | Some agent =>
    _fire_hook (on_agent_start agent_name task) ;;
    post_message (u "system") agent_name task Message.TASK [] ;;
    result <-
      try_except (agent_run agent_name agent (full_task agent task))
        (fun e =>
           let result := failure agent_name e in
           _fire_hook (on_error agent_name e) ;;
           ret result) ;;
    agent_reset agent_name ;;
    state_add_result agent_name result ;;
    _fire_hook (on_agent_finish agent_name result) ;;
    ret result
  end.

(** [_broadcast(message)]: the receiver of the message object is
    overwritten in place, then the object is logged. *)
Definition _broadcast (message : ref) : M Sys unit :=
  modify (fun s : Sys =>
    let w := fst s in
    let w1 :=
      match nth_error (store w) message with
      | Some msg =>
        mkWorld (events w)
          (set_nth message
             (Message.mkMessage (Message.sender msg) (u "all") (Message.content msg)
                (Message.msg_type msg) (Message.metadata msg) (Message.timestamp msg))
             (store w))
      | None => w
      end in
    (w1, set_state (snd s) (State.add_message (state (snd s)) message))).

End WithEnvironment.
End Multi.

(* ================================================================== *)
(** ** src/multi/pipeline.py *)
(* ================================================================== *)

Module Pipeline.
Import SharedState Multi.

Record PipelineMultiAgent : Type := mkPipeline {
  base : BaseMultiAgent;
  _steps : list Message.PipelineStep;
}.

(** [__init__]; [None] for [steps] not given. *)
Definition init (tool_registry : Tools.ToolRegistry)
  (steps : option (list Message.PipelineStep)) (verbose : bool) :=
  mkPipeline (Multi.init tool_registry verbose)
             (match steps with Some l => l | None => [] end).

Definition add_step (p : PipelineMultiAgent) (step : Message.PipelineStep) :=
  mkPipeline (base p) (_steps p ++ [step]).

(** The reserved prefix of an error result. *)
Definition error_prefix : str := u "错误：".

Section WithEnvironment.
Context `{Builtins} `{Ports} `{Prompts}.

Local Open Scope py_scope.

(** The [for attempt in range(1, step.retry + 1)] loop of
    [_execute_with_retry] with [n] attempts left, and the code after it. *)
Fixpoint attempts (n : nat) (step : Message.PipelineStep) (task last_error : str)
  : M Sys str :=
  match n with
  | O => ret last_error
  | S n' =>
    result <- _dispatch (Message.agent_name step) task ;;
    if negb (startswith result error_prefix) then ret result
    else attempts n' step task result
  end.

Definition _execute_with_retry (step : Message.PipelineStep) (task : str)
  : M Sys str :=
  attempts (Z.to_nat (Message.retry step)) step task [].

(** The [for i, step in enumerate(self._steps)] loop of [run]; [i] is the
    index of the first step of [steps]. It gives the last result. *)
Fixpoint run_steps (steps : list Message.PipelineStep) (i : Z)
  (task prev_result final_result : str) : M Sys str :=
  match steps with
  | [] => ret final_result
  | step :: rest =>
    update_state (fun st => State.set_current_step st (i + 1)) ;;
    self <- get ;;
    rendered_task <-
      lift (Format.format (Message.task_template step)
              [(u "task", task); (u "prev_result", prev_result);
               (u "all_results", State.get_all_results (state (snd self)))]) ;;
    result <- _execute_with_retry step rendered_task ;;
    result <-
      match Message.transform step with
      | Some f => lift (f result)
      | None => ret result
      end ;;
    self <- get ;;
    _fire_hook (on_step_complete (i + 1) (state (snd self))) ;;
    run_steps rest (i + 1) task result result
  end.

Fixpoint plan_lines (steps : list Message.PipelineStep) (i : Z) : list str :=
  match steps with
  | [] => []
  | s :: rest =>
    (u "Step " ++ of_Z (i + 1) ++ u ": " ++ Message.agent_name s)
      :: plan_lines rest (i + 1)
  end.

(** [run] on the coordinator state, for the step list [steps]. *)
Definition run_with (steps : list Message.PipelineStep) (task : str) : M Sys str :=
  match steps with
  | [] => ret (u "错误：流水线没有定义任何步骤。")
  | _ =>
    update_state State.reset ;;
    update_state (fun st => State.set_task st task) ;;
    update_state (fun st => State.set_status st executing) ;;
    update_state (fun st => State.set_plan st (plan_lines steps 0)) ;;
    final_result <- run_steps steps 0 task [] [] ;;
    update_state (fun st => State.set_status st done) ;;
    ret final_result
  end.

Definition run (task : str) : M (World * PipelineMultiAgent) str :=
  fun s =>
    let '(o, (w', b')) := run_with (_steps (snd s)) task (fst s, base (snd s)) in
    (o, (w', mkPipeline b' (_steps (snd s)))).

End WithEnvironment.
End Pipeline.

(* ================================================================== *)
(** ** src/multi/orchestrator.py *)
(* ================================================================== *)

Module Orchestrator.
Import SharedState Multi.

Definition PLANNER_PROMPT : str :=
  u "你是一个任务规划和编排专家。你需要将复杂任务拆解为子任务，并分配给合适的 Agent 执行。" ++ nl
  ++ nl
  ++ u "可用的 Agent：" ++ nl
  ++ u "{agents_description}" ++ nl
  ++ nl
  ++ u "你需要输出一个 JSON 格式的执行计划，格式如下：" ++ nl
  ++ u "```json" ++ nl
  ++ u "[" ++ nl
  ++ u "  {{" ++ dq ++ u "agent" ++ dq ++ u ": " ++ dq ++ u "agent_name" ++ dq
       ++ u ", " ++ dq ++ u "task" ++ dq ++ u ": " ++ dq ++ u "具体的子任务描述" ++ dq
       ++ u "}}," ++ nl
  ++ u "  {{" ++ dq ++ u "agent" ++ dq ++ u ": " ++ dq ++ u "agent_name" ++ dq
       ++ u ", " ++ dq ++ u "task" ++ dq ++ u ": " ++ dq ++ u "具体的子任务描述" ++ dq
       ++ u "}}" ++ nl
  ++ u "]" ++ nl
  ++ u "```" ++ nl
  ++ nl
  ++ u "规则：" ++ nl
  ++ u "- 每个子任务要具体明确，让对应的 Agent 能直接执行" ++ nl
  ++ u "- 合理安排顺序，后面的任务可以依赖前面的结果" ++ nl
  ++ u "- agent 名称必须是可用 Agent 之一" ++ nl
  ++ u "- 只输出 JSON，不要输出其他内容".

Definition SUMMARIZER_PROMPT : str :=
  u "你是一个汇总专家。请根据以下各个 Agent 的执行结果，综合生成一个完整、结构化的最终回答。" ++ nl
  ++ nl
  ++ u "原始任务：{task}" ++ nl
  ++ nl
  ++ u "各 Agent 的执行结果：" ++ nl
  ++ u "{all_results}" ++ nl
  ++ nl
  ++ u "请综合以上信息，给出完整的最终回答。要求：" ++ nl
  ++ u "- 结构清晰，使用标题和列表" ++ nl
  ++ u "- 涵盖所有 Agent 提供的关键信息" ++ nl
  ++ u "- 语言简洁专业".

Record OrchestratorMultiAgent : Type := mkOrchestrator {
  base : BaseMultiAgent;
  _max_replan : Z;
}.

(** [__init__] *)
Definition init (tool_registry : Tools.ToolRegistry) (max_replan : Z)
  (verbose : bool) :=
  mkOrchestrator (Multi.init tool_registry verbose) max_replan.

(** One validated entry of a plan: the values under ["agent"] and ["task"]. *)
Record PlanStep : Type := mkPlanStep { agent : JSON; task : JSON }.

(** The message the run fails with. *)
Definition no_plan : str := u "错误：无法生成执行计划。".

Section WithEnvironment.
Context `{Builtins} `{Ports} `{Prompts}.

Local Open Scope py_scope.

(** The validation loop of [_parse_plan] over the items of the array. *)
Fixpoint validate (items : list JSON) : list PlanStep :=
  match items with
  | [] => []
  | item :: rest =>
    match item with
    | JObj fields =>
      match dict_get fields (u "agent"), dict_get fields (u "task") with
      | Some a, Some t => mkPlanStep a t :: validate rest
      | _, _ => validate rest
      end
    | _ => validate rest
    end
  end.

Definition _parse_plan (text : str) : list PlanStep :=
  match Re.json_array_match text with
  | None => []
  | Some matched =>
    match json_loads matched with
    | None => []                      (* JSONDecodeError, caught *)
    | Some (JArr items) => validate items
    | Some (JObj _) => []             (* iterates over keys: no dict among them *)
    | Some (JStr _) => []             (* iterates over characters *)
    | Some _ => []                    (* not iterable: TypeError, caught *)
    end
  end.

(** [f"{v}"] of a decoded JSON value. *)
Definition fstr (v : JSON) : str :=
  match v with
  | JStr s => s
  | _ => str_of_json v
  end.

(** [client.chat_simple] run by the coordinator. *)
Definition llm_chat_simple (prompt system : str) : M Sys str :=
  fun s => let '(o, w') := Llm.chat_simple prompt system (fst s) in (o, (w', snd s)).

Definition _plan (task : str) : M Sys (list PlanStep) :=
  self <- get ;;
  let agents_desc :=
    join nl
      (map (fun na : str * ReAct.ReActAgent =>
              u "- " ++ fst na ++ u ": "
                ++ slice_to 80
                     (match ReAct._role_system_prompt (snd na) with
                      | Some p => p
                      | None => u "通用Agent"
                      end)
                ++ u "...")
           (_agents (snd self))) in
  prompt <- lift (Format.format PLANNER_PROMPT [(u "agents_description", agents_desc)]) ;;
  response <- llm_chat_simple task prompt ;;
  ret (_parse_plan response).

Definition _summarize (task : str) : M Sys str :=
  self <- get ;;
  prompt <-
    lift (Format.format SUMMARIZER_PROMPT
            [(u "task", task);
             (u "all_results", State.get_all_results (state (snd self)))]) ;;
  llm_chat_simple prompt [].

(** [sub_task += extra]: concatenation on a string, extension by the
    characters on a list, [TypeError] on anything else. *)
Definition add_context (sub_task : JSON) (extra : str) : Outcome JSON :=
  match sub_task with
  | JStr s => Returned (JStr (s ++ extra))
  | JArr items => Returned (JArr (items ++ map (fun c => JStr [c]) extra))
  | _ => Raised (mkExn TypeError (u "unsupported operand type(s) for +="))
  end.

(** [agent_name not in self._agents]: the registered name, [None] when
    the value is not a key, [TypeError] when it cannot be hashed. *)
Definition registered (b : BaseMultiAgent) (agent_name : JSON) : Outcome (option str) :=
  match agent_name with
  | JStr s => Returned (if dict_mem (_agents b) s then Some s else None)
  | JArr _ | JObj _ => Raised (mkExn TypeError (u "unhashable type"))
  | _ => Returned None
  end.

(** The [for i, step in enumerate(plan)] loop of [run]. The coordinator
    and the agents are typed for a task that is a string: with a task of
    another type the model stops with [TypeError] at the dispatch. *)
Fixpoint execute_plan (plan : list PlanStep) (i : Z) : M Sys unit :=
  match plan with
  | [] => ret tt
  | step :: rest =>
    update_state (fun st => State.set_current_step st (i + 1)) ;;
    self <- get ;;
    sub_task <-
      match results (state (snd self)) with
      | [] => ret (task step)
      | _ =>
        lift (add_context (task step)
                (nl ++ nl ++ u "[参考信息] 前面步骤的结果:" ++ nl
                   ++ State.get_all_results (state (snd self))))
      end ;;
    known <- lift (registered (snd self) (agent step)) ;;
    match known with
    | None => execute_plan rest (i + 1)
    | Some agent_name =>
      match sub_task with
      | JStr sub_task =>
        _dispatch agent_name sub_task ;;
        self <- get ;;
        _fire_hook (on_step_complete (i + 1) (state (snd self))) ;;
        execute_plan rest (i + 1)
      | _ => raise (mkExn TypeError (u "task is not a str"))
      end
    end
  end.

(** [run] on the coordinator state. *)
Definition run_with (task : str) : M Sys str :=
  update_state State.reset ;;
  update_state (fun st => State.set_task st task) ;;
  update_state (fun st => State.set_status st planning) ;;
  plan <- _plan task ;;
  match plan with
  | [] => ret no_plan
  | _ =>
    update_state (fun st =>
      State.set_plan st
        (map (fun p => fstr (agent p) ++ u ": " ++ fstr (Orchestrator.task p)) plan)) ;;
    update_state (fun st => State.set_status st executing) ;;
    execute_plan plan 0 ;;
    update_state (fun st => State.set_status st reviewing) ;;
    final <- _summarize task ;;
    update_state (fun st => State.set_status st done) ;;
    ret final
  end.

Definition run (task : str) : M (World * OrchestratorMultiAgent) str :=
  fun s =>
    let '(o, (w', b')) := run_with task (fst s, base (snd s)) in
    (o, (w', mkOrchestrator b' (_max_replan (snd s)))).

End WithEnvironment.
End Orchestrator.

(* ================================================================== *)
(** ** src/multi/debate.py *)
(* ================================================================== *)

Module Debate.
Import SharedState Multi.

Definition JUDGE_PROMPT : str :=
  u "你是一个公正的裁判。多位专家围绕以下话题进行了辩论，请你综合所有观点，给出最终裁决。" ++ nl
  ++ nl
  ++ u "原始话题：{topic}" ++ nl
  ++ nl
  ++ u "{rounds_summary}" ++ nl
  ++ nl
  ++ u "请你：" ++ nl
  ++ u "1. 总结各方的核心观点和论据" ++ nl
  ++ u "2. 分析各方观点的优缺点" ++ nl
  ++ u "3. 给出你的最终结论和建议" ++ nl
  ++ u "4. 说明你的裁决理由" ++ nl
  ++ nl
  ++ u "要求：客观公正，论据充分，结论明确。".

Record DebateMultiAgent : Type := mkDebate {
  base : BaseMultiAgent;
  _max_rounds : Z;
  _judge_role : option AgentRole;
  _debater_names : list str;
}.

(** [__init__] *)
Definition init (tool_registry : Tools.ToolRegistry) (max_rounds : Z)
  (verbose : bool) :=
  mkDebate (Multi.init tool_registry verbose) max_rounds None [].

(** The opinions of one round: debater name to opinion. *)
Definition Round : Type := dict str.

Section WithEnvironment.
Context `{Builtins} `{Ports} `{Prompts}.

Local Open Scope py_scope.




(** The lines [_format_opinions] collects for the round number [i]. *)
Definition opinion_lines (i : Z) (round_ops : Round) (exclude : str) : list str :=
  map (fun no : str * str =>
         u "[第" ++ of_Z i ++ u "轮 - " ++ fst no ++ u "]:" ++ nl ++ snd no ++ nl)
      (filter (fun no : str * str => negb (PyStr.eqb (fst no) exclude)) round_ops).

Fixpoint all_opinion_lines (all_rounds : list Round) (i : Z) (exclude : str)
  : list str :=
  match all_rounds with
  | [] => []
  | round_ops :: rest =>
    opinion_lines i round_ops exclude ++ all_opinion_lines rest (i + 1) exclude
  end.

Definition _format_opinions (all_rounds : list Round) (exclude : str) : str :=
  match all_opinion_lines all_rounds 1 exclude with
  | [] => u "(暂无其他观点)"
  | lines => join nl lines
  end.

Fixpoint all_round_lines (all_rounds : list Round) (i : Z) : list str :=
  match all_rounds with
  | [] => []
  | round_ops :: rest =>
    (u "=== 第 " ++ of_Z i ++ u " 轮 ===")
      :: map (fun no : str * str =>
                nl ++ u "[" ++ fst no ++ u "]:" ++ nl ++ snd no ++ nl) round_ops
      ++ all_round_lines rest (i + 1)
  end.

Definition _format_all_rounds (all_rounds : list Round) : str :=
  join nl (all_round_lines all_rounds 1).

(** The task a debater receives in the round [round_num]. *)
Definition sub_task_for (task : str) (round_num : Z) (all_rounds : list Round)
  (debater_name : str) : str :=
  if (round_num =? 1)%Z then
    u "请就以下话题发表你的观点：" ++ nl ++ nl ++ task ++ nl ++ nl
      ++ u "要求：给出你的核心观点、论据和结论。"
  else
    let others_opinions := _format_opinions all_rounds debater_name in
    u "话题：" ++ task ++ nl ++ nl
      ++ u "以下是其他参与者在之前轮次的观点：" ++ nl ++ others_opinions ++ nl ++ nl
      ++ u "请你针对其他人的观点进行回应，可以反驳、补充或修正自己的观点。"
      ++ u "给出你更新后的核心观点和论据。".

(** The [for debater_name in self._debater_names] loop of one round. *)
Fixpoint debate_round (debaters : list str) (task : str) (round_num : Z)
  (all_rounds : list Round) (round_opinions : Round) : M Sys Round :=
  match debaters with
  | [] => ret round_opinions
  | debater_name :: rest =>
    let sub_task := sub_task_for task round_num all_rounds debater_name in
    result <- _dispatch debater_name sub_task ;;
    post_message debater_name (u "all") result Message.RESULT
      [(u "round", JInt round_num)] ;;
    debate_round rest task round_num all_rounds
      (dict_set round_opinions debater_name result)
  end.

(** The [for round_num in range(1, self._max_rounds + 1)] loop with [n]
    rounds left, starting at the round [round_num]. *)
Fixpoint debate_rounds (n : nat) (debaters : list str) (task : str)
  (round_num : Z) (all_rounds : list Round) : M Sys (list Round) :=
  match n with
  | O => ret all_rounds
  | S n' =>
    update_state (fun st => State.set_current_step st round_num) ;;
    round_opinions <- debate_round debaters task round_num all_rounds [] ;;
    self <- get ;;
    _fire_hook (on_step_complete round_num (state (snd self))) ;;
    debate_rounds n' debaters task (round_num + 1) (all_rounds ++ [round_opinions])
  end.

Definition _judge (judge_role : AgentRole) (topic : str) (all_rounds : list Round)
  : M Sys str :=
  let rounds_summary := _format_all_rounds all_rounds in
  prompt <- lift (Format.format JUDGE_PROMPT
                    [(u "topic", topic); (u "rounds_summary", rounds_summary)]) ;;
  _dispatch (name judge_role) prompt.

(** [run] on the coordinator state, for the configuration of [d]. *)
Definition run_with (d : DebateMultiAgent) (task : str) : M Sys str :=
  match _debater_names d, _judge_role d with
  | [], _ => ret (u "错误：没有辩论参与者。")
  | _, None => ret (u "错误：没有设置裁判。")
  | debaters, Some judge_role =>
    update_state State.reset ;;
    update_state (fun st => State.set_task st task) ;;
    update_state (fun st => State.set_status st executing) ;;
    all_rounds <- debate_rounds (Z.to_nat (_max_rounds d)) debaters task 1 [] ;;
    update_state (fun st => State.set_status st reviewing) ;;
    final <- _judge judge_role task all_rounds ;;
    update_state (fun st => State.set_status st done) ;;
    ret final
  end.

Definition run (task : str) : M (World * DebateMultiAgent) str :=
  fun s =>
    let '(o, (w', b')) := run_with (snd s) task (fst s, base (snd s)) in
    (o, (w', mkDebate b' (_max_rounds (snd s)) (_judge_role (snd s))
               (_debater_names (snd s)))).

End WithEnvironment.
End Debate.

(* ================================================================== *)
(** * Properties *)
(* ================================================================== *)

(* ================================================================== *)
(** ** Conversation history: the value view *)
(* ================================================================== *)

Module HistoryFacts.


Lemma last_n_all {A} (n : nat) (l : list A) : length l <= n -> last_n n l = l.
Proof.
  intros Hle. unfold last_n.
  replace (length l - n) with 0 by lia. reflexivity.
Qed.

Lemma last_n_length {A} (n : nat) (l : list A) :
  length (last_n n l) = Nat.min n (length l).
Proof. unfold last_n. rewrite length_skipn. lia. Qed.

Lemma last_n_snoc {A} (n : nat) (l : list A) (x : A) :
  1 <= n -> last_n n (last_n n l ++ [x]) = last_n n (l ++ [x]).
Proof.
  intros Hn.
  destruct (Nat.le_gt_cases (length l) n) as [Hle | Hgt].
  - rewrite (last_n_all l) by exact Hle. reflexivity.
  - unfold last_n at 1 3.
    rewrite !length_app, last_n_length. cbn [length].
    replace (Nat.min n (length l) + 1 - n) with 1 by lia.
    unfold last_n.
    rewrite !skipn_app, !length_skipn, skipn_skipn.
    replace (1 + (length l - n)) with (length l + 1 - n) by lia.
    replace (1 - (length l - (length l - n))) with 0 by lia.
    replace (length l + 1 - n - length l) with 0 by lia.
    reflexivity.
Qed.

Lemma truncate_messages (h : History.ConversationHistory) :
  (1 <= History.max_turns h)%Z ->
  History._messages (History._truncate h)
  = last_n (Z.to_nat (2 * History.max_turns h)) (History._messages h).
Proof.
  intros Hpos. unfold History._truncate.
  destruct (Z.gtb_spec (Z.of_nat (length (History._messages h)))
                       (History.max_turns h * 2)) as [Hgt | Hle];
    cbn [History._messages].
  - unfold slice_from, last_n.
    destruct (Z.ltb_spec (- (History.max_turns h * 2)) 0); [ | lia ].
    f_equal. lia.
  - symmetry. apply last_n_all. lia.
Qed.

Lemma truncate_max_turns h : History.max_turns (History._truncate h) = History.max_turns h.
Proof. unfold History._truncate. destruct (_ >? _)%Z; reflexivity. Qed.

Lemma call_messages (h : History.ConversationHistory) (c : History.Call) :
  (1 <= History.max_turns h)%Z ->
  History._messages (History.call h c)
  = last_n (Z.to_nat (2 * History.max_turns h))
           (History._messages h ++ [History.message_of c]).
Proof.
  intros Hpos.
  destruct c; cbn [History.call History.message_of];
    unfold History.add_user_message, History.add_assistant_message;
    rewrite truncate_messages by exact Hpos; reflexivity.
Qed.

Lemma call_max_turns h c : History.max_turns (History.call h c) = History.max_turns h.
Proof.
  destruct c; cbn [History.call];
    unfold History.add_user_message, History.add_assistant_message;
    rewrite truncate_max_turns; reflexivity.
Qed.

Lemma calls_max_turns cs : forall h,
  History.max_turns (History.calls h cs) = History.max_turns h.
Proof.
  unfold History.calls.
  induction cs as [ | c cs IH]; intros h; cbn [fold_left]; [ reflexivity | ].
  rewrite IH. apply call_max_turns.
Qed.

(** After any sequence of calls a history of positive capacity holds the
    most recent [2 * max_turns] of the messages added to it. *)
Lemma calls_messages (max_turns : Z) (cs : list History.Call) :
  (1 <= max_turns)%Z ->
  History._messages (History.calls (History.init max_turns) cs)
  = last_n (Z.to_nat (2 * max_turns)) (map History.message_of cs).
Proof.
  intros Hpos.
  induction cs as [ | c cs IH] using rev_ind.
  - reflexivity.
  - unfold History.calls in *. rewrite fold_left_app. cbn [fold_left].
    rewrite call_messages.
    + fold (History.calls (History.init max_turns) cs).
      rewrite calls_max_turns. cbn [History.init History.max_turns].
      unfold History.calls. rewrite IH, map_app. cbn [map].
      apply last_n_snoc. lia.
    + fold (History.calls (History.init max_turns) cs).
      rewrite calls_max_turns. exact Hpos.
Qed.

Definition turn_calls (qa : str * str) : list History.Call :=
  [History.AddUser (fst qa); History.AddAssistant (snd qa)].

Lemma turns_as_calls (qas : list (str * str)) : forall h,
  History.turns h qas = History.calls h (flat_map turn_calls qas).
Proof.
  unfold History.turns, History.calls.
  induction qas as [ | qa qas IH]; intros h; [ reflexivity | ].
  cbn [fold_left flat_map turn_calls app]. apply IH.
Qed.

Lemma turn_calls_messages (qas : list (str * str)) :
  map History.message_of (flat_map turn_calls qas)
  = flat_map History.turn_messages qas.
Proof.
  induction qas as [ | qa qas IH]; [ reflexivity | ].
  cbn [flat_map turn_calls app map]. rewrite IH. reflexivity.
Qed.

Lemma turn_messages_length (qas : list (str * str)) :
  length (flat_map History.turn_messages qas) = 2 * length qas.
Proof.
  induction qas as [ | qa qas IH]; [ reflexivity | ].
  cbn [flat_map History.turn_messages app length]. lia.
Qed.

Lemma skipn_turn_messages (j : nat) : forall qas : list (str * str),
  skipn (2 * j) (flat_map History.turn_messages qas)
  = flat_map History.turn_messages (skipn j qas).
Proof.
  induction j as [ | j IH]; intros qas; [ reflexivity | ].
  destruct qas as [ | qa qas]; [ reflexivity | ].
  replace (2 * S j) with (S (S (2 * j))) by lia.
  cbn [flat_map History.turn_messages app skipn]. apply IH.
Qed.

Lemma last_n_turn_messages (m : nat) (qas : list (str * str)) :
  last_n (2 * m) (flat_map History.turn_messages qas)
  = flat_map History.turn_messages (last_n m qas).
Proof.
  unfold last_n. rewrite turn_messages_length.
  replace (2 * length qas - 2 * m) with (2 * (length qas - m)) by lia.
  apply skipn_turn_messages.
Qed.

(** C1 (as amended). On a history of capacity [max_turns >= 1] that has
    received any sequence of complete turns (a user message followed by the
    assistant's answer), after every completed turn [len(history)] is
    [2 * turn_count], the turn count is the number of turns capped at
    [max_turns], and [get_messages()] is exactly the most recent
    [max_turns] turns, in their original order. *)
Theorem history_turns_invariant (max_turns : Z) (qas : list (str * str)) :
  (1 <= max_turns)%Z ->
  let h := History.turns (History.init max_turns) qas in
  History.len h = (2 * History.turn_count h)%Z
  /\ History.turn_count h = Z.min (Z.of_nat (length qas)) max_turns
  /\ History.get_messages h
     = flat_map History.turn_messages (last_n (Z.to_nat max_turns) qas).
Proof.
  intros Hpos h.
  assert (Hmsgs : History._messages h
                  = flat_map History.turn_messages (last_n (Z.to_nat max_turns) qas)).
  { subst h. rewrite turns_as_calls, calls_messages by exact Hpos.
    rewrite turn_calls_messages.
    replace (Z.to_nat (2 * max_turns)) with (2 * Z.to_nat max_turns) by lia.
    apply last_n_turn_messages. }
  assert (Hlen : History.len h = (2 * Z.min (Z.of_nat (length qas)) max_turns)%Z).
  { unfold History.len. rewrite Hmsgs, turn_messages_length, last_n_length. lia. }
  assert (Hcount : History.turn_count h = Z.min (Z.of_nat (length qas)) max_turns).
  { unfold History.turn_count. fold (History.len h). rewrite Hlen.
    rewrite Z.mul_comm. apply Z.div_mul. lia. }
  repeat split.
  - rewrite Hcount. exact Hlen.
  - exact Hcount.
  - exact Hmsgs.
Qed.


(** The turns of the repository's truncation test. *)
Definition five_turns : list (str * str) :=
  [(u "q0", u "a0"); (u "q1", u "a1"); (u "q2", u "a2");
   (u "q3", u "a3"); (u "q4", u "a4")].

Lemma history_turns_invariant_witness :
  let h := History.turns (History.init 3) five_turns in
  History.len h = (2 * History.turn_count h)%Z
  /\ History.turn_count h = Z.min (Z.of_nat (length five_turns)) 3
  /\ History.get_messages h
     = flat_map History.turn_messages (last_n (Z.to_nat 3) five_turns).
Proof. apply (@history_turns_invariant 3 five_turns). lia. Defined.

(** With capacity 0 nothing is dropped: the slice [l[-0:]] is the whole
    list. The invariant above is stated for a positive capacity. *)
Lemma zero_capacity_keeps_the_turn :
  History.get_messages (History.turns (History.init 0) [(u "q", u "a")])
  = History.turn_messages (u "q", u "a").
Proof. reflexivity. Qed.

(** C1 as stated fails after a lone user message: one message is stored
    and the turn count is still zero. *)
Lemma history_len_odd_after_user_message :
  let h := History.calls (History.init 20) [History.AddUser (u "hello")] in
  History.len h = 1%Z
  /\ History.turn_count h = 0%Z
  /\ History.len h <> (2 * History.turn_count h)%Z.
Proof. vm_compute. repeat split; discriminate. Qed.

End HistoryFacts.

(* ================================================================== *)
(** ** Conversation history: the object view *)
(* ================================================================== *)

Section ListAssignment.

Context {A : Type}.

Lemma set_nth_length (n : nat) (x : A) (l : list A) :
  length (set_nth n x l) = length l.
Proof.
  revert n; induction l as [ | y l IH]; intros [ | n]; cbn; congruence.
Qed.

Lemma nth_set_nth_same (n : nat) (x d : A) (l : list A) :
  n < length l -> nth n (set_nth n x l) d = x.
Proof.
  revert n; induction l as [ | y l IH]; intros [ | n] Hn; cbn in *;
    try lia; [ reflexivity | apply IH; lia ].
Qed.

Lemma nth_set_nth_other (n m : nat) (x d : A) (l : list A) :
  n <> m -> nth m (set_nth n x l) d = nth m l d.
Proof.
  revert n m; induction l as [ | y l IH]; intros [ | n] [ | m] Hnm; cbn;
    try reflexivity; try congruence.
  apply IH. congruence.
Qed.

End ListAssignment.

Module HistoryObjFacts.
Import HistoryObj.


Lemma slice_from_map {A B} (f : A -> B) (start : Z) (l : list A) :
  slice_from start (map f l) = map f (slice_from start l).
Proof. unfold slice_from. rewrite length_map, skipn_map. reflexivity. Qed.

Lemma slice_from_Forall {A} (P : A -> Prop) (start : Z) (l : list A) :
  Forall P l -> Forall P (slice_from start l).
Proof.
  intros Hl. unfold slice_from.
  rewrite <- (firstn_skipn (Z.to_nat
    (if (start <? 0)%Z then Z.max (start + Z.of_nat (length l)) 0
     else Z.min start (Z.of_nat (length l)))) l) in Hl.
  apply Forall_app in Hl. apply Hl.
Qed.

Lemma init_wf hp n :
  wf (fst (init hp n)) (snd (init hp n))
  /\ view (fst (init hp n)) (snd (init hp n)) = History.init n.
Proof.
  unfold init, new_list, wf, view, stored, deref, list_at.
  cbn [fst snd _messages lists dicts max_turns].
  rewrite length_app, app_nth2, Nat.sub_diag by lia. cbn [length nth map].
  repeat split; [ lia | constructor ].
Qed.

Lemma append_msg_spec h hp m :
  wf h hp ->
  wf h (append_msg h hp m)
  /\ stored h (append_msg h hp m) = stored h hp ++ [m].
Proof.
  intros [Hlist Hitems].
  unfold append_msg, new_dict, list_assign, wf, stored, deref, list_at in *.
  cbn [lists dicts] in *.
  rewrite set_nth_length, nth_set_nth_same by exact Hlist.
  repeat split.
  - exact Hlist.
  - apply Forall_app; split.
    + eapply Forall_impl; [ | exact Hitems ].
      intros d Hd. cbn beta in *. rewrite length_app. cbn [length]. lia.
    + constructor; [ | constructor ]. rewrite length_app. cbn [length]. lia.
  - rewrite map_app. cbn [map]. rewrite app_nth2, Nat.sub_diag by lia.
    cbn [nth]. f_equal.
    apply map_ext_in. intros d Hd.
    rewrite Forall_forall in Hitems. apply app_nth1. apply Hitems. exact Hd.
Qed.

Lemma truncate_spec h hp :
  wf h hp ->
  wf (fst (_truncate h hp)) (snd (_truncate h hp))
  /\ view (fst (_truncate h hp)) (snd (_truncate h hp))
     = History._truncate (view h hp).
Proof.
  intros [Hlist Hitems].
  unfold _truncate, History._truncate, view, stored, deref, wf, list_at, ref in *.
  cbn [History.max_turns History._messages].
  rewrite length_map.
  match goal with |- context [if ?c then _ else _] => destruct c end.
  - unfold new_list. cbn [fst snd _messages lists dicts max_turns].
    rewrite app_nth2, Nat.sub_diag by lia. cbn [nth].
    repeat split.
    + rewrite length_app. cbn [length]. lia.
    + apply slice_from_Forall. exact Hitems.
    + rewrite slice_from_map. reflexivity.
  - cbn [fst snd]. repeat split; assumption.
Qed.

Lemma add_user_message_refines h hp content :
  wf h hp ->
  wf (fst (add_user_message h hp content)) (snd (add_user_message h hp content))
  /\ view (fst (add_user_message h hp content)) (snd (add_user_message h hp content))
     = History.add_user_message (view h hp) content.
Proof.
  intros Hwf. unfold add_user_message, History.add_user_message.
  destruct (append_msg_spec (role_content (u "user") content) Hwf) as [Hwf' Hst].
  destruct (truncate_spec Hwf') as [Hwf'' Hview].
  split; [ exact Hwf'' | ].
  rewrite Hview. unfold view, History.append. rewrite Hst. reflexivity.
Qed.

Lemma add_assistant_message_refines h hp content :
  wf h hp ->
  wf (fst (add_assistant_message h hp content))
     (snd (add_assistant_message h hp content))
  /\ view (fst (add_assistant_message h hp content))
          (snd (add_assistant_message h hp content))
     = History.add_assistant_message (view h hp) content.
Proof.
  intros Hwf. unfold add_assistant_message, History.add_assistant_message.
  destruct (append_msg_spec (role_content (u "assistant") content) Hwf) as [Hwf' Hst].
  destruct (truncate_spec Hwf') as [Hwf'' Hview].
  split; [ exact Hwf'' | ].
  rewrite Hview. unfold view, History.append. rewrite Hst. reflexivity.
Qed.

Lemma clear_refines h hp :
  wf h hp ->
  wf h (clear h hp) /\ view h (clear h hp) = History.clear (view h hp).
Proof.
  intros [Hlist Hitems].
  unfold clear, list_assign, wf, view, stored, deref, list_at, History.clear.
  cbn [lists dicts History.max_turns].
  rewrite set_nth_length, nth_set_nth_same by exact Hlist.
  repeat split; [ exact Hlist | constructor ].
Qed.



Lemma deref_new_list hp items r :
  r < length (lists hp) ->
  deref (snd (new_list hp items)) r = deref hp r.
Proof.
  intros Hr. unfold deref, list_at, new_list. cbn [snd lists dicts].
  rewrite app_nth1 by exact Hr. reflexivity.
Qed.

Lemma deref_fresh_list hp items :
  deref (snd (new_list hp items)) (fst (new_list hp items))
  = map (fun d => nth d (dicts hp) (role_content [] [])) items.
Proof.
  unfold deref, list_at, new_list. cbn [fst snd lists dicts].
  rewrite app_nth2, Nat.sub_diag by lia. reflexivity.
Qed.

Lemma deref_list_assign_other hp r r' items :
  r <> r' -> deref (list_assign hp r items) r' = deref hp r'.
Proof.
  intros Hne. unfold deref, list_at, list_assign. cbn [lists dicts].
  rewrite nth_set_nth_other by exact Hne. reflexivity.
Qed.

(** An assignment to the items of the returned list leaves the stored
    history as it was. *)
Lemma get_messages_copy_kept
  (h : ConversationHistory) (hp : Heap) (items : list ref) :
  wf h hp ->
  stored h (list_assign (snd (get_messages h hp)) (fst (get_messages h hp)) items)
  = stored h hp.
Proof.
  intros [Hlist _]. unfold stored.
  rewrite deref_list_assign_other.
  - unfold get_messages. apply deref_new_list. exact Hlist.
  - unfold get_messages, new_list. cbn [fst]. lia.
Qed.

(** C10. [get_messages()] gives a new list object: it differs from the
    stored list, holds the stored messages, and whatever the caller then
    makes of its items (append, remove, reorder: any [list_assign] on it)
    the stored history is unchanged, so that a second [get_messages()]
    returns the same messages again. *)
Theorem get_messages_returns_fresh_copy
  (h : ConversationHistory) (hp : Heap) (items : list ref) :
  wf h hp ->
  let r := fst (get_messages h hp) in
  let hp1 := snd (get_messages h hp) in
  let hp2 := list_assign hp1 r items in
  r <> _messages h
  /\ deref hp1 r = stored h hp
  /\ stored h hp1 = stored h hp
  /\ stored h hp2 = stored h hp
  /\ deref (snd (get_messages h hp1)) (fst (get_messages h hp1)) = deref hp1 r
  /\ deref (snd (get_messages h hp2)) (fst (get_messages h hp2)) = stored h hp.
Proof.
  intros [Hlist _] r hp1 hp2.
  assert (Hfresh : r <> _messages h).
  { subst r. unfold get_messages, new_list. cbn [fst]. lia. }
  assert (Hcopy : deref hp1 r = stored h hp).
  { subst r hp1. unfold get_messages. rewrite deref_fresh_list. reflexivity. }
  assert (Hkept1 : stored h hp1 = stored h hp).
  { subst hp1. unfold stored, get_messages. apply deref_new_list. exact Hlist. }
  assert (Hkept2 : stored h hp2 = stored h hp).
  { subst hp2. unfold stored. rewrite deref_list_assign_other by exact Hfresh.
    exact Hkept1. }
  repeat split; try assumption.
  - unfold get_messages at 1 2. rewrite deref_fresh_list.
    rewrite Hcopy. exact Hkept1.
  - unfold get_messages at 1 2. rewrite deref_fresh_list.
    exact Hkept2.
Qed.

(** In particular for an append, a pop or a reversal of the returned
    list. *)
Lemma caller_mutations_leave_history
  (h : ConversationHistory) (hp : Heap) (x : ref) :
  wf h hp ->
  let r := fst (get_messages h hp) in
  let hp1 := snd (get_messages h hp) in
  stored h (list_append hp1 r x) = stored h hp
  /\ stored h (list_pop hp1 r) = stored h hp
  /\ stored h (list_reverse hp1 r) = stored h hp.
Proof.
  intros Hwf r hp1. unfold list_append, list_pop, list_reverse.
  split; [ | split ].
  - apply (@get_messages_copy_kept h hp (list_at hp1 r ++ [x]) Hwf).
  - apply (@get_messages_copy_kept h hp (removelast (list_at hp1 r)) Hwf).
  - apply (@get_messages_copy_kept h hp (rev (list_at hp1 r)) Hwf).
Qed.


(** A history object of capacity 3 after one question. *)
Definition one_question : ConversationHistory * Heap :=
  let '(h, hp) := init (mkHeap [] []) 3 in
  add_user_message h hp (u "test").

Lemma get_messages_returns_fresh_copy_witness :
  let h := fst one_question in
  let hp := snd one_question in
  wf h hp
  /\ fst (get_messages h hp) <> _messages h
  /\ stored h (list_assign (snd (get_messages h hp)) (fst (get_messages h hp)) [])
     = stored h hp.
Proof.
  assert (Hwf : wf (fst one_question) (snd one_question)).
  { split; [ vm_compute; lia | repeat constructor ]. }
  split; [ exact Hwf | ].
  pose proof (@get_messages_returns_fresh_copy
                (fst one_question) (snd one_question) [] Hwf) as Hcopy.
  split; apply Hcopy.
Defined.

End HistoryObjFacts.

(* ================================================================== *)
(** ** Strings and dicts *)
(* ================================================================== *)

Module PyFacts.


Lemma eqb_eq (a b : str) : PyStr.eqb a b = true <-> a = b.
Proof.
  revert b; induction a as [ | x a IH]; intros [ | y b]; cbn; split;
    try congruence; try discriminate.
  - intros Hxy. apply andb_true_iff in Hxy. destruct Hxy as [Hx Ha].
    apply N.eqb_eq in Hx. apply IH in Ha. congruence.
  - intros Heq. injection Heq as -> ->.
    rewrite N.eqb_refl. apply IH. reflexivity.
Qed.

Lemma eqb_refl (a : str) : PyStr.eqb a a = true.
Proof. apply eqb_eq. reflexivity. Qed.

Lemma eqb_neq (a b : str) : PyStr.eqb a b = false <-> a <> b.
Proof.
  rewrite <- eqb_eq. destruct (PyStr.eqb a b); split; congruence.
Qed.

Lemma startswith_app (p s : str) : startswith (p ++ s) p = true.
Proof.
  induction p as [ | c p IH]; cbn; [ reflexivity | ].
  rewrite N.eqb_refl. exact IH.
Qed.

Lemma startswith_prefix (s p : str) :
  startswith s p = true <-> exists r, s = p ++ r.
Proof.
  revert s; induction p as [ | c p IH]; intros s; cbn.
  - split; [ intros _; exists s; reflexivity | reflexivity ].
  - destruct s as [ | d s].
    + split; [ discriminate | intros [r Hr]; discriminate ].
    + rewrite andb_true_iff, N.eqb_eq, IH. split.
      * intros [-> [r ->]]. exists r. reflexivity.
      * intros [r Hr]. injection Hr as -> ->. split; eauto.
Qed.

Lemma substring_here (x post : str) : Substring x (x ++ post).
Proof. exists [], post. reflexivity. Qed.

Lemma substring_app_r (x s pre : str) : Substring x s -> Substring x (pre ++ s).
Proof.
  intros [a [b ->]]. exists (pre ++ a), b. rewrite <- app_assoc. reflexivity.
Qed.


Section Dicts.
Context {V : Type}.

Lemma dict_get_set_same (d : dict V) (k : str) (v : V) :
  dict_get (dict_set d k v) k = Some v.
Proof.
  induction d as [ | [k' v'] d IH]; cbn.
  - rewrite eqb_refl. reflexivity.
  - destruct (PyStr.eqb k' k) eqn:E; cbn; rewrite E; [ reflexivity | exact IH ].
Qed.

Lemma dict_get_set_other (d : dict V) (k k' : str) (v : V) :
  k <> k' -> dict_get (dict_set d k v) k' = dict_get d k'.
Proof.
  intros Hne. induction d as [ | [k0 v0] d IH]; cbn.
  - apply eqb_neq in Hne. rewrite Hne. reflexivity.
  - destruct (PyStr.eqb k0 k) eqn:E; cbn.
    + apply eqb_eq in E. subst k0. apply eqb_neq in Hne. rewrite Hne. reflexivity.
    + rewrite IH. reflexivity.
Qed.

Lemma dict_set_absent (d : dict V) (k : str) (v : V) :
  dict_get d k = None -> dict_set d k v = d ++ [(k, v)].
Proof.
  induction d as [ | [k' v'] d IH]; cbn; [ reflexivity | ].
  destruct (PyStr.eqb k' k); [ discriminate | ].
  intros Hd. rewrite IH by exact Hd. reflexivity.
Qed.

Lemma dict_mem_false (d : dict V) (k : str) :
  dict_mem d k = false <-> dict_get d k = None.
Proof. unfold dict_mem. destruct (dict_get d k); split; congruence. Qed.

Lemma dict_mem_true (d : dict V) (k : str) :
  dict_mem d k = true <-> exists v, dict_get d k = Some v.
Proof.
  unfold dict_mem. destruct (dict_get d k); split; try congruence; eauto.
  intros [v Hv]. discriminate.
Qed.

End Dicts.
End PyFacts.
Import PyFacts.

(** Stand-ins for the built-ins and the collaborators, for running the
    model on concrete inputs: a JSON decoder that knows nothing, a model
    service that is down, a clock that shows nothing. *)
Module Examples.

Definition builtins : Builtins := {|
  json_loads := fun _ => None;
  json_dumps := fun _ => [];
  repr_str := fun s => u "'" ++ s ++ u "'";
  str_of_json := fun _ => [];
  str_format := fun _ _ => Raised (mkExn ValueError []);
  unicode_isalnum := fun _ => false;
|}.

Definition offline : Ports := {|
  create := fun _ _ => Raised (mkExn (OtherException (u "APIConnectionError")) (u "Connection error."));
  now := fun _ => [];
|}.

Definition prompts : Prompts := {|
  SYSTEM_PROMPT_FUNCTION_CALLING := u "You are a helpful assistant.";
  SYSTEM_PROMPT_TEXT_PARSING := u "Tools:" ++ nl ++ u "{tools_description}";
|}.





(** A tool that echoes nothing. *)
Definition tool (n : str) : Tools.Tool :=
  Tools.mkTool n (u "a tool") (JObj []) (fun _ => Returned (u "ok")).

End Examples.

(* ================================================================== *)
(** ** Tool registry *)
(* ================================================================== *)

Module ToolsFacts.
Import Tools.


Lemma register_present (r : ToolRegistry) (t : Tool) :
  contains r (name t) = true ->
  register r t
  = Raised (mkExn ValueError (u "工具 '" ++ name t ++ u "' 已注册，请勿重复注册。")).
Proof. unfold register, contains. intros ->. reflexivity. Qed.

Lemma register_absent (r : ToolRegistry) (t : Tool) :
  contains r (name t) = false ->
  register r t = Returned (mkRegistry (_tools r ++ [(name t, t)])).
Proof.
  unfold register, contains. intros Hc. rewrite Hc.
  apply dict_mem_false in Hc. rewrite dict_set_absent by exact Hc. reflexivity.
Qed.

Lemma contains_after_register (r r' : ToolRegistry) (t : Tool) (n : str) :
  register r t = Returned r' ->
  contains r' n = PyStr.eqb (name t) n || contains r n.
Proof.
  unfold register, contains. destruct (dict_mem (_tools r) (name t)) eqn:E;
    [ discriminate | ].
  intros Hr. injection Hr as <-. cbn [_tools]. unfold dict_mem.
  destruct (PyStr.eqb (name t) n) eqn:En.
  - apply eqb_eq in En. subst n. rewrite dict_get_set_same. reflexivity.
  - apply eqb_neq in En. rewrite dict_get_set_other by exact En. reflexivity.
Qed.

(** C9. Registering a tool under a name the registry already holds
    raises [ValueError] at that call, in particular when the same name is
    registered a second time; registering two tools with distinct new names
    succeeds and the schema export then ends with the schemas of both. *)
Theorem register_duplicate_raises_distinct_exported
  (r : ToolRegistry) (t1 t2 : Tool) :
  (contains r (name t2) = true ->
   register r t2
   = Raised (mkExn ValueError (u "工具 '" ++ name t2 ++ u "' 已注册，请勿重复注册。")))
  /\ (forall r1, register r t1 = Returned r1 -> name t2 = name t1 ->
      register r1 t2
      = Raised (mkExn ValueError (u "工具 '" ++ name t2 ++ u "' 已注册，请勿重复注册。")))
  /\ (contains r (name t1) = false -> contains r (name t2) = false ->
      name t1 <> name t2 ->
      exists r1 r2,
        register r t1 = Returned r1
        /\ register r1 t2 = Returned r2
        /\ to_openai_tools r2
           = to_openai_tools r ++ [to_openai_tool t1; to_openai_tool t2]).
Proof.
  split; [ apply register_present | split ].
  - intros r1 Hr1 Hsame. apply register_present.
    erewrite contains_after_register by exact Hr1.
    rewrite Hsame, eqb_refl. reflexivity.
  - intros Hfree1 Hfree2 Hdiff.
    pose proof (register_absent r t1 Hfree1) as Hr1.
    assert (Hfree : contains (mkRegistry (_tools r ++ [(name t1, t1)])) (name t2) = false).
    { erewrite contains_after_register by exact Hr1. rewrite Hfree2.
      apply eqb_neq in Hdiff. rewrite Hdiff. reflexivity. }
    eexists. eexists. split; [ exact Hr1 | ].
    split; [ apply register_absent; exact Hfree | ].
    unfold to_openai_tools, dict_values. cbn [_tools].
    rewrite !map_app, <- app_assoc. reflexivity.
Qed.

Lemma register_duplicate_raises_distinct_exported_witness :
  let calc := Examples.tool (u "calculator") in
  let weather := Examples.tool (u "weather") in
  (exists r1,
     register empty calc = Returned r1
     /\ register r1 calc
        = Raised (mkExn ValueError (u "工具 '" ++ u "calculator" ++ u "' 已注册，请勿重复注册。")))
  /\ (exists r1 r2,
        register empty calc = Returned r1
        /\ register r1 weather = Returned r2
        /\ to_openai_tools r2 = [to_openai_tool calc; to_openai_tool weather]).
Proof.
  intros calc weather.
  destruct (register_duplicate_raises_distinct_exported empty calc calc)
    as (_ & Hdup & _).
  destruct (register_duplicate_raises_distinct_exported empty calc weather)
    as (_ & _ & Hboth).
  split.
  - eexists. split; [ reflexivity | ]. apply Hdup; reflexivity.
  - apply Hboth; [ reflexivity | reflexivity | ].
    vm_compute. discriminate.
Defined.

End ToolsFacts.

(* ================================================================== *)
(** ** The ReAct loop *)
(* ================================================================== *)

Module ReActFacts.
Import ReAct.



(** The execution of a requested tool invocation. *)
Definition execution (tc : ToolCall) : Event :=
  EvExecute (tc_name tc) (Tools.ArgStr (tc_arguments tc)).

(** The agent after [query] and [answer] are recorded in its history. *)
Definition remembered (a : ReActAgent) (query answer : str) : ReActAgent :=
  set_history a
    (History.add_assistant_message
       (History.add_user_message (history a) query) answer).

Section WithEnvironment.
Context `{Builtins} `{Ports} `{Prompts}.





Lemma chat_count_log_chat w req : chat_count (log w (EvChat req)) = S (chat_count w).
Proof.
  unfold chat_count, log. cbn [events]. rewrite filter_app, length_app.
  cbn. lia.
Qed.

Lemma chat_count_log_execute w n a :
  chat_count (log w (EvExecute n a)) = chat_count w.
Proof.
  unfold chat_count, log. cbn [events]. rewrite filter_app, length_app.
  cbn. lia.
Qed.

(** The tool loop executes the invocations in order and touches nothing
    but the trace. *)
Lemma run_tool_calls_trace (tcs : list ToolCall) : forall messages w a,
  exists messages',
    run_tool_calls tcs messages (w, a)
    = (Returned messages',
       (mkWorld (events w ++ map execution tcs) (store w), a)).
Proof.
  induction tcs as [ | tc tcs IH]; intros messages w a.
  - exists messages. cbn. rewrite app_nil_r. destruct w; reflexivity.
  - cbn [run_tool_calls]. unfold bind, tools_execute. cbn [fst snd].
    destruct (IH (messages ++
                    [mkChatMsg (u "tool")
                       (Some (Tools.execute (tools a) (tc_name tc)
                                (Tools.ArgStr (tc_arguments tc))))
                       None (Some (tc_id tc))])
                 (log w (EvExecute (tc_name tc) (Tools.ArgStr (tc_arguments tc)))) a)
      as [messages' Hrun].
    exists messages'. rewrite Hrun. unfold log. cbn [events store map].
    rewrite <- app_assoc. reflexivity.
Qed.












End WithEnvironment.

(** An agent with the calculator, allowed [n] steps. *)
Definition agent (mode : str) (n : Z) : ReActAgent :=
  init (Tools.mkRegistry [(u "calculator", Examples.tool (u "calculator"))])
       mode n false.



End ReActFacts.

(* ================================================================== *)
(** ** Reasoning about the state-and-exception monad *)
(* ================================================================== *)

Module MonadFacts.
Section Frames.
Context {S : Type} (R : S -> S -> Prop).
Hypothesis R_refl : forall s, R s s.
Hypothesis R_trans : forall s1 s2 s3, R s1 s2 -> R s2 s3 -> R s1 s3.

(** Whatever its outcome, [m] takes a state to an [R]-related state. *)
Definition keeps {A} (m : M S A) : Prop := forall s, R s (snd (m s)).

Lemma keeps_ret {A} (a : A) : keeps (ret a).
Proof using R_refl. intros s. apply R_refl. Qed.

Lemma keeps_raise {A} (e : Exn) : keeps (raise (A := A) e).
Proof using R_refl. intros s. apply R_refl. Qed.

Lemma keeps_lift {A} (o : Outcome A) : keeps (lift o).
Proof using R_refl. intros s. apply R_refl. Qed.

Lemma keeps_get : keeps get.
Proof using R_refl. intros s. apply R_refl. Qed.

Lemma keeps_modify (f : S -> S) : (forall s, R s (f s)) -> keeps (modify f).
Proof. intros Hf s. apply Hf. Qed.

Lemma keeps_bind {A B} (m : M S A) (k : A -> M S B) :
  keeps m -> (forall a, keeps (k a)) -> keeps (bind m k).
Proof using R_trans.
  intros Hm Hk s. unfold bind. specialize (Hm s).
  destruct (m s) as [[a | e] s1]; cbn [snd] in *.
  - eapply R_trans; [ exact Hm | apply Hk ].
  - exact Hm.
Qed.

Lemma keeps_try_except {A} (m : M S A) (h : Exn -> M S A) :
  keeps m -> (forall e, keeps (h e)) -> keeps (try_except m h).
Proof using R_trans.
  intros Hm Hh s. unfold try_except. specialize (Hm s).
  destruct (m s) as [[a | e] s1]; cbn [snd] in *.
  - exact Hm.
  - eapply R_trans; [ exact Hm | apply Hh ].
Qed.

End Frames.

Section Binds.
Context {S A B : Type}.

Lemma bind_returned (m : M S A) (k : A -> M S B) (s s' : S) (a : A) :
  m s = (Returned a, s') -> bind m k s = k a s'.
Proof. intros Hm. unfold bind. rewrite Hm. reflexivity. Qed.


End Binds.
End MonadFacts.
Import MonadFacts.

Module WorldFacts.

(** Nothing was added to the store and no dispatch was made. *)
Definition quiet (w w' : World) : Prop :=
  store w' = store w
  /\ filter is_dispatch (events w') = filter is_dispatch (events w).

Lemma quiet_refl w : quiet w w.
Proof. split; reflexivity. Qed.

Lemma quiet_trans w1 w2 w3 : quiet w1 w2 -> quiet w2 w3 -> quiet w1 w3.
Proof. intros [H1 H2] [H3 H4]. split; congruence. Qed.

Lemma quiet_log w e : is_dispatch e = false -> quiet w (log w e).
Proof.
  intros He. split; [ reflexivity | ].
  unfold log. cbn [events]. rewrite filter_app. cbn [filter]. rewrite He.
  apply app_nil_r.
Qed.

(** The store only received new messages. *)
Definition grown (w w' : World) : Prop :=
  exists new, store w' = store w ++ new.

Lemma grown_refl w : grown w w.
Proof. exists []. symmetry. apply app_nil_r. Qed.

Lemma grown_trans w1 w2 w3 : grown w1 w2 -> grown w2 w3 -> grown w1 w3.
Proof.
  intros [n1 H1] [n2 H2]. exists (n1 ++ n2).
  rewrite H2, H1, app_assoc. reflexivity.
Qed.

Lemma quiet_grown w w' : quiet w w' -> grown w w'.
Proof. intros [Hs _]. exists []. rewrite Hs. symmetry. apply app_nil_r. Qed.

End WorldFacts.
Import WorldFacts.

Module ReActFrame.
Import ReAct.
Section WithEnvironment.
Context `{Builtins} `{Ports} `{Prompts}.

Definition quiet_run (s s' : RunState) : Prop := quiet (fst s) (fst s').

Lemma quiet_run_refl s : quiet_run s s.
Proof. apply quiet_refl. Qed.

Lemma quiet_run_trans s1 s2 s3 : quiet_run s1 s2 -> quiet_run s2 s3 -> quiet_run s1 s3.
Proof. apply quiet_trans. Qed.

Lemma qbind {A B} (m : M RunState A) (k : A -> M RunState B) :
  keeps quiet_run m -> (forall a, keeps quiet_run (k a)) ->
  keeps quiet_run (bind m k).
Proof. apply keeps_bind. exact quiet_run_trans. Qed.

Lemma qret {A} (a : A) : keeps quiet_run (ret a).
Proof. apply keeps_ret. exact quiet_run_refl. Qed.

Lemma qget : keeps quiet_run get.
Proof. apply keeps_get. exact quiet_run_refl. Qed.

Lemma llm_chat_quiet messages tools : keeps quiet_run (llm_chat messages tools).
Proof.
  intros [w a]. unfold llm_chat, Llm.chat. cbn [fst snd].
  match goal with |- context [log w ?e] => apply (quiet_log w e) end.
  reflexivity.
Qed.

Lemma tools_execute_quiet n arguments : keeps quiet_run (tools_execute n arguments).
Proof. intros [w a]. apply quiet_log. reflexivity. Qed.

Lemma remember_quiet query answer : keeps quiet_run (remember query answer).
Proof. intros [w a]. apply quiet_refl. Qed.

Lemma first_choice_quiet response :
  keeps quiet_run (Llm.first_choice (S := RunState) response).
Proof.
  unfold Llm.first_choice. destruct (choices response).
  - apply keeps_raise. exact quiet_run_refl.
  - apply qret.
Qed.

Lemma run_tool_calls_quiet tcs : forall messages,
  keeps quiet_run (run_tool_calls tcs messages).
Proof.
  induction tcs as [ | tc tcs IH]; intros messages; cbn [run_tool_calls].
  - apply qret.
  - apply qbind; [ apply tools_execute_quiet | intros observation; apply IH ].
Qed.

Lemma answer_quiet query answer :
  keeps quiet_run (bind (remember query answer) (fun _ => ret answer)).
Proof. apply qbind; [ apply remember_quiet | intros _; apply qret ]. Qed.

Lemma function_calling_steps_quiet n : forall query openai_tools messages,
  keeps quiet_run (function_calling_steps n query openai_tools messages).
Proof.
  induction n as [ | n IH]; intros query openai_tools messages;
    cbn [function_calling_steps].
  - apply answer_quiet.
  - apply qbind; [ apply llm_chat_quiet | intros response ].
    apply qbind; [ apply first_choice_quiet | intros choice ].
    destruct (truthy_list (World.tool_calls (World.message choice))).
    + apply answer_quiet.
    + apply qbind; [ apply run_tool_calls_quiet | intros messages'; apply IH ].
Qed.

Lemma text_parsing_steps_quiet n : forall query messages,
  keeps quiet_run (text_parsing_steps n query messages).
Proof.
  induction n as [ | n IH]; intros query messages; cbn [text_parsing_steps].
  - apply answer_quiet.
  - apply qbind; [ apply llm_chat_quiet | intros response ].
    apply qbind; [ apply first_choice_quiet | intros choice ].
    destruct (Re.final_answer_match _); [ apply answer_quiet | ].
    destruct (Re.action_match _); [ | apply answer_quiet ].
    apply qbind; [ apply tools_execute_quiet | intros observation; apply IH ].
Qed.

(** A run of an agent adds no message to the store and dispatches nothing. *)
Lemma run_quiet query : keeps quiet_run (run query).
Proof.
  unfold run. apply qbind; [ apply qget | intros self ].
  destruct (PyStr.eqb _ _).
  - unfold _run_function_calling.
    apply qbind; [ apply qget | intros self' ].
    apply function_calling_steps_quiet.
  - destruct (PyStr.eqb _ _).
    + unfold _run_text_parsing.
      apply qbind; [ apply qget | intros self' ].
      apply qbind; [ apply keeps_lift; exact quiet_run_refl | intros p ].
      apply text_parsing_steps_quiet.
    + apply keeps_raise. exact quiet_run_refl.
Qed.

End WithEnvironment.
End ReActFrame.

(* ================================================================== *)
(** ** The coordinator's dispatch *)
(* ================================================================== *)

Module MultiFacts.
Import SharedState Multi.
Section WithEnvironment.
Context `{Builtins} `{Ports} `{Prompts}.

(** The text a dispatch makes of the outcome of the agent's run. *)
Definition outcome_text (agent_name : str) (o : Outcome str) : str :=
  match o with
  | Returned result => result
  | Raised e => failure agent_name e
  end.

Lemma call_hooks_spec (callbacks : list Callback) (args : HookArgs) :
  forall s,
    exists w',
      call_hooks callbacks args s = (Returned tt, (w', snd s))
      /\ quiet (fst s) w'.
Proof.
  induction callbacks as [ | callback callbacks IH]; intros [w b];
    cbn [call_hooks fst snd].
  - exists w. split; [ reflexivity | apply quiet_refl ].
  - unfold bind at 1, try_except, bind at 1, log_event, modify, lift, ret.
    cbn [fst snd].
    destruct (IH (log w (EvHook args), b)) as (w' & Hrest & Hquiet).
    cbn [fst snd] in *.
    exists w'. split.
    + destruct (callback args) as [[] | e]; exact Hrest.
    + eapply quiet_trans; [ apply (quiet_log w (EvHook args)); reflexivity | exact Hquiet ].
Qed.

Lemma fire_hook_spec (args : HookArgs) (s : Sys) :
  exists w',
    _fire_hook args s = (Returned tt, (w', snd s)) /\ quiet (fst s) w'.
Proof.
  unfold _fire_hook, bind, get. apply call_hooks_spec.
Qed.

Lemma agent_run_spec (agent_name : str) (agent : ReAct.ReActAgent)
  (task : str) (s : Sys) :
  exists w' b',
    agent_run agent_name agent task s
    = (fst (ReAct.run task (fst s, agent)), (w', b'))
    /\ quiet (fst s) w'.
Proof.
  unfold agent_run.
  pose proof (ReActFrame.run_quiet task (fst s, agent)) as Hquiet.
  destruct (ReAct.run task (fst s, agent)) as [o [w' agent']].
  cbn [fst snd] in *. eexists. eexists. split; [ reflexivity | exact Hquiet ].
Qed.

(** A dispatch returns: it makes one dispatch event, only adds to the
    store, answers an unknown name with the list of the known ones and
    turns an exception of the agent's run into a result. *)
Lemma dispatch_spec (agent_name task : str) (s : Sys) :
  exists result s',
    _dispatch agent_name task s = (Returned result, s')
    /\ grown (fst s) (fst s')
    /\ filter is_dispatch (events (fst s'))
       = filter is_dispatch (events (fst s)) ++ [EvDispatch agent_name task]
    /\ (dict_get (_agents (snd s)) agent_name = None ->
        result = unknown_agent (snd s) agent_name
        /\ snd s' = snd s /\ store (fst s') = store (fst s))
    /\ (forall agent,
          dict_get (_agents (snd s)) agent_name = Some agent ->
          exists w1,
            result
            = outcome_text agent_name
                (fst (ReAct.run (full_task agent task) (w1, agent)))).
Proof.
  destruct s as [w b].
  unfold _dispatch. unfold bind at 1, log_event, modify. cbn [fst snd].
  unfold bind at 1, get. cbn [snd].
  assert (Hlogged : filter is_dispatch (events (log w (EvDispatch agent_name task)))
                    = filter is_dispatch (events w) ++ [EvDispatch agent_name task]).
  { unfold log. cbn [events]. rewrite filter_app. reflexivity. }
  destruct (dict_get (_agents b) agent_name) as [agent | ] eqn:Hagent.
  - (* a registered agent *)
    unfold bind at 1.
    destruct (fire_hook_spec (on_agent_start agent_name task)
                (log w (EvDispatch agent_name task), b)) as (w1 & -> & Hq1).
    cbn [fst snd] in *.
    unfold bind at 1, post_message, modify, State.new_message. cbn [fst snd].
    set (w2 := mkWorld (events w1) _).
    set (b2 := set_state b _).
    unfold bind at 1, try_except.
    destruct (agent_run_spec agent_name agent (full_task agent task) (w2, b2))
      as (w3 & b3 & Hrun & Hq3).
    cbn [fst snd] in *. rewrite Hrun.
    assert (Hmid : grown w w3
                   /\ filter is_dispatch (events w3)
                      = filter is_dispatch (events w) ++ [EvDispatch agent_name task]).
    { destruct Hq1 as [Hs1 He1]. destruct Hq3 as [Hs3 He3].
      subst w2. cbn [store events] in *. split.
      - eexists. rewrite Hs3, Hs1. reflexivity.
      - rewrite He3, He1. exact Hlogged. }
    destruct Hmid as [Hgrown Hevents].
    assert (Hfinish : forall (result : str) (w4 : World) (b4 : BaseMultiAgent),
      quiet w3 w4 ->
      exists s',
        bind (agent_reset agent_name)
          (fun _ => bind (state_add_result agent_name result)
             (fun _ => bind (_fire_hook (on_agent_finish agent_name result))
                (fun _ => ret result))) (w4, b4)
        = (Returned result, s')
        /\ grown w (fst s')
        /\ filter is_dispatch (events (fst s'))
           = filter is_dispatch (events w) ++ [EvDispatch agent_name task]).
    { intros result w4 b4 [Hs4 He4].
      unfold bind at 1, agent_reset, modify. cbn [fst snd].
      set (s5 := match dict_get (_agents b4) agent_name with
                 | Some _ => _ | None => _ end).
      assert (Hw5 : fst s5 = w4)
        by (subst s5; destruct (dict_get (_agents b4) agent_name); reflexivity).
      unfold bind at 1, state_add_result, modify, State.add_result, State.new_message.
      cbn [fst snd].
      unfold bind at 1.
      match goal with
      | |- context [_fire_hook ?args ?st] =>
        destruct (fire_hook_spec args st) as (w6 & -> & [Hs6 He6])
      end.
      cbn [fst snd store events] in *. rewrite Hw5 in *.
      eexists. split; [ reflexivity | ]. cbn [fst]. split.
      - destruct Hgrown as [new Hnew]. eexists.
        rewrite Hs6, Hs4, Hnew, <- app_assoc. reflexivity.
      - rewrite He6, He4. exact Hevents. }
    destruct (fst (ReAct.run (full_task agent task) (w2, agent)))
      as [result | e] eqn:Houtcome.
    + destruct (Hfinish result w3 b3 (quiet_refl w3)) as (s' & Hrest & Hg & He).
      exists result, s'. split; [ exact Hrest | ].
      split; [ exact Hg | ]. split; [ exact He | ].
      split; [ discriminate | ].
      intros agent' [= <-]. exists w2. rewrite Houtcome. reflexivity.
    + unfold bind at 1.
      destruct (fire_hook_spec (on_error agent_name e) (w3, b3)) as (w4 & -> & Hq4).
      cbn [fst snd ret] in *.
      destruct (Hfinish (failure agent_name e) w4 b3 Hq4) as (s' & Hrest & Hg & He).
      exists (failure agent_name e), s'. split; [ exact Hrest | ].
      split; [ exact Hg | ]. split; [ exact He | ].
      split; [ discriminate | ].
      intros agent' [= <-]. exists w2. rewrite Houtcome. reflexivity.
  - (* an unknown name *)
    eexists. eexists. split; [ reflexivity | ]. cbn [fst snd].
    split; [ exists []; cbn [log store]; symmetry; apply app_nil_r | ].
    split; [ exact Hlogged | ].
    split; [ intros _; repeat split | discriminate ].
Qed.


End WithEnvironment.
End MultiFacts.
Import MultiFacts.

Module MultiExamples.

(** A coordinator with one researcher, whose model service is down. *)
Definition research_team : Multi.BaseMultiAgent :=
  snd (@Multi.add_agent
         (Multi.mkAgentRole (u "researcher") (u "collects material")
            (u "You are a researcher.") []) None None
         (Multi.init Tools.empty false)).


End MultiExamples.


(* ================================================================== *)
(** ** The pipeline strategy *)
(* ================================================================== *)

Module PipelineFacts.
Import SharedState Multi Pipeline.
Section WithEnvironment.
Context `{Builtins} `{Ports} `{Prompts}.







End WithEnvironment.


(** A coordinator without agents. *)
Definition nobody : Sys := (World.start, Multi.init Tools.empty false).




End PipelineFacts.

(* ================================================================== *)
(** ** The orchestrator strategy *)
(* ================================================================== *)

Module OrchestratorFacts.
Import SharedState Multi Orchestrator.
Section WithEnvironment.
Context `{Builtins} `{Ports} `{Prompts}.















Lemma cannot_help_has_no_plan : _parse_plan (u "I cannot help.") = [].
Proof. reflexivity. Qed.

End WithEnvironment.


End OrchestratorFacts.

(* ================================================================== *)
(** ** The debate strategy *)
(* ================================================================== *)

Module DebateFacts.
Import SharedState Multi Debate.
Section WithEnvironment.
Context `{Builtins} `{Ports} `{Prompts}.



(** One opinion as it is quoted to the others. *)
Definition quoted (round_num : Z) (debater opinion : str) : str :=
  u "[第" ++ of_Z round_num ++ u "轮 - " ++ debater ++ u "]:" ++ nl
    ++ opinion ++ nl.










End WithEnvironment.



End DebateFacts.

(* ================================================================== *)
(** ** Message objects *)
(* ================================================================== *)

Module MessageFacts.
Import SharedState Multi.

(** Every message object of [w] is still there in [w'], with the same
    fields. *)
Definition untouched (w w' : World) : Prop :=
  forall r m, nth_error (store w) r = Some m -> nth_error (store w') r = Some m.

Lemma grown_untouched w w' : grown w w' -> untouched w w'.
Proof.
  intros [new Hnew] r m Hr. rewrite Hnew.
  rewrite nth_error_app1; [ exact Hr | ].
  apply nth_error_Some. congruence.
Qed.

Lemma nth_error_set_nth_same {A} (n : nat) (x : A) (l : list A) :
  n < length l -> nth_error (set_nth n x l) n = Some x.
Proof.
  revert n; induction l as [ | y l IH]; intros [ | n] Hn; cbn in *;
    try lia; [ reflexivity | apply IH; lia ].
Qed.

Lemma nth_error_set_nth_other {A} (n r : nat) (x : A) (l : list A) :
  n <> r -> nth_error (set_nth n x l) r = nth_error l r.
Proof.
  revert n r; induction l as [ | y l IH]; intros [ | n] [ | r] Hnr; cbn;
    try reflexivity; try congruence.
  apply IH. congruence.
Qed.

Section WithEnvironment.
Context `{Builtins} `{Ports} `{Prompts}.

(** The relation a coordinator method keeps when it only adds to the
    store. *)
Definition adds (s s' : Sys) : Prop := grown (fst s) (fst s').

Lemma adds_refl s : adds s s.
Proof. apply grown_refl. Qed.

Lemma adds_trans s1 s2 s3 : adds s1 s2 -> adds s2 s3 -> adds s1 s3.
Proof. apply grown_trans. Qed.

Lemma abind {A B} (m : M Sys A) (k : A -> M Sys B) :
  keeps adds m -> (forall a, keeps adds (k a)) -> keeps adds (bind m k).
Proof. apply keeps_bind. exact adds_trans. Qed.

Lemma aret {A} (a : A) : keeps adds (ret a).
Proof. apply keeps_ret. exact adds_refl. Qed.

Lemma araise {A} (e : Exn) : keeps adds (raise (A := A) e).
Proof. apply keeps_raise. exact adds_refl. Qed.

Lemma alift {A} (o : Outcome A) : keeps adds (lift o).
Proof. apply keeps_lift. exact adds_refl. Qed.

Lemma aget : keeps adds get.
Proof. apply keeps_get. exact adds_refl. Qed.

Lemma update_state_adds f : keeps adds (update_state f).
Proof. intros s. apply grown_refl. Qed.

Lemma post_message_adds sender receiver content msg_type metadata :
  keeps adds (post_message sender receiver content msg_type metadata).
Proof. intros s. eexists. reflexivity. Qed.

Lemma fire_hook_adds args : keeps adds (_fire_hook args).
Proof.
  intros s. destruct (fire_hook_spec args s) as (w' & -> & Hq).
  apply quiet_grown. exact Hq.
Qed.

Lemma dispatch_adds agent_name task : keeps adds (_dispatch agent_name task).
Proof.
  intros s.
  destruct (dispatch_spec agent_name task s) as (r & s' & -> & Hg & _).
  exact Hg.
Qed.

Lemma chat_simple_adds prompt system :
  keeps adds (Orchestrator.llm_chat_simple prompt system).
Proof.
  intros [w b]. unfold Orchestrator.llm_chat_simple, Llm.chat_simple.
  cbn [fst snd]. unfold bind at 1, Llm.chat.
  assert (Hlog : forall e, grown w (log w e))
    by (intros e; exists []; symmetry; apply app_nil_r).
  match goal with
  | |- context [create ?n ?req] => destruct (create n req) as [response | e]
  end.
  - unfold bind, Llm.first_choice.
    destruct (choices response); apply Hlog.
  - apply Hlog.
Qed.

(** The pipeline. *)
Lemma attempts_adds n : forall step task last_error,
  keeps adds (Pipeline.attempts n step task last_error).
Proof.
  induction n as [ | n IH]; intros step task last_error; cbn [Pipeline.attempts].
  - apply aret.
  - apply abind; [ apply dispatch_adds | intros result ].
    destruct (negb _); [ apply aret | apply IH ].
Qed.

Lemma run_steps_adds steps : forall i task prev_result final_result,
  keeps adds (Pipeline.run_steps steps i task prev_result final_result).
Proof.
  induction steps as [ | step steps IH]; intros i task prev_result final_result;
    cbn [Pipeline.run_steps].
  - apply aret.
  - apply abind; [ apply update_state_adds | intros _ ].
    apply abind; [ apply aget | intros self ].
    apply abind; [ apply alift | intros rendered ].
    apply abind; [ apply attempts_adds | intros result ].
    apply abind.
    { destruct (Message.transform step); [ apply alift | apply aret ]. }
    intros result'.
    apply abind; [ apply aget | intros self' ].
    apply abind; [ apply fire_hook_adds | intros _ ].
    apply IH.
Qed.

Lemma pipeline_run_adds steps task : keeps adds (Pipeline.run_with steps task).
Proof.
  unfold Pipeline.run_with. destruct steps as [ | step steps]; [ apply aret | ].
  repeat (apply abind; [ apply update_state_adds | intros _ ]).
  apply abind; [ apply run_steps_adds | intros final_result ].
  apply abind; [ apply update_state_adds | intros _ ].
  apply aret.
Qed.

(** The orchestrator. *)
Lemma execute_plan_adds plan : forall i,
  keeps adds (Orchestrator.execute_plan plan i).
Proof.
  induction plan as [ | step plan IH]; intros i; cbn [Orchestrator.execute_plan].
  - apply aret.
  - apply abind; [ apply update_state_adds | intros _ ].
    apply abind; [ apply aget | intros self ].
    apply abind.
    { destruct (results (state (snd self))); [ apply aret | apply alift ]. }
    intros sub_task.
    apply abind; [ apply alift | intros known ].
    destruct known as [agent_name | ]; [ | apply IH ].
    destruct sub_task; try apply araise.
    apply abind; [ apply dispatch_adds | intros _ ].
    apply abind; [ apply aget | intros self' ].
    apply abind; [ apply fire_hook_adds | intros _ ].
    apply IH.
Qed.

Lemma orchestrator_run_adds task : keeps adds (Orchestrator.run_with task).
Proof.
  unfold Orchestrator.run_with.
  repeat (apply abind; [ apply update_state_adds | intros _ ]).
  apply abind.
  { unfold Orchestrator._plan.
    apply abind; [ apply aget | intros self ].
    apply abind; [ apply alift | intros prompt ].
    apply abind; [ apply chat_simple_adds | intros response ].
    apply aret. }
  intros plan. destruct plan as [ | step plan]; [ apply aret | ].
  repeat (apply abind; [ apply update_state_adds | intros _ ]).
  apply abind; [ apply execute_plan_adds | intros _ ].
  apply abind; [ apply update_state_adds | intros _ ].
  apply abind.
  { unfold Orchestrator._summarize.
    apply abind; [ apply aget | intros self ].
    apply abind; [ apply alift | intros prompt ].
    apply chat_simple_adds. }
  intros final.
  apply abind; [ apply update_state_adds | intros _ ].
  apply aret.
Qed.

(** The debate. *)
Lemma debate_round_adds debaters : forall task round_num all_rounds round_opinions,
  keeps adds (Debate.debate_round debaters task round_num all_rounds round_opinions).
Proof.
  induction debaters as [ | debater debaters IH];
    intros task round_num all_rounds round_opinions; cbn [Debate.debate_round].
  - apply aret.
  - apply abind; [ apply dispatch_adds | intros result ].
    apply abind; [ apply post_message_adds | intros _ ].
    apply IH.
Qed.

Lemma debate_rounds_adds n : forall debaters task round_num all_rounds,
  keeps adds (Debate.debate_rounds n debaters task round_num all_rounds).
Proof.
  induction n as [ | n IH]; intros debaters task round_num all_rounds;
    cbn [Debate.debate_rounds].
  - apply aret.
  - apply abind; [ apply update_state_adds | intros _ ].
    apply abind; [ apply debate_round_adds | intros round_opinions ].
    apply abind; [ apply aget | intros self ].
    apply abind; [ apply fire_hook_adds | intros _ ].
    apply IH.
Qed.

Lemma debate_run_adds d task : keeps adds (Debate.run_with d task).
Proof.
  unfold Debate.run_with.
  destruct (Debate._debater_names d) as [ | debater debaters]; [ apply aret | ].
  destruct (Debate._judge_role d) as [judge_role | ]; [ | apply aret ].
  repeat (apply abind; [ apply update_state_adds | intros _ ]).
  apply abind; [ apply debate_rounds_adds | intros all_rounds ].
  apply abind; [ apply update_state_adds | intros _ ].
  apply abind.
  { unfold Debate._judge.
    apply abind; [ apply alift | intros prompt ]. apply dispatch_adds. }
  intros final.
  apply abind; [ apply update_state_adds | intros _ ].
  apply aret.
Qed.

(** Broadcasting a message object overwrites its receiver and nothing
    else. *)
Lemma broadcast_spec (message : ref) (s : Sys) (r : nat) (m : Message.Message) :
  nth_error (store (fst s)) r = Some m ->
  nth_error (store (fst (snd (_broadcast message s)))) r
  = Some (if Nat.eqb r message
          then Message.mkMessage (Message.sender m) (u "all") (Message.content m)
                 (Message.msg_type m) (Message.metadata m) (Message.timestamp m)
          else m).
Proof.
  intros Hr. unfold _broadcast, modify. cbn [fst snd].
  destruct (Nat.eqb_spec r message) as [-> | Hne].
  - rewrite Hr. cbn [store].
    apply nth_error_set_nth_same. apply nth_error_Some. congruence.
  - destruct (nth_error (store (fst s)) message) as [msg | ]; [ | exact Hr ].
    cbn [store]. rewrite nth_error_set_nth_other by congruence. exact Hr.
Qed.

(** C8 (as amended). A message object, once constructed, keeps all its
    fields through a run of an agent, a dispatch, a run of any of the three
    strategies and the recording of a result: these only add new messages.
    The one operation that changes a message is [_broadcast], which
    overwrites the receiver of the message it is given with ["all"] and
    leaves its other fields, and every other message, as they were. *)
Theorem messages_untouched_but_for_broadcast :
  (forall query s,
     untouched (fst s) (fst (snd (ReAct.run query s))))
  /\ (forall agent_name task s,
        untouched (fst s) (fst (snd (_dispatch agent_name task s))))
  /\ (forall steps task s,
        untouched (fst s) (fst (snd (Pipeline.run_with steps task s))))
  /\ (forall task s,
        untouched (fst s) (fst (snd (Orchestrator.run_with task s))))
  /\ (forall d task s,
        untouched (fst s) (fst (snd (Debate.run_with d task s))))
  /\ (forall w st agent_name result,
        untouched w (fst (State.add_result w st agent_name result)))
  /\ (forall message s r m,
        nth_error (store (fst s)) r = Some m ->
        exists m',
          nth_error (store (fst (snd (_broadcast message s)))) r = Some m'
          /\ Message.sender m' = Message.sender m
          /\ Message.content m' = Message.content m
          /\ Message.msg_type m' = Message.msg_type m
          /\ Message.metadata m' = Message.metadata m
          /\ Message.timestamp m' = Message.timestamp m
          /\ Message.receiver m'
             = if Nat.eqb r message then u "all" else Message.receiver m).
Proof.
  repeat split.
  - intros query s. apply grown_untouched, quiet_grown.
    apply (ReActFrame.run_quiet query s).
  - intros agent_name task s. apply grown_untouched, dispatch_adds.
  - intros steps task s. apply grown_untouched, pipeline_run_adds.
  - intros task s. apply grown_untouched, orchestrator_run_adds.
  - intros d task s. apply grown_untouched, debate_run_adds.
  - intros w st agent_name result. apply grown_untouched.
    eexists. reflexivity.
  - intros message s r m Hr. rewrite (@broadcast_spec message s r m Hr).
    eexists. split; [ reflexivity | ].
    destruct (Nat.eqb r message); repeat split.
Qed.

End WithEnvironment.

(** A logged message from [a] to [b]. *)
Definition hello : Message.Message :=
  Message.mkMessage (u "a") (u "b") (u "hello") Message.TASK [] (u "12:00").

Definition logged : Sys :=
  (mkWorld [] [hello],
   set_state (Multi.init Tools.empty false)
     (State.add_message SharedState.new 0)).

Lemma messages_untouched_but_for_broadcast_witness :
  exists m',
    nth_error (store (fst (snd (_broadcast 0 logged)))) 0 = Some m'
    /\ Message.sender m' = u "a"
    /\ Message.content m' = u "hello"
    /\ Message.timestamp m' = u "12:00".
Proof.
  destruct (@messages_untouched_but_for_broadcast Examples.builtins
              Examples.offline Examples.prompts)
    as (_ & _ & _ & _ & _ & _ & Hbroadcast).
  destruct (Hbroadcast 0 logged 0 hello eq_refl)
    as (m' & Hm' & Hsender & Hcontent & _ & _ & Htime & _).
  exists m'. repeat split; assumption.
Defined.

(** C8 as stated fails: broadcasting a message that is already in the
    log changes the receiver the log shows for it. *)
Lemma broadcast_overwrites_receiver :
  option_map Message.receiver (nth_error (store (fst logged)) 0) = Some (u "b")
  /\ option_map Message.receiver
       (nth_error (store (fst (snd (_broadcast 0 logged)))) 0)
     = Some (u "all")
  /\ messages (state (snd (snd (_broadcast 0 logged)))) = [0; 0]
  /\ u "all" <> u "b".
Proof.
  vm_compute. repeat split. intro Heq. discriminate Heq.
Qed.

End MessageFacts.

(* ================================================================== *)
(** * Further embedding *)
(* ================================================================== *)

(* ================================================================== *)
(** ** src/multi/roles.py: the predefined roles *)
(* ================================================================== *)

Module Roles.
Import Multi.

Definition ROLES : dict AgentRole :=
  [(u "researcher",
    mkAgentRole (u "researcher")
      (u "信息收集专家，负责搜索和整理相关资料")
      (u "你是一个专业的研究员。你的职责是：" ++ nl
        ++ u "1. 使用搜索工具收集与任务相关的信息" ++ nl
        ++ u "2. 整理和归纳搜索到的内容" ++ nl
        ++ u "3. 提取关键事实和数据" ++ nl
        ++ u "4. 以清晰的结构化格式输出研究结果" ++ nl
        ++ nl
        ++ u "要求：只输出经过验证的信息，不要编造数据。")
      [u "search"; u "weather"]);
   (u "analyst",
    mkAgentRole (u "analyst")
      (u "数据分析专家，负责分析数据和提炼观点")
      (u "你是一个专业的数据分析师。你的职责是：" ++ nl
        ++ u "1. 分析提供给你的数据和信息" ++ nl
        ++ u "2. 使用计算工具进行必要的数值计算" ++ nl
        ++ u "3. 提炼关键观点和洞察" ++ nl
        ++ u "4. 给出数据支撑的结论" ++ nl
        ++ nl
        ++ u "要求：分析要有逻辑，结论要有数据支撑。")
      [u "calculator"]);
   (u "writer",
    mkAgentRole (u "writer")
      (u "写作专家，负责撰写结构化的报告和文章")
      (u "你是一个专业的技术写作者。你的职责是：" ++ nl
        ++ u "1. 根据提供的研究资料和分析结果撰写报告" ++ nl
        ++ u "2. 使用清晰的结构（标题、段落、列表）" ++ nl
        ++ u "3. 确保内容准确、逻辑通顺" ++ nl
        ++ u "4. 语言简洁专业" ++ nl
        ++ nl
        ++ u "要求：基于提供的素材写作，不要添加未经验证的信息。")
      []);
   (u "reviewer",
    mkAgentRole (u "reviewer")
      (u "评审专家，负责审核和改进其他 Agent 的输出")
      (u "你是一个严谨的评审专家。你的职责是：" ++ nl
        ++ u "1. 审查提供给你的内容是否准确、完整" ++ nl
        ++ u "2. 指出逻辑漏洞、事实错误或遗漏" ++ nl
        ++ u "3. 给出具体的改进建议" ++ nl
        ++ u "4. 评估整体质量并给出评分（1-10）" ++ nl
        ++ nl
        ++ u "要求：评审要客观公正，建议要具体可操作。")
      []);
   (u "python_expert",
    mkAgentRole (u "python_expert")
      (u "Python 技术专家")
      (u "你是一个资深 Python 开发者。你的职责是：" ++ nl
        ++ u "1. 回答 Python 相关的技术问题" ++ nl
        ++ u "2. 分析 Python 技术的优势和适用场景" ++ nl
        ++ u "3. 提供最佳实践和代码建议" ++ nl
        ++ nl
        ++ u "要求：观点要有技术深度，论述要专业。")
      [u "search"]);
   (u "go_expert",
    mkAgentRole (u "go_expert")
      (u "Go 技术专家")
      (u "你是一个资深 Go 开发者。你的职责是：" ++ nl
        ++ u "1. 回答 Go 相关的技术问题" ++ nl
        ++ u "2. 分析 Go 技术的优势和适用场景" ++ nl
        ++ u "3. 提供最佳实践和代码建议" ++ nl
        ++ nl
        ++ u "要求：观点要有技术深度，论述要专业。")
      [u "search"])].

Section WithBuiltins.
Context `{Builtins}.

(** [get_role(name)]; the text of a [KeyError] is the [repr] of its
    argument. *)
Definition get_role (n : str) : Outcome AgentRole :=
  if negb (dict_mem ROLES n) then
    let available := dict_keys ROLES in
    Raised (mkExn KeyError
      (repr_str (u "角色 '" ++ n ++ u "' 不存在。可用角色：" ++ repr_list available)))
  else
    match dict_get ROLES n with
    | Some role => Returned role
    | None => Raised (mkExn KeyError (repr_str n))
    end.

End WithBuiltins.
End Roles.

(* ================================================================== *)
(** * Further properties *)
(* ================================================================== *)

(* ================================================================== *)
(** ** Conversation history: the window over any sequence of calls *)
(* ================================================================== *)

Module HistoryWindow.
Import History.

Lemma truncate_zero (h : ConversationHistory) :
  max_turns h = 0%Z -> _messages (_truncate h) = _messages h.
Proof.
  intros Hzero. unfold _truncate. rewrite Hzero.
  change (0 * 2)%Z with 0%Z. change (- 0)%Z with 0%Z.
  destruct (Z.of_nat (length (_messages h)) >? 0)%Z; [ | reflexivity ].
  cbn [_messages]. unfold slice_from.
  change (0 <? 0)%Z with false. cbv iota.
  rewrite Z.min_l by lia. reflexivity.
Qed.

Lemma truncate_negative (h : ConversationHistory) (m : ChatMsg) :
  (max_turns h < 0)%Z -> _messages h = [m] -> _messages (_truncate h) = [].
Proof.
  intros Hneg Hone. unfold _truncate. rewrite Hone. cbn [length].
  destruct (Z.gtb_spec (Z.of_nat 1) (max_turns h * 2)); [ | lia ].
  cbn [_messages]. unfold slice_from. cbn [length].
  destruct (Z.ltb_spec (- (max_turns h * 2)) 0); [ lia | ].
  rewrite Z.min_r by lia. reflexivity.
Qed.

Lemma call_zero (h : ConversationHistory) (c : Call) :
  max_turns h = 0%Z -> _messages (call h c) = _messages h ++ [message_of c].
Proof.
  intros Hzero.
  destruct c; cbn [call message_of];
    unfold add_user_message, add_assistant_message;
    rewrite truncate_zero; reflexivity || exact Hzero.
Qed.

Lemma call_negative (h : ConversationHistory) (c : Call) :
  (max_turns h < 0)%Z -> _messages h = [] -> _messages (call h c) = [].
Proof.
  intros Hneg Hempty.
  destruct c; cbn [call];
    unfold add_user_message, add_assistant_message;
    eapply truncate_negative;
    solve [ exact Hneg | unfold append; cbn [_messages]; rewrite Hempty; reflexivity ].
Qed.

(** X1. Whatever the order of the calls of [add_user_message] and
    [add_assistant_message], a history of capacity [max_turns >= 1] holds
    the [2 * max_turns] most recent messages, oldest first, so its length
    is the smaller of the number of calls and [2 * max_turns]; the
    capacity itself never changes. *)
Theorem history_keeps_most_recent (capacity : Z) (cs : list Call) :
  (1 <= capacity)%Z ->
  let h := calls (init capacity) cs in
  get_messages h = last_n (Z.to_nat (2 * capacity)) (map message_of cs)
  /\ len h = Z.min (Z.of_nat (length cs)) (2 * capacity)
  /\ (len h <= 2 * capacity)%Z
  /\ max_turns h = capacity.
Proof.
  intros Hpos h.
  assert (Hmsgs : _messages h
                  = last_n (Z.to_nat (2 * capacity)) (map message_of cs))
    by (apply HistoryFacts.calls_messages; exact Hpos).
  assert (Hlen : len h = Z.min (Z.of_nat (length cs)) (2 * capacity)).
  { unfold len. rewrite Hmsgs, HistoryFacts.last_n_length, length_map. lia. }
  repeat split.
  - exact Hmsgs.
  - exact Hlen.
  - rewrite Hlen. lia.
  - unfold h. rewrite HistoryFacts.calls_max_turns. reflexivity.
Qed.

Definition interleaved : list Call :=
  [AddUser (u "q0"); AddUser (u "q1"); AddAssistant (u "a1"); AddUser (u "q2")].

Lemma history_keeps_most_recent_witness :
  let h := calls (init 1) interleaved in
  get_messages h = last_n (Z.to_nat (2 * 1)) (map message_of interleaved)
  /\ len h = Z.min (Z.of_nat (length interleaved)) (2 * 1)
  /\ (len h <= 2 * 1)%Z
  /\ max_turns h = 1%Z.
Proof. apply (@history_keeps_most_recent 1 interleaved). lia. Defined.

(** X2. A capacity that is not positive does not bound the history in the
    documented way: with [max_turns = 0] the slice [-0:] is the whole
    list, so nothing is ever dropped; with a negative [max_turns] every
    added message is dropped at once and the history stays empty. *)
Theorem degenerate_capacity (capacity : Z) (cs : list Call) :
  (capacity <= 0)%Z ->
  get_messages (calls (init capacity) cs)
  = if (capacity =? 0)%Z then map message_of cs else [].
Proof.
  intros Hle. unfold get_messages.
  destruct (capacity =? 0)%Z eqn:Hzero.
  - apply Z.eqb_eq in Hzero. subst capacity.
    induction cs as [ | c cs IH] using rev_ind.
    + reflexivity.
    + unfold calls in *. rewrite fold_left_app. cbn [fold_left].
      rewrite call_zero.
      * rewrite IH, map_app. reflexivity.
      * fold (calls (init 0) cs). rewrite HistoryFacts.calls_max_turns.
        reflexivity.
  - apply Z.eqb_neq in Hzero.
    induction cs as [ | c cs IH] using rev_ind.
    + reflexivity.
    + unfold calls in *. rewrite fold_left_app. cbn [fold_left].
      apply call_negative.
      * fold (calls (init capacity) cs). rewrite HistoryFacts.calls_max_turns.
        cbn [init max_turns]. lia.
      * exact IH.
Qed.

Lemma degenerate_capacity_witness :
  get_messages (calls (init 0) interleaved)
  = (if (0 =? 0)%Z then map message_of interleaved else [])
  /\ get_messages (calls (init (-1)) interleaved)
     = (if (-1 =? 0)%Z then map message_of interleaved else []).
Proof.
  split.
  - apply (@degenerate_capacity 0 interleaved). lia.
  - apply (@degenerate_capacity (-1) interleaved). lia.
Defined.

End HistoryWindow.

(* ================================================================== *)
(** ** Conversation history: what the returned copy shares *)
(* ================================================================== *)

Module HistoryAliasing.
Import HistoryObj.

(** An item assignment [d[key] = value] on the message dict [d]: the dict
    object is changed in place and holds [m] afterwards. *)
Definition dict_assign (hp : Heap) (d : ref) (m : ChatMsg) : Heap :=
  mkHeap (lists hp) (set_nth d m (dicts hp)).

Lemma get_messages_items (h : ConversationHistory) (hp : Heap) :
  wf h hp ->
  list_at (snd (get_messages h hp)) (fst (get_messages h hp))
  = list_at hp (_messages h)
  /\ list_at (snd (get_messages h hp)) (_messages h) = list_at hp (_messages h).
Proof.
  intros [Hlist _].
  unfold get_messages, new_list, list_at. cbn [fst snd lists].
  split.
  - rewrite app_nth2, Nat.sub_diag by lia. reflexivity.
  - apply app_nth1. exact Hlist.
Qed.

Lemma nth_error_deref (hp : Heap) (r : ref) (i : nat) (d : ref) :
  nth_error (list_at hp r) i = Some d ->
  nth_error (deref hp r) i = Some (nth d (dicts hp) (role_content [] [])).
Proof.
  intros Hitem. unfold deref.
  exact (map_nth_error (fun d0 => nth d0 (dicts hp) (role_content [] [])) i
           (list_at hp r) Hitem).
Qed.

(** X3. The copy [get_messages] returns is shallow. The list is fresh,
    but its items are the message dicts of the history themselves: an
    item assignment on the dict at position [i] of the returned list
    shows at position [i] of the stored history, of the returned list
    and of a copy taken afterwards. *)
Theorem returned_messages_are_shared
  (h : ConversationHistory) (hp : Heap) (i : nat) (d : ref) (m : ChatMsg) :
  wf h hp ->
  let r := fst (get_messages h hp) in
  let hp1 := snd (get_messages h hp) in
  nth_error (list_at hp1 r) i = Some d ->
  let hp2 := dict_assign hp1 d m in
  nth_error (stored h hp2) i = Some m
  /\ nth_error (deref hp2 r) i = Some m
  /\ nth_error (deref (snd (get_messages h hp2)) (fst (get_messages h hp2))) i
     = Some m
  /\ length (stored h hp2) = length (stored h hp).
Proof.
  intros Hwf r hp1 Hitem hp2.
  destruct (get_messages_items Hwf) as [Hcopy Hkept].
  fold r hp1 in Hcopy, Hkept.
  assert (Hd : d < length (dicts hp)).
  { destruct Hwf as [_ Hitems]. rewrite Forall_forall in Hitems.
    apply Hitems. rewrite <- Hcopy. eapply nth_error_In. exact Hitem. }
  assert (Hnew : nth d (dicts hp2) (role_content [] []) = m).
  { unfold hp2, dict_assign. cbn [dicts].
    apply nth_set_nth_same. exact Hd. }
  assert (Hlists : forall x, list_at hp2 x = list_at hp1 x) by reflexivity.
  assert (Hstored : nth_error (stored h hp2) i = Some m).
  { unfold stored. rewrite <- Hnew. apply nth_error_deref.
    rewrite Hlists, Hkept, <- Hcopy. exact Hitem. }
  repeat split.
  - exact Hstored.
  - rewrite <- Hnew. apply nth_error_deref. rewrite Hlists. exact Hitem.
  - assert (Hwf2 : wf h hp2).
    { destruct Hwf as [Hlist Hitems]. split.
      - unfold hp2, dict_assign, hp1, get_messages, new_list.
        cbn [snd lists]. rewrite length_app. lia.
      - unfold hp2, dict_assign, list_at. cbn [lists dicts].
        rewrite set_nth_length.
        change (Forall (fun d0 => d0 < length (dicts hp))
                       (list_at hp1 (_messages h))).
        rewrite Hkept. exact Hitems. }
    unfold deref. rewrite (proj1 (get_messages_items Hwf2)).
    exact Hstored.
  - unfold stored, deref. rewrite !length_map, Hlists, Hkept. reflexivity.
Qed.

Definition one_turn : ConversationHistory * Heap :=
  let '(h, hp) := init (mkHeap [] []) 3 in
  let '(h1, hp1) := add_user_message h hp (u "q") in
  add_assistant_message h1 hp1 (u "a").

Lemma returned_messages_are_shared_witness :
  let h := fst one_turn in
  let hp := snd one_turn in
  let r := fst (get_messages h hp) in
  let hp2 := dict_assign (snd (get_messages h hp)) 1
               (role_content (u "assistant") (u "edited")) in
  wf h hp
  /\ nth_error (list_at (snd (get_messages h hp)) r) 1 = Some 1
  /\ nth_error (stored h hp2) 1 = Some (role_content (u "assistant") (u "edited"))
  /\ stored h hp = [role_content (u "user") (u "q");
                    role_content (u "assistant") (u "a")].
Proof.
  assert (Hwf : wf (fst one_turn) (snd one_turn)).
  { split; [ vm_compute; lia | ].
    vm_compute. repeat constructor. }
  assert (Hitem : nth_error
                    (list_at (snd (get_messages (fst one_turn) (snd one_turn)))
                       (fst (get_messages (fst one_turn) (snd one_turn)))) 1
                  = Some 1) by reflexivity.
  split; [ exact Hwf | ].
  split; [ exact Hitem | ].
  split; [ | reflexivity ].
  exact (proj1 (@returned_messages_are_shared (fst one_turn) (snd one_turn) 1 1
                  (role_content (u "assistant") (u "edited")) Hwf Hitem)).
Defined.

End HistoryAliasing.

(* ================================================================== *)
(** ** Tool registry: look-up, registration of many tools, failures *)
(* ================================================================== *)

Module RegistryFacts.
Import Tools.

(** [for tool in ts: registry.register(tool)] *)
Fixpoint register_all (r : ToolRegistry) (ts : list Tool) : Outcome ToolRegistry :=
  match ts with
  | [] => Returned r
  | tool :: rest =>
    match register r tool with
    | Returned r' => register_all r' rest
    | Raised e => Raised e
    end
  end.

(** The entry [register] stores for a tool. *)
Definition keyed (t : Tool) : str * Tool := (name t, t).

(** Every tool is stored under its own name. *)
Definition well_keyed (r : ToolRegistry) : Prop :=
  forall n t, get r n = Some t -> name t = n.

Lemma dict_get_none {V} (d : dict V) (k : str) :
  dict_get d k = None <-> ~ In k (dict_keys d).
Proof.
  induction d as [ | [k' v] d IH]; cbn [dict_get dict_keys map fst In].
  - tauto.
  - destruct (PyStr.eqb k' k) eqn:Heq.
    + apply eqb_eq in Heq. split; [ discriminate | tauto ].
    + apply eqb_neq in Heq. unfold dict_keys in IH. tauto.
Qed.

Lemma keyed_names (ts : list Tool) : dict_keys (map keyed ts) = map name ts.
Proof. unfold dict_keys. rewrite map_map. reflexivity. Qed.

Lemma keyed_values (ts : list Tool) : dict_values (map keyed ts) = ts.
Proof. unfold dict_values. rewrite map_map. apply map_id. Qed.

Lemma keyed_get (ts : list Tool) (n : str) (t : Tool) :
  dict_get (map keyed ts) n = Some t -> name t = n /\ In t ts.
Proof.
  induction ts as [ | t0 ts IH]; cbn [map dict_get keyed fst snd].
  - discriminate.
  - destruct (PyStr.eqb (name t0) n) eqn:Heq.
    + intros Hsome. injection Hsome as <-. apply eqb_eq in Heq.
      split; [ exact Heq | left; reflexivity ].
    + intros Hsome. destruct (IH Hsome) as [Hname Hin].
      split; [ exact Hname | right; exact Hin ].
Qed.

Lemma NoDup_snoc {A} (l : list A) (x : A) :
  NoDup l -> ~ In x l -> NoDup (l ++ [x]).
Proof.
  induction l as [ | a l IH]; intros Hl Hx; cbn [app].
  - constructor; [ exact Hx | constructor ].
  - inversion Hl as [ | a' l' Ha Hrest]; subst.
    constructor.
    + intros Hin. apply in_app_or in Hin. destruct Hin as [Hin | [Heq | []]].
      * exact (Ha Hin).
      * apply Hx. left. symmetry. exact Heq.
    + apply IH; [ exact Hrest | ]. intros Hin. apply Hx. right. exact Hin.
Qed.

(** What registering the tools [ts] one after the other does to a
    registry that holds the tools [ts0]. *)
Lemma register_all_spec (ts : list Tool) : forall ts0 : list Tool,
  NoDup (map name ts0) ->
  match register_all (mkRegistry (map keyed ts0)) ts with
  | Returned r => NoDup (map name (ts0 ++ ts)) /\ _tools r = map keyed (ts0 ++ ts)
  | Raised e => ~ NoDup (map name (ts0 ++ ts)) /\ exn_class e = ValueError
  end.
Proof.
  induction ts as [ | t ts IH]; intros ts0 Hdistinct; cbn [register_all].
  - rewrite app_nil_r. split; [ exact Hdistinct | reflexivity ].
  - unfold register. cbn [_tools].
    destruct (dict_mem (map keyed ts0) (name t)) eqn:Hmem.
    + split; [ | reflexivity ].
      apply dict_mem_true in Hmem. destruct Hmem as [t' Hget].
      intros Hnodup. rewrite map_app in Hnodup. cbn [map] in Hnodup.
      apply NoDup_remove_2 in Hnodup. apply Hnodup.
      apply in_or_app. left.
      assert (Hin : In (name t) (dict_keys (map keyed ts0))).
      { destruct (in_dec (list_eq_dec N.eq_dec) (name t)
                    (dict_keys (map keyed ts0))) as [Hin | Hout].
        - exact Hin.
        - apply dict_get_none in Hout. congruence. }
      rewrite keyed_names in Hin. exact Hin.
    + apply dict_mem_false in Hmem.
      rewrite dict_set_absent by exact Hmem.
      change (map keyed ts0 ++ [(name t, t)]) with (map keyed ts0 ++ map keyed [t]).
      rewrite <- map_app.
      assert (Hnext : NoDup (map name (ts0 ++ [t]))).
      { rewrite map_app. cbn [map]. apply NoDup_snoc.
        - exact Hdistinct.
        - apply dict_get_none in Hmem. rewrite keyed_names in Hmem. exact Hmem. }
      specialize (IH (ts0 ++ [t]) Hnext).
      rewrite <- app_assoc in IH. exact IH.
Qed.

(** X4. Registration and look-up round trip: after a successful
    [register(tool)] the tool is found under its name, every other name
    gives what it gave before, and the tool comes last in [tool_names]
    and in the exported schema list; the registry is one longer. *)
Theorem register_get_round_trip (r r' : ToolRegistry) (t : Tool) :
  register r t = Returned r' ->
  get r' (name t) = Some t
  /\ (forall n, n <> name t -> get r' n = get r n)
  /\ tool_names r' = tool_names r ++ [name t]
  /\ to_openai_tools r' = to_openai_tools r ++ [to_openai_tool t]
  /\ len r' = (len r + 1)%Z.
Proof.
  unfold register. destruct (dict_mem (_tools r) (name t)) eqn:Hmem.
  - discriminate.
  - intros Hreg. injection Hreg as <-. apply dict_mem_false in Hmem.
    unfold get, tool_names, to_openai_tools, len, dict_keys, dict_values.
    cbn [_tools].
    split; [ apply dict_get_set_same | ].
    split.
    { intros n Hother. apply dict_get_set_other. congruence. }
    rewrite dict_set_absent by exact Hmem.
    rewrite !map_app, length_app.
    cbn [map fst snd length].
    repeat split. lia.
Qed.

Lemma register_get_round_trip_witness :
  let calc := Examples.tool (u "calculator") in
  let r' := mkRegistry [(u "calculator", calc)] in
  get r' (name calc) = Some calc
  /\ (forall n, n <> name calc -> get r' n = get empty n)
  /\ tool_names r' = tool_names empty ++ [name calc]
  /\ to_openai_tools r' = to_openai_tools empty ++ [to_openai_tool calc]
  /\ len r' = (len empty + 1)%Z.
Proof.
  exact (@register_get_round_trip empty
           (mkRegistry [(u "calculator", Examples.tool (u "calculator"))])
           (Examples.tool (u "calculator")) eq_refl).
Defined.

(** X5. Registering a list of tools into a new registry succeeds exactly
    when their names are pairwise distinct. The registry then holds each
    tool under its own name, in the order of registration; otherwise the
    loop stops with [ValueError]. *)
Theorem registering_needs_distinct_names (ts : list Tool) :
  match register_all empty ts with
  | Returned r =>
    NoDup (map name ts)
    /\ tool_names r = map name ts
    /\ to_openai_tools r = map to_openai_tool ts
    /\ well_keyed r
  | Raised e => ~ NoDup (map name ts) /\ exn_class e = ValueError
  end.
Proof.
  pose proof (@register_all_spec ts [] (NoDup_nil _)) as Hspec.
  change (mkRegistry (map keyed [])) with empty in Hspec.
  cbn [app] in Hspec.
  destruct (register_all empty ts) as [r | e]; [ | exact Hspec ].
  destruct Hspec as [Hdistinct Htools].
  split; [ exact Hdistinct | ].
  unfold tool_names, to_openai_tools, well_keyed, get.
  rewrite Htools, keyed_names, keyed_values.
  repeat split.
  intros n t Hget. apply (keyed_get _ _ Hget).
Qed.

Section WithBuiltins.
Context `{Builtins}.



End WithBuiltins.
End RegistryFacts.

(* ================================================================== *)
(** ** The searches for the markers of the text protocol *)
(* ================================================================== *)

Module ReFacts.

(** The marker of a final answer in a reply of the text protocol. *)
Definition final_marker : str := u "Final Answer:".

Lemma search_leftmost {A} (at_pos : str -> option A) (s : str) (r : A) :
  Re.search at_pos s = Some r ->
  exists pre suffix,
    s = pre ++ suffix
    /\ at_pos suffix = Some r
    /\ forall pre1 suffix1,
         s = pre1 ++ suffix1 -> length pre1 < length pre -> at_pos suffix1 = None.
Proof.
  induction s as [ | c s IH]; cbn [Re.search].
  - destruct (at_pos []) as [r0 | ] eqn:Hhere; [ | discriminate ].
    intros Hfound. exists [], []. split; [ reflexivity | ].
    split; [ congruence | ]. intros pre1 suffix1 _ Hlt. inversion Hlt.
  - destruct (at_pos (c :: s)) as [r0 | ] eqn:Hhere.
    + intros Hfound. exists [], (c :: s). split; [ reflexivity | ].
      split; [ congruence | ]. intros pre1 suffix1 _ Hlt. inversion Hlt.
    + intros Hfound. destruct (IH Hfound) as (pre & suffix & -> & Hat & Hfirst).
      exists (c :: pre), suffix. split; [ reflexivity | ].
      split; [ exact Hat | ].
      intros pre1 suffix1 Hsplit Hlt.
      destruct pre1 as [ | c1 pre1]; cbn [app length] in *.
      * subst suffix1. exact Hhere.
      * injection Hsplit as _ Hrest. apply (Hfirst pre1 suffix1 Hrest). lia.
Qed.

Lemma search_app {A} (at_pos : str -> option A) (pre s : str) :
  at_pos s <> None -> Re.search at_pos (pre ++ s) <> None.
Proof.
  intros Hhere. induction pre as [ | c pre IH]; cbn [app].
  - destruct s; cbn [Re.search]; destruct (at_pos _); congruence.
  - cbn [Re.search]. destruct (at_pos (c :: pre ++ s)); [ discriminate | exact IH ].
Qed.

Lemma give_back_inv {A} (k : str -> option A) (s : str) (r : A) (n : nat) :
  Re.give_back k s n = Some r -> exists j, j <= n /\ k (skipn j s) = Some r.
Proof.
  induction n as [ | n IH]; cbn [Re.give_back].
  - destruct (k (skipn 0 s)) as [r0 | ] eqn:Hk; [ | discriminate ].
    intros Hfound. exists 0. split; [ lia | congruence ].
  - destruct (k (skipn (S n) s)) as [r0 | ] eqn:Hk.
    + intros Hfound. exists (S n). split; [ lia | congruence ].
    + intros Hfound. destruct (IH Hfound) as (j & Hj & Hkj).
      exists j. split; [ lia | exact Hkj ].
Qed.

Lemma give_back_all {A} (k : str -> option A) (s : str) (n : nat) :
  k s <> None -> Re.give_back k s n <> None.
Proof.
  intros Hk. induction n as [ | n IH]; cbn [Re.give_back].
  - cbn [skipn]. destruct (k s); congruence.
  - destruct (k (skipn (S n) s)); [ discriminate | exact IH ].
Qed.

Lemma literal_inv {A} (p : str) (k : str -> option A) (s : str) (r : A) :
  Re.literal p k s = Some r -> exists rest, s = p ++ rest /\ k rest = Some r.
Proof.
  unfold Re.literal. destruct (startswith s p) eqn:Hstart; [ | discriminate ].
  apply startswith_prefix in Hstart. destruct Hstart as [rest ->].
  rewrite skipn_app, Nat.sub_diag, skipn_all. cbn [app skipn].
  intros Hk. exists rest. split; [ reflexivity | exact Hk ].
Qed.

Lemma literal_here {A} (p : str) (k : str -> option A) (rest : str) :
  Re.literal p k (p ++ rest) = k rest.
Proof.
  unfold Re.literal. rewrite startswith_app.
  rewrite skipn_app, Nat.sub_diag, skipn_all. reflexivity.
Qed.

Lemma lstrip_skipn (s : str) : forall j,
  j <= Re.space_run s -> lstrip (skipn j s) = lstrip s.
Proof.
  induction s as [ | c s IH]; intros j Hj.
  - destruct j; reflexivity.
  - destruct j as [ | j]; [ reflexivity | ].
    cbn [Re.space_run] in Hj. cbn [skipn lstrip].
    destruct (is_space c); [ apply IH; lia | lia ].
Qed.

(** X7. What [_run_text_parsing] takes for the final answer. The search
    for [Final Answer:\s*(.+)] succeeds exactly when some occurrence of
    the marker is followed by at least one character; a reply that ends
    with the marker has no final answer. The answer, once stripped, is
    the stripped text after the first such occurrence, up to the end of
    the reply. *)
Theorem final_answer_is_the_text_after_the_marker (text : str) :
  (forall group1,
     Re.final_answer_match text = Some group1 ->
     exists pre rest,
       text = pre ++ final_marker ++ rest
       /\ rest <> []
       /\ group1 <> []
       /\ strip group1 = strip rest
       /\ forall pre1 rest1,
            text = pre1 ++ final_marker ++ rest1 -> rest1 <> [] ->
            length pre <= length pre1)
  /\ (forall pre rest,
        text = pre ++ final_marker ++ rest -> rest <> [] ->
        Re.final_answer_match text <> None)
  /\ (forall pre, ~ In 58%N pre ->
        Re.final_answer_match (pre ++ final_marker) = None).
Proof.
  unfold Re.final_answer_match. fold final_marker.
  split; [ | split ].
  - intros group1 Hfound.
    apply search_leftmost in Hfound.
    destruct Hfound as (pre & suffix & -> & Hat & Hfirst).
    apply literal_inv in Hat. destruct Hat as (rest & -> & Hspaces).
    unfold Re.spaces in Hspaces. apply give_back_inv in Hspaces.
    destruct Hspaces as (j & Hj & Hgroup).
    unfold Re.rest_plus in Hgroup.
    destruct (skipn j rest) as [ | c tail] eqn:Hskip; [ discriminate | ].
    injection Hgroup as <-.
    exists pre, rest. split; [ reflexivity | ].
    split; [ intros ->; destruct j; discriminate | ].
    split; [ discriminate | ].
    split.
    { unfold strip. rewrite <- Hskip, lstrip_skipn by exact Hj. reflexivity. }
    intros pre1 rest1 Hsplit Hrest1.
    destruct (Nat.le_gt_cases (length pre) (length pre1)) as [Hle | Hlt];
      [ exact Hle | exfalso ].
    specialize (Hfirst pre1 (final_marker ++ rest1) Hsplit Hlt).
    rewrite literal_here in Hfirst.
    apply (@give_back_all _ Re.rest_plus rest1 (Re.space_run rest1));
      [ | exact Hfirst ].
    destruct rest1; [ congruence | discriminate ].
  - intros pre rest -> Hrest. apply search_app.
    rewrite literal_here. apply give_back_all.
    destruct rest; [ congruence | discriminate ].
  - intros pre Hcolon.
    destruct (Re.search (Re.literal final_marker (Re.spaces Re.rest_plus))
                (pre ++ final_marker)) as [group1 | ] eqn:Hfound;
      [ exfalso | reflexivity ].
    apply search_leftmost in Hfound.
    destruct Hfound as (pre1 & suffix & Hsplit & Hat & _).
    apply literal_inv in Hat. destruct Hat as (rest & -> & Hspaces).
    unfold Re.spaces in Hspaces. apply give_back_inv in Hspaces.
    destruct Hspaces as (j & _ & Hgroup).
    assert (Hrest : rest <> []).
    { intros ->. destruct j; discriminate. }
    (* the marker ends with its only colon, and [pre] holds none *)
    unfold str, char in *.
    assert (Hlen : length pre1 + length rest = length pre).
    { apply (f_equal (@length _)) in Hsplit. rewrite !length_app in Hsplit. lia. }
    assert (Hshort : 1 <= length rest).
    { destruct rest; [ congruence | cbn [length]; lia ]. }
    assert (Hnth : nth_error (pre ++ final_marker) (length pre1 + 12) = Some 58%N).
    { rewrite Hsplit, nth_error_app2 by lia.
      replace (length pre1 + 12 - length pre1) with 12 by lia.
      reflexivity. }
    destruct (Nat.lt_ge_cases (length pre1 + 12) (length pre)) as [Hlt | Hge].
    + rewrite nth_error_app1 in Hnth by exact Hlt.
      apply Hcolon. eapply nth_error_In. exact Hnth.
    + rewrite nth_error_app2 in Hnth by exact Hge.
      remember (length pre1 + 12 - length pre) as k eqn:Hk.
      assert (Hk12 : k < 12) by lia.
      do 12 (destruct k as [ | k]; [ discriminate Hnth | ]). lia.
Qed.

Lemma final_answer_is_the_text_after_the_marker_witness :
  Re.final_answer_match (u "Thought: done" ++ nl ++ u "Final Answer: 42" ++ nl)
  <> None
  /\ Re.final_answer_match (u "I am done. " ++ final_marker) = None.
Proof.
  split.
  - apply (proj1 (proj2 (final_answer_is_the_text_after_the_marker
                           (u "Thought: done" ++ nl ++ u "Final Answer: 42" ++ nl)))
             (u "Thought: done" ++ nl) (u " 42" ++ nl)).
    + reflexivity.
    + discriminate.
  - apply (proj2 (proj2 (final_answer_is_the_text_after_the_marker
                           (u "I am done. " ++ final_marker)))
             (u "I am done. ")).
    vm_compute. intros Hin.
    repeat (destruct Hin as [Hin | Hin]; [ discriminate Hin | ]). exact Hin.
Defined.

End ReFacts.

(* ================================================================== *)
(** ** The agent's run: modes, model calls, the recorded turn *)
(* ================================================================== *)

Module ReActRuns.
Import ReAct ReActFacts.

(** The agent after a run of [query] with the outcome [o]: a returned
    answer is recorded with the query as a turn, a raised exception
    leaves the agent as it was. *)
Definition recorded (query : str) (a : ReActAgent) (o : Outcome str) : ReActAgent :=
  match o with
  | Returned answer => remembered a query answer
  | Raised _ => a
  end.

(** What a run may do to the world: make model calls, at most [n] of
    them, and run tools. *)
Definition within (n : nat) (w w' : World) : Prop :=
  store w' = store w
  /\ chat_count w <= chat_count w' <= chat_count w + n.

Lemma chat_count_executions (w : World) (tcs : list ToolCall) :
  chat_count (mkWorld (events w ++ map execution tcs) (store w)) = chat_count w.
Proof.
  unfold chat_count. cbn [events]. rewrite filter_app, length_app.
  replace (filter is_chat (map execution tcs)) with (@nil Event).
  - cbn [length]. lia.
  - induction tcs as [ | tc tcs IH]; [ reflexivity | exact IH ].
Qed.

(** The run ends here. *)
Ltac ends :=
  unfold bind, remember, modify, ret, raise; cbn [fst snd];
  match goal with
  | |- exists o w', (?o0, (?w0, _)) = _ /\ _ =>
    exists o0, w0; split; [ reflexivity | ]
  end.

Section WithEnvironment.
Context `{Builtins} `{Ports} `{Prompts}.

Lemma function_calling_steps_effect (n : nat) :
  forall query openai_tools messages w a,
    exists o w',
      function_calling_steps n query openai_tools messages (w, a)
      = (o, (w', recorded query a o))
      /\ within n w w'.
Proof.
  induction n as [ | n IH]; intros query openai_tools messages w a;
    cbn [function_calling_steps].
  - ends. split; [ reflexivity | lia ].
  - unfold bind at 1. unfold llm_chat, Llm.chat. cbn [fst snd].
    match goal with
    | |- context [log w (EvChat ?req)] => set (request := req)
    end.
    assert (Hone : within (S n) w (log w (EvChat request))).
    { split; [ reflexivity | rewrite chat_count_log_chat; lia ]. }
    destruct (create (chat_count w) request) as [response | e].
    2: { ends. exact Hone. }
    unfold bind at 1, Llm.first_choice.
    destruct (choices response) as [ | choice rest].
    { ends. exact Hone. }
    cbn [ret].
    destruct (truthy_list (World.tool_calls (World.message choice)))
      as [ | tc tcs] eqn:Hcalls.
    { ends. exact Hone. }
    unfold bind at 1.
    match goal with
    | |- context [run_tool_calls (tc :: tcs) ?msgs ?s] =>
      destruct (run_tool_calls_trace (tc :: tcs) msgs (fst s) (snd s))
        as [messages' Htools];
      cbn [fst snd] in Htools; rewrite Htools
    end.
    match goal with
    | |- context [function_calling_steps n query openai_tools messages' (?w1, a)] =>
      destruct (IH query openai_tools messages' w1 a)
        as (o & w' & Hrun & Hstore & Hcount);
      rewrite (chat_count_executions (log w (EvChat request)) (tc :: tcs)) in Hcount
    end.
    exists o, w'. split; [ exact Hrun | ].
    split; [ exact Hstore | ].
    rewrite chat_count_log_chat in Hcount. lia.
Qed.

Lemma text_parsing_steps_effect (n : nat) :
  forall query messages w a,
    exists o w',
      text_parsing_steps n query messages (w, a) = (o, (w', recorded query a o))
      /\ within n w w'.
Proof.
  induction n as [ | n IH]; intros query messages w a; cbn [text_parsing_steps].
  - ends. split; [ reflexivity | lia ].
  - unfold bind at 1. unfold llm_chat, Llm.chat. cbn [fst snd].
    match goal with
    | |- context [log w (EvChat ?req)] => set (request := req)
    end.
    assert (Hone : within (S n) w (log w (EvChat request))).
    { split; [ reflexivity | rewrite chat_count_log_chat; lia ]. }
    destruct (create (chat_count w) request) as [response | e].
    2: { ends. exact Hone. }
    unfold bind at 1, Llm.first_choice.
    destruct (choices response) as [ | choice rest].
    { ends. exact Hone. }
    cbn [ret].
    destruct (Re.final_answer_match _) as [group1 | ].
    { ends. exact Hone. }
    destruct (Re.action_match _) as [action_name | ].
    2: { ends. exact Hone. }
    unfold bind at 1, tools_execute. cbn [fst snd].
    match goal with
    | |- context [text_parsing_steps n query ?msgs (?w1, a)] =>
      destruct (IH query msgs w1 a) as (o & w' & Hrun & Hstore & Hcount)
    end.
    rewrite chat_count_log_execute, chat_count_log_chat in Hcount.
    exists o, w'. split; [ exact Hrun | ].
    split; [ exact Hstore | lia ].
Qed.

(** The effect of a run on the agent and on the world. *)
Lemma run_effect (query : str) (w : World) (a : ReActAgent) :
  exists o w',
    run query (w, a) = (o, (w', recorded query a o))
    /\ within (Z.to_nat (max_steps a)) w w'.
Proof.
  unfold run. unfold bind at 1, get. cbn [snd].
  destruct (PyStr.eqb (mode a) (u "function_calling")).
  - unfold _run_function_calling. unfold bind at 1, get. cbn [snd].
    apply function_calling_steps_effect.
  - destruct (PyStr.eqb (mode a) (u "text_parsing")).
    + unfold _run_text_parsing. unfold bind at 1, get. cbn [snd].
      unfold bind at 1, lift.
      destruct (Format.format _ _) as [system_prompt | e].
      * apply text_parsing_steps_effect.
      * ends. split; [ reflexivity | lia ].
    + ends. split; [ reflexivity | lia ].
Qed.

(** X8. A mode other than the two protocols is refused before anything
    is done: [run] raises [ValueError] naming the mode, makes no model
    call and leaves the agent, its history included, as it was. *)
Theorem unsupported_mode_raises (query : str) (w : World) (a : ReActAgent) :
  mode a <> u "function_calling" ->
  mode a <> u "text_parsing" ->
  run query (w, a)
  = (Raised (mkExn ValueError
       (u "不支持的模式: " ++ mode a
          ++ u "，请使用 'function_calling' 或 'text_parsing'")),
     (w, a)).
Proof.
  intros Hfc Htp. unfold run. unfold bind at 1, get. cbn [snd].
  apply eqb_neq in Hfc. apply eqb_neq in Htp. rewrite Hfc, Htp. reflexivity.
Qed.

(** X9. The step ceiling bounds the model calls of every run, whatever
    the model replies and whether the run returns or raises: a run makes
    at most [max_steps] calls of the model (none when [max_steps] is not
    positive), and it adds no message to the store. *)
Theorem run_respects_step_ceiling (query : str) (w : World) (a : ReActAgent) :
  let w' := fst (snd (run query (w, a))) in
  (Z.of_nat (chat_count w) <= Z.of_nat (chat_count w'))%Z
  /\ (Z.of_nat (chat_count w') - Z.of_nat (chat_count w)
      <= Z.max 0 (max_steps a))%Z
  /\ store w' = store w.
Proof.
  destruct (run_effect query w a) as (o & w' & Hrun & Hstore & Hcount).
  rewrite Hrun. cbn [fst snd]. repeat split; [ lia | lia | exact Hstore ].
Qed.

(** X10. A run changes the agent's history and nothing else of the
    agent. When it returns an answer, the query and that answer have been
    added as one user and one assistant message; when it raises, the
    history is what it was before the run. *)
Theorem run_records_its_turn (query : str) (w : World) (a : ReActAgent) :
  let a' := snd (snd (run query (w, a))) in
  match fst (run query (w, a)) with
  | Returned answer =>
    history a'
    = History.add_assistant_message
        (History.add_user_message (history a) query) answer
  | Raised _ => history a' = history a
  end
  /\ tools a' = tools a
  /\ mode a' = mode a
  /\ max_steps a' = max_steps a
  /\ _role_system_prompt a' = _role_system_prompt a
  /\ _role_name a' = _role_name a.
Proof.
  destruct (run_effect query w a) as (o & w' & Hrun & _).
  rewrite Hrun. cbn [fst snd].
  destruct o; repeat split.
Qed.


End WithEnvironment.

Lemma unsupported_mode_raises_witness :
  @run Examples.builtins Examples.offline Examples.prompts (u "hello")
    (World.start, agent (u "chat") 10)
  = (Raised (mkExn ValueError
       (u "不支持的模式: " ++ mode (agent (u "chat") 10)
          ++ u "，请使用 'function_calling' 或 'text_parsing'")),
     (World.start, agent (u "chat") 10)).
Proof.
  apply (@unsupported_mode_raises Examples.builtins Examples.offline
           Examples.prompts (u "hello") World.start (agent (u "chat") 10)).
  - vm_compute. discriminate.
  - vm_compute. discriminate.
Defined.



End ReActRuns.

(* ================================================================== *)
(** ** The coordinator: hooks, the agents of a role, the books of a
       dispatch *)
(* ================================================================== *)

Module CoordinatorFacts.
Import SharedState Multi.

(** The callbacks registered for an event, in the order of their
    registration. *)
Definition callbacks_for (b : BaseMultiAgent) (event : str) : list Callback :=
  match dict_get (_hooks b) event with
  | Some callbacks => callbacks
  | None => []
  end.

(** The tools of the global registry that a role names, in the order
    the role names them. *)
Definition found (global : Tools.ToolRegistry) (names : list str) : list Tools.Tool :=
  flat_map (fun n => match Tools.get global n with
                     | Some tool => [tool]
                     | None => []
                     end) names.

Lemma role_registry_registers_found (global : Tools.ToolRegistry) (names : list str) :
  forall role_tools,
    role_registry global names role_tools
    = RegistryFacts.register_all role_tools (found global names).
Proof.
  induction names as [ | n names IH]; intros role_tools;
    cbn [role_registry found flat_map].
  - reflexivity.
  - fold (found global names).
    destruct (Tools.get global n) as [tool | ]; cbn [app RegistryFacts.register_all].
    + destruct (Tools.register role_tools tool) as [r | e]; [ apply IH | reflexivity ].
    + apply IH.
Qed.

Lemma found_names (global : Tools.ToolRegistry) (names : list str) :
  RegistryFacts.well_keyed global ->
  map Tools.name (found global names) = filter (Tools.contains global) names.
Proof.
  intros Hkeyed. induction names as [ | n names IH]; cbn [found flat_map filter].
  - reflexivity.
  - fold (found global names). unfold Tools.contains, dict_mem.
    fold (Tools.get global n).
    destruct (Tools.get global n) as [tool | ] eqn:Hget; cbn [app map].
    + rewrite (Hkeyed n tool Hget). f_equal. exact IH.
    + exact IH.
Qed.

Lemma keyed_well_keyed (ts : list Tools.Tool) :
  RegistryFacts.well_keyed (Tools.mkRegistry (map RegistryFacts.keyed ts)).
Proof.
  intros n t Hget. apply (RegistryFacts.keyed_get _ _ Hget).
Qed.

(** X12. [add_agent] gives the new agent a registry of its own that holds
    the tools the role names and the global registry has, in the role's
    order; a name the global registry does not know is passed over. The
    agent starts with an empty history, carries the role's prompt and
    name, and replaces any agent registered under the same name; the
    other agents are kept. When the role names such a tool twice, the
    second registration raises [ValueError] and the coordinator is left
    as it was. *)
Theorem add_agent_gives_the_role_its_tools
  (role : AgentRole) (mode : option str) (max_steps : option Z)
  (b : BaseMultiAgent) :
  RegistryFacts.well_keyed (global_tools b) ->
  let names := filter (Tools.contains (global_tools b)) (tools role) in
  match add_agent role mode max_steps b with
  | (Returned _, b') =>
    NoDup names
    /\ (exists agent,
          get_agent b' (name role) = Some agent
          /\ Tools.tool_names (ReAct.tools agent) = names
          /\ Tools.to_openai_tools (ReAct.tools agent)
             = map Tools.to_openai_tool (found (global_tools b) (tools role))
          /\ History.get_messages (ReAct.history agent) = []
          /\ ReAct._role_system_prompt agent = Some (system_prompt role)
          /\ ReAct._role_name agent = Some (name role)
          /\ ReAct.mode agent
             = match mode with Some m => m | None => u "function_calling" end
          /\ ReAct.max_steps agent
             = match max_steps with Some n => n | None => 10%Z end)
    /\ (forall n, n <> name role -> get_agent b' n = get_agent b n)
    /\ global_tools b' = global_tools b
    /\ state b' = state b
    /\ _hooks b' = _hooks b
  | (Raised e, b') =>
    ~ NoDup names /\ exn_class e = ValueError /\ b' = b
  end.
Proof.
  intros Hkeyed names.
  unfold add_agent. unfold bind at 1, get.
  unfold bind at 1, lift.
  rewrite role_registry_registers_found.
  pose proof (@RegistryFacts.register_all_spec
                (found (global_tools b) (tools role)) [] (NoDup_nil _)) as Hspec.
  change (Tools.mkRegistry (map RegistryFacts.keyed [])) with Tools.empty in Hspec.
  cbn [app] in Hspec.
  rewrite (found_names _ Hkeyed) in Hspec. fold names in Hspec.
  destruct (RegistryFacts.register_all Tools.empty
              (found (global_tools b) (tools role))) as [r | e].
  - destruct Hspec as [Hdistinct Htools].
    unfold modify, get_agent, set_agents. cbn [_agents global_tools state _hooks].
    split; [ exact Hdistinct | ].
    split.
    + eexists. split; [ apply dict_get_set_same | ].
      cbn [ReAct.init ReAct.tools ReAct.mode ReAct.max_steps ReAct.history
           ReAct._role_system_prompt ReAct._role_name].
      unfold Tools.tool_names, Tools.to_openai_tools.
      rewrite Htools, RegistryFacts.keyed_names, RegistryFacts.keyed_values.
      rewrite (found_names _ Hkeyed).
      repeat split.
    + split; [ | repeat split ].
      intros n Hother. apply dict_get_set_other. congruence.
  - destruct Hspec as [Hdup Hclass].
    split; [ exact Hdup | split; [ exact Hclass | reflexivity ] ].
Qed.



Section WithEnvironment.
Context `{Builtins} `{Ports} `{Prompts}.

Lemma call_hooks_trace (callbacks : list Callback) (args : HookArgs) :
  forall (w : World) (b : BaseMultiAgent),
    call_hooks callbacks args (w, b)
    = (Returned tt,
       (mkWorld (events w ++ repeat (EvHook args) (length callbacks)) (store w), b)).
Proof.
  induction callbacks as [ | callback callbacks IH]; intros w b;
    cbn [call_hooks length repeat].
  - unfold ret. rewrite app_nil_r. destruct w; reflexivity.
  - unfold bind at 1, try_except, bind at 1, log_event, modify, lift, ret.
    cbn [fst snd].
    assert (Hrest : call_hooks callbacks args (log w (EvHook args), b)
                    = (Returned tt,
                       (mkWorld
                          (events w ++ EvHook args
                             :: repeat (EvHook args) (length callbacks))
                          (store w), b))).
    { rewrite IH. unfold log. cbn [events store]. rewrite <- app_assoc.
      reflexivity. }
    destruct (callback args) as [[] | e]; exact Hrest.
Qed.

Lemma fire_hook_trace (args : HookArgs) (w : World) (b : BaseMultiAgent) :
  _fire_hook args (w, b)
  = (Returned tt,
     (mkWorld
        (events w
           ++ repeat (EvHook args) (length (callbacks_for b (hook_event args))))
        (store w), b)).
Proof.
  unfold _fire_hook. unfold bind, get. cbn [snd]. apply call_hooks_trace.
Qed.

(** X13. Hooks. [on] adds the callback after the ones already registered
    for the event and leaves the other events alone. Firing an event
    calls each of its callbacks once with the arguments of the event,
    whether the callbacks return or raise; it returns and leaves the
    coordinator and the message store as they were. *)
Theorem hooks_are_called_once_and_cannot_fail :
  (forall (b : BaseMultiAgent) (event : str) (callback : Callback),
     callbacks_for (on b event callback) event
     = callbacks_for b event ++ [callback]
     /\ (forall other, other <> event ->
         callbacks_for (on b event callback) other = callbacks_for b other)
     /\ _agents (on b event callback) = _agents b
     /\ state (on b event callback) = state b)
  /\ (forall (args : HookArgs) (w : World) (b : BaseMultiAgent),
        _fire_hook args (w, b)
        = (Returned tt,
           (mkWorld
              (events w
                 ++ repeat (EvHook args)
                      (length (callbacks_for b (hook_event args))))
              (store w), b))).
Proof.
  split.
  - intros b event callback. unfold callbacks_for, on. cbn [_hooks _agents state].
    split; [ | split; [ | split; reflexivity ] ].
    + rewrite dict_get_set_same.
      destruct (dict_get (_hooks b) event); reflexivity.
    + intros other Hother. rewrite dict_get_set_other by congruence. reflexivity.
  - exact fire_hook_trace.
Qed.

Lemma dict_set_set {V} (d : dict V) (k : str) (v1 v2 : V) :
  dict_set (dict_set d k v1) k v2 = dict_set d k v2.
Proof.
  induction d as [ | [k' v'] d IH]; cbn [dict_set].
  - rewrite eqb_refl. reflexivity.
  - destruct (PyStr.eqb k' k) eqn:Heq; cbn [dict_set]; rewrite Heq.
    + reflexivity.
    + rewrite IH. reflexivity.
Qed.

Lemma reset_recorded (query : str) (a : ReAct.ReActAgent) (o : Outcome str) :
  ReAct.reset (ReActRuns.recorded query a o) = ReAct.reset a.
Proof.
  destruct o as [answer | e]; [ | reflexivity ].
  unfold ReActRuns.recorded, ReActFacts.remembered, ReAct.reset, ReAct.set_history.
  cbn [ReAct.tools ReAct.mode ReAct.max_steps ReAct.verbose ReAct.history
       ReAct._role_system_prompt ReAct._role_name].
  unfold History.clear, History.add_assistant_message, History.add_user_message.
  rewrite HistoryFacts.truncate_max_turns. cbn [History.append History.max_turns].
  rewrite HistoryFacts.truncate_max_turns. reflexivity.
Qed.

(** The state a dispatch to a registered agent ends in. *)
Lemma dispatch_books
  (agent_name sub_task : str) (w : World) (b : BaseMultiAgent)
  (agent : ReAct.ReActAgent) :
  get_agent b agent_name = Some agent ->
  exists result w',
    _dispatch agent_name sub_task (w, b)
    = (Returned result,
       (w',
        mkBase (global_tools b) (verbose b)
          (mkSharedState (task (state b)) (plan (state b))
             (dict_set (results (state b)) agent_name result)
             (messages (state b) ++ [length (store w); S (length (store w))])
             (status (state b)) (current_step (state b))
             (max_steps (state b)) (metadata (state b)))
          (dict_set (_agents b) agent_name (ReAct.reset agent))
          (_hooks b)))
    /\ store w'
       = store w
           ++ [Message.mkMessage (u "system") agent_name sub_task Message.TASK []
                 (now (length (store w)));
               Message.mkMessage agent_name (u "system") result Message.RESULT []
                 (now (S (length (store w))))].
Proof.
  intros Hagent. unfold get_agent in Hagent.
  unfold _dispatch. unfold bind at 1, log_event, modify. cbn [fst snd].
  unfold bind at 1, get. cbn [snd]. rewrite Hagent.
  unfold bind at 1. rewrite fire_hook_trace.
  unfold bind at 1, post_message, modify, State.new_message.
  cbn [fst snd store events].
  set (w2 := mkWorld _ _). set (b2 := set_state b _).
  unfold bind at 1, try_except, agent_run. cbn [fst snd].
  destruct (ReActRuns.run_effect (full_task agent sub_task) w2 agent)
    as (o & w3 & Hrun & Hstore3 & _).
  rewrite Hrun.
  assert (Hfinish : forall (result : str) (w4 : World),
    store w4 = store w2 ->
    exists w',
      bind (agent_reset agent_name)
        (fun _ => bind (state_add_result agent_name result)
           (fun _ => bind (_fire_hook (on_agent_finish agent_name result))
              (fun _ => ret result)))
        (w4, set_agents b2
               (dict_set (_agents b2) agent_name
                  (ReActRuns.recorded (full_task agent sub_task) agent o)))
      = (Returned result,
         (w',
          mkBase (global_tools b) (verbose b)
            (mkSharedState (task (state b)) (plan (state b))
               (dict_set (results (state b)) agent_name result)
               (messages (state b) ++ [length (store w); S (length (store w))])
               (status (state b)) (current_step (state b))
               (max_steps (state b)) (metadata (state b)))
            (dict_set (_agents b) agent_name (ReAct.reset agent))
            (_hooks b)))
      /\ store w'
         = store w
             ++ [Message.mkMessage (u "system") agent_name sub_task Message.TASK []
                   (now (length (store w)));
                 Message.mkMessage agent_name (u "system") result Message.RESULT []
                   (now (S (length (store w))))]).
  { intros result w4 Hstore4.
    unfold bind at 1, agent_reset, modify. cbn [fst snd set_agents _agents].
    rewrite dict_get_set_same.
    unfold bind at 1, state_add_result, modify, State.add_result, State.new_message.
    cbn [fst snd].
    unfold bind at 1. rewrite fire_hook_trace. unfold ret.
    eexists. split.
    - f_equal. f_equal.
      unfold set_state, set_agents, State.add_message, State.set_messages,
        State.set_results.
      subst b2. unfold set_state, State.add_message, State.set_messages.
      cbn [global_tools verbose state _agents _hooks task plan results messages
           status current_step max_steps metadata].
      rewrite dict_set_set, reset_recorded, Hstore4.
      subst w2. cbn [store]. rewrite length_app, <- app_assoc.
      cbn [length app]. rewrite Nat.add_1_r. reflexivity.
    - cbn [store]. rewrite Hstore4. subst w2. cbn [store].
      rewrite length_app, <- app_assoc. cbn [length app].
      rewrite Nat.add_1_r. reflexivity. }
  destruct o as [result | e].
  - exists result. apply Hfinish. exact Hstore3.
  - exists (failure agent_name e).
    unfold bind at 1. rewrite fire_hook_trace. cbn [ret].
    apply Hfinish. cbn [store]. exact Hstore3.
Qed.

(** X14. The books of a dispatch to a registered agent. Whatever the
    agent's run does, the dispatch adds two message objects to the store
    and to the log of the shared state, in this order: the task, from
    the system to the agent, and the result, from the agent to the
    system. It files the result under the agent's name, and it leaves
    the agent with an empty history, so that the next task starts from
    nothing. The results and the agent objects of the other agents, the
    hooks, and the task, plan, status and step counter of the shared
    state are as before. *)
Theorem dispatch_keeps_the_books
  (agent_name sub_task : str) (w : World) (b : BaseMultiAgent)
  (agent : ReAct.ReActAgent) :
  get_agent b agent_name = Some agent ->
  exists result s',
    _dispatch agent_name sub_task (w, b) = (Returned result, s')
    /\ State.get_result (state (snd s')) agent_name = Some result
    /\ (forall other, other <> agent_name ->
        State.get_result (state (snd s')) other = State.get_result (state b) other)
    /\ messages (state (snd s'))
       = messages (state b) ++ [length (store w); S (length (store w))]
    /\ store (fst s')
       = store w
           ++ [Message.mkMessage (u "system") agent_name sub_task Message.TASK []
                 (now (length (store w)));
               Message.mkMessage agent_name (u "system") result Message.RESULT []
                 (now (S (length (store w))))]
    /\ get_agent (snd s') agent_name = Some (ReAct.reset agent)
    /\ History.get_messages (ReAct.history (ReAct.reset agent)) = []
    /\ ReAct.tools (ReAct.reset agent) = ReAct.tools agent
    /\ (forall other, other <> agent_name ->
        get_agent (snd s') other = get_agent b other)
    /\ _hooks (snd s') = _hooks b
    /\ task (state (snd s')) = task (state b)
    /\ plan (state (snd s')) = plan (state b)
    /\ status (state (snd s')) = status (state b)
    /\ current_step (state (snd s')) = current_step (state b).
Proof.
  intros Hagent.
  destruct (@dispatch_books agent_name sub_task w b agent Hagent)
    as (result & w' & Hrun & Hstore).
  exists result. eexists. split; [ exact Hrun | ].
  unfold State.get_result, get_agent.
  cbn [fst snd state results messages _agents _hooks task plan status current_step].
  split; [ apply dict_get_set_same | ].
  split; [ intros other Hother; apply dict_get_set_other; congruence | ].
  split; [ reflexivity | ].
  split; [ exact Hstore | ].
  split; [ apply dict_get_set_same | ].
  split; [ reflexivity | ].
  split; [ reflexivity | ].
  split; [ intros other Hother; apply dict_get_set_other; congruence | ].
  repeat split.
Qed.

End WithEnvironment.

Lemma add_agent_gives_the_role_its_tools_witness :
  let global :=
    Tools.mkRegistry
      (map RegistryFacts.keyed [Examples.tool (u "calculator");
                                Examples.tool (u "search")]) in
  let role :=
    mkAgentRole (u "analyst") (u "analyses") (u "You analyse.")
      [u "search"; u "files"; u "calculator"] in
  match add_agent role None None (Multi.init global false) with
  | (Returned _, b') =>
    exists agent,
      get_agent b' (u "analyst") = Some agent
      /\ Tools.tool_names (ReAct.tools agent) = [u "search"; u "calculator"]
  | (Raised _, _) => False
  end.
Proof.
  pose proof (@add_agent_gives_the_role_its_tools
                (mkAgentRole (u "analyst") (u "analyses") (u "You analyse.")
                   [u "search"; u "files"; u "calculator"])
                None None
                (Multi.init
                   (Tools.mkRegistry
                      (map RegistryFacts.keyed [Examples.tool (u "calculator");
                                                Examples.tool (u "search")]))
                   false)
                (keyed_well_keyed _)) as Hadd.
  cbv zeta in *.
  destruct (add_agent _ _ _ _) as [[[] | e] b'].
  - destruct Hadd as (_ & (agent & Hget & Hnames & _) & _).
    exists agent. split; [ exact Hget | exact Hnames ].
  - destruct Hadd as (Hdup & _). apply Hdup. vm_compute.
    repeat constructor; cbn [In]; intros Hin;
      repeat (destruct Hin as [Hin | Hin]; [ discriminate Hin | ]); exact Hin.
Defined.

(** The agent that [MultiExamples.research_team] holds. *)
Definition researcher : ReAct.ReActAgent :=
  ReAct.mkAgent Tools.empty (u "function_calling") 10 false (History.init 20)
    (Some (u "You are a researcher.")) (Some (u "researcher")).

Lemma dispatch_keeps_the_books_witness :
  exists result s',
    @_dispatch Examples.builtins Examples.offline Examples.prompts
      (u "researcher") (u "say hello") (World.start, MultiExamples.research_team)
    = (Returned result, s')
    /\ State.get_result (state (snd s')) (u "researcher") = Some result
    /\ messages (state (snd s')) = [0; 1]
    /\ get_agent (snd s') (u "researcher") = Some researcher.
Proof.
  destruct (@dispatch_keeps_the_books Examples.builtins Examples.offline
              Examples.prompts (u "researcher") (u "say hello") World.start
              MultiExamples.research_team researcher eq_refl)
    as (result & s' & Hrun & Hresult & _ & Hlog & _ & Hagent & _).
  exists result, s'.
  split; [ exact Hrun | ]. split; [ exact Hresult | ].
  split; [ exact Hlog | exact Hagent ].
Defined.

End CoordinatorFacts.

(* ================================================================== *)
(** ** The shared state: results and messages *)
(* ================================================================== *)

Module StateFacts.
Import SharedState.

Lemma substring_refl (x : str) : Substring x x.
Proof. exists [], []. rewrite app_nil_r. reflexivity. Qed.

Lemma substring_trans (x y z : str) : Substring x y -> Substring y z -> Substring x z.
Proof.
  intros (pre1 & post1 & ->) (pre2 & post2 & ->).
  exists (pre2 ++ pre1), (post1 ++ post2). rewrite <- !app_assoc. reflexivity.
Qed.

(** Every part of a joined text occurs in it. *)
Lemma in_join (sep : str) (parts : list str) (x : str) :
  In x parts -> Substring x (join sep parts).
Proof.
  induction parts as [ | p parts IH]; intros Hin; [ destruct Hin | ].
  destruct parts as [ | q parts].
  - destruct Hin as [-> | []]. apply substring_refl.
  - change (join sep (p :: q :: parts)) with (p ++ sep ++ join sep (q :: parts)).
    destruct Hin as [-> | Hin].
    + apply substring_here.
    + apply substring_app_r, substring_app_r, IH. exact Hin.
Qed.

Lemma dict_get_in {V} (d : dict V) (k : str) (v : V) :
  dict_get d k = Some v -> In (k, v) d.
Proof.
  induction d as [ | [k' v'] d IH]; cbn [dict_get]; [ discriminate | ].
  destruct (PyStr.eqb k' k) eqn:Heq.
  - apply eqb_eq in Heq. intros [= ->]. left. rewrite Heq. reflexivity.
  - intros Hget. right. apply IH. exact Hget.
Qed.

Lemma dict_set_length {V} (d : dict V) (k : str) (v : V) :
  length (dict_set d k v) = if dict_mem d k then length d else S (length d).
Proof.
  unfold dict_mem.
  induction d as [ | [k' v'] d IH]; cbn [dict_set dict_get length]; [ reflexivity | ].
  destruct (PyStr.eqb k' k); cbn [length]; [ reflexivity | ].
  rewrite IH. destruct (dict_get d k); reflexivity.
Qed.

Section WithPorts.
Context `{Ports}.

(** The entry of [get_all_results] for one agent. *)
Definition result_entry (agent_name result : str) : str :=
  u "[" ++ agent_name ++ u "] 的结果:" ++ nl ++ result.

(** X15. [add_result] and [get_result] round trip: the result is found
    under the agent's name and the results of the other agents are as
    before. A second result of the same agent takes the place of the
    first, so the dict grows only for a new name, while the log grows by
    one RESULT message, from the agent to the system, each time.
    [get_all_results] holds an entry for every filed result, and the
    placeholder when there is none. *)
Theorem add_result_files_the_result
  (w : World) (st : SharedState) (agent_name result : str) :
  let w' := fst (State.add_result w st agent_name result) in
  let st' := snd (State.add_result w st agent_name result) in
  State.get_result st' agent_name = Some result
  /\ (forall other, other <> agent_name ->
      State.get_result st' other = State.get_result st other)
  /\ length (results st')
     = (if dict_mem (results st) agent_name
        then length (results st) else S (length (results st)))
  /\ messages st' = messages st ++ [length (store w)]
  /\ store w'
     = store w ++ [Message.mkMessage agent_name (u "system") result
                     Message.RESULT [] (now (length (store w)))]
  /\ (forall n r, State.get_result st' n = Some r ->
      Substring (result_entry n r) (State.get_all_results st'))
  /\ State.get_all_results (State.reset st') = u "(暂无结果)".
Proof.
  unfold State.add_result, State.new_message, State.get_result, State.add_message,
    State.set_messages, State.set_results.
  cbn [fst snd results messages store].
  split; [ apply dict_get_set_same | ].
  split; [ intros other Hother; apply dict_get_set_other; congruence | ].
  split; [ apply dict_set_length | ].
  split; [ reflexivity | ].
  split; [ reflexivity | ].
  split; [ | reflexivity ].
  intros n r Hget. unfold State.get_all_results. cbn [results].
  destruct (dict_set (results st) agent_name result) as [ | entry rest] eqn:Hset;
    [ discriminate | ].
  apply dict_get_in in Hget.
  apply (@in_join (nl ++ nl)
           (map (fun nr : str * str => u "[" ++ fst nr ++ u "] 的结果:" ++ nl ++ snd nr)
              (entry :: rest))
           (result_entry n r)).
  change (result_entry n r)
    with ((fun nr : str * str => u "[" ++ fst nr ++ u "] 的结果:" ++ nl ++ snd nr)
            (n, r)).
  apply in_map. exact Hget.
Qed.

End WithPorts.

(** X16. A broadcast reaches every receiver: once [_broadcast] has been
    given a message object, [get_messages_for] returns it for every
    receiver name, whoever it was addressed to before. *)
Theorem broadcast_reaches_every_receiver
  (message : ref) (s : Multi.Sys) (receiver : str) :
  message < length (store (fst s)) ->
  let s' := snd (Multi._broadcast message s) in
  In message (State.get_messages_for (fst s') (Multi.state (snd s')) receiver)
  /\ messages (Multi.state (snd s')) = messages (Multi.state (snd s)) ++ [message]
  /\ length (store (fst s')) = length (store (fst s)).
Proof.
  intros Hvalid. destruct s as [w b]. cbn [fst snd] in *.
  unfold Multi._broadcast, modify. cbn [fst snd].
  destruct (nth_error (store w) message) as [msg | ] eqn:Hmsg.
  2: { apply nth_error_None in Hmsg. lia. }
  cbn [store Multi.state Multi.set_state].
  unfold State.add_message, State.set_messages. cbn [messages].
  split; [ | split; [ reflexivity | apply set_nth_length ] ].
  unfold State.get_messages_for. cbn [messages store].
  apply filter_In. split.
  - apply in_or_app. right. left. reflexivity.
  - rewrite MessageFacts.nth_error_set_nth_same by exact Hvalid.
    cbn [Message.receiver]. rewrite (eqb_refl (u "all")).
    apply orb_true_r.
Qed.

Lemma broadcast_reaches_every_receiver_witness :
  In 0 (State.get_messages_for
          (fst (snd (Multi._broadcast 0 MessageFacts.logged)))
          (Multi.state (snd (snd (Multi._broadcast 0 MessageFacts.logged))))
          (u "c"))
  /\ Message.receiver MessageFacts.hello = u "b".
Proof.
  split; [ | reflexivity ].
  apply (@broadcast_reaches_every_receiver 0 MessageFacts.logged (u "c")).
  vm_compute. lia.
Defined.

End StateFacts.

(* ================================================================== *)
(** ** The agent's run: what every request to the model holds *)
(* ================================================================== *)

Module RequestFacts.
Import ReAct ReActFacts.

(** The requests of the model calls of a trace, in order. *)
Definition requests (evs : list Event) : list ChatRequest :=
  flat_map (fun e => match e with
                     | EvChat request => [request]
                     | _ => []
                     end) evs.

(** The request carries the messages [initial], in order, before
    anything else. *)
Definition extends (initial : list ChatMsg) (request : ChatRequest) : Prop :=
  exists more, req_messages request = initial ++ more.

(** The request offers the tool schemas [schemas] with the choice left
    to the model, or no tool at all when there is none to offer. *)
Definition offers (schemas : list JSON) (request : ChatRequest) : Prop :=
  match schemas with
  | [] => req_tools request = None /\ req_tool_choice request = None
  | _ => req_tools request = Some schemas
         /\ req_tool_choice request = Some (u "auto")
  end.

(** The tool message that answers a tool call. *)
Definition answer `{Builtins} (registry : Tools.ToolRegistry) (tc : ToolCall) : ChatMsg :=
  mkChatMsg (u "tool")
    (Some (Tools.execute registry (tc_name tc) (Tools.ArgStr (tc_arguments tc))))
    None (Some (tc_id tc)).

Lemma requests_app (l1 l2 : list Event) :
  requests (l1 ++ l2) = requests l1 ++ requests l2.
Proof. apply flat_map_app. Qed.

Lemma requests_executions (tcs : list ToolCall) :
  requests (map execution tcs) = [].
Proof. induction tcs as [ | tc tcs IH]; [ reflexivity | exact IH ]. Qed.

Lemma extends_more (initial more : list ChatMsg) (request : ChatRequest) :
  extends (initial ++ more) request -> extends initial request.
Proof.
  intros [more' Hreq]. exists (more ++ more'). rewrite Hreq, app_assoc. reflexivity.
Qed.

Section WithEnvironment.
Context `{Builtins} `{Ports} `{Prompts}.

Lemma run_tool_calls_extends (tcs : list ToolCall) :
  forall messages w a,
    exists more,
      run_tool_calls tcs messages (w, a)
      = (Returned (messages ++ more),
         (mkWorld (events w ++ map execution tcs) (store w), a)).
Proof.
  induction tcs as [ | tc tcs IH]; intros messages w a; cbn [run_tool_calls map].
  - exists []. unfold ret. rewrite !app_nil_r. destruct w; reflexivity.
  - unfold bind at 1, tools_execute. cbn [fst snd].
    match goal with
    | |- context [run_tool_calls tcs (messages ++ [?m]) (?w1, a)] =>
      destruct (IH (messages ++ [m]) w1 a) as [more Hrest]; exists (m :: more)
    end.
    rewrite Hrest. unfold log. cbn [events store].
    rewrite <- !app_assoc. reflexivity.
Qed.


Lemma function_calling_steps_requests (n : nat) :
  forall query openai_tools messages w a,
    exists new,
      events (fst (snd (function_calling_steps n query openai_tools messages (w, a))))
      = events w ++ new
      /\ Forall (fun request => extends messages request
                                /\ offers openai_tools request)
           (requests new).
Proof.
  induction n as [ | n IH]; intros query openai_tools messages w a;
    cbn [function_calling_steps].
  - exists []. split; [ symmetry; apply app_nil_r | constructor ].
  - unfold bind at 1. unfold llm_chat, Llm.chat. cbn [fst snd].
    match goal with
    | |- context [log w (EvChat ?req)] => set (request := req)
    end.
    assert (Hfirst : extends messages request /\ offers openai_tools request).
    { subst request. destruct openai_tools as [ | t ts].
      - split; [ exists []; symmetry; apply app_nil_r | split; reflexivity ].
      - split; [ exists []; symmetry; apply app_nil_r | split; reflexivity ]. }
    assert (Hone : exists new,
               events (log w (EvChat request)) = events w ++ new
               /\ Forall (fun request => extends messages request
                                         /\ offers openai_tools request)
                    (requests new)).
    { exists [EvChat request]. split; [ reflexivity | ].
      constructor; [ exact Hfirst | constructor ]. }
    destruct (create (chat_count w) request) as [response | e]; [ | exact Hone ].
    unfold bind at 1, Llm.first_choice.
    destruct (choices response) as [ | choice rest]; [ exact Hone | ].
    cbn [ret].
    destruct (truthy_list (World.tool_calls (World.message choice)))
      as [ | tc tcs] eqn:Hcalls; [ exact Hone | ].
    unfold bind at 1.
    match goal with
    | |- context [run_tool_calls (tc :: tcs) ?msgs ?s] =>
      destruct (run_tool_calls_extends (tc :: tcs) msgs (fst s) (snd s))
        as [more Htools];
      cbn [fst snd] in Htools; rewrite Htools
    end.
    match goal with
    | |- context [function_calling_steps n query openai_tools ?msgs (?w1, a)] =>
      destruct (IH query openai_tools msgs w1 a) as (new & Hevents & Hall)
    end.
    rewrite Hevents. cbn [events log].
    exists (EvChat request :: map execution (tc :: tcs) ++ new).
    split.
    + rewrite <- !app_assoc. reflexivity.
    + cbn [requests flat_map app]. fold (requests (map execution (tc :: tcs) ++ new)).
      constructor; [ exact Hfirst | ].
      rewrite requests_app, requests_executions. cbn [app].
      eapply Forall_impl; [ | exact Hall ].
      intros req [Hext Hoff]. split; [ | exact Hoff ].
      rewrite <- app_assoc in Hext. exact (extends_more _ _ Hext).
Qed.

Lemma text_parsing_steps_requests (n : nat) :
  forall query messages w a,
    exists new,
      events (fst (snd (text_parsing_steps n query messages (w, a))))
      = events w ++ new
      /\ Forall (fun request => extends messages request /\ offers [] request)
           (requests new).
Proof.
  induction n as [ | n IH]; intros query messages w a; cbn [text_parsing_steps].
  - exists []. split; [ symmetry; apply app_nil_r | constructor ].
  - unfold bind at 1. unfold llm_chat, Llm.chat. cbn [fst snd].
    match goal with
    | |- context [log w (EvChat ?req)] => set (request := req)
    end.
    assert (Hfirst : extends messages request /\ offers [] request).
    { subst request.
      split; [ exists []; symmetry; apply app_nil_r | split; reflexivity ]. }
    assert (Hone : exists new,
               events (log w (EvChat request)) = events w ++ new
               /\ Forall (fun request => extends messages request
                                         /\ offers [] request)
                    (requests new)).
    { exists [EvChat request]. split; [ reflexivity | ].
      constructor; [ exact Hfirst | constructor ]. }
    destruct (create (chat_count w) request) as [response | e]; [ | exact Hone ].
    unfold bind at 1, Llm.first_choice.
    destruct (choices response) as [ | choice rest]; [ exact Hone | ].
    cbn [ret].
    destruct (Re.final_answer_match _) as [group1 | ]; [ exact Hone | ].
    destruct (Re.action_match _) as [action_name | ]; [ | exact Hone ].
    unfold bind at 1, tools_execute. cbn [fst snd].
    match goal with
    | |- context [text_parsing_steps n query ?msgs (?w1, a)] =>
      destruct (IH query msgs w1 a) as (new & Hevents & Hall)
    end.
    rewrite Hevents. cbn [events log].
    match goal with
    | |- exists new0, ((events w ++ [EvChat request]) ++ [?ex]) ++ new = _ /\ _ =>
      exists (EvChat request :: ex :: new)
    end.
    split.
    + rewrite <- !app_assoc. reflexivity.
    + cbn [requests flat_map app]. fold (requests new).
      constructor; [ exact Hfirst | ].
      eapply Forall_impl; [ | exact Hall ].
      intros req [Hext Hoff]. split; [ | exact Hoff ].
      exact (extends_more _ _ Hext).
Qed.

(** X18. Every request a run sends to the model opens with the same
    context, in this order: the system message (the constant prompt, or
    the rendered one of the text protocol), the messages of the stored
    history, and the user message that holds the query; what the run
    has added since comes after. In function-calling mode each
    request offers the schemas of the agent's own registry with
    [tool_choice = "auto"], or no tool and no choice when the registry
    is empty; in text mode no request offers a tool. *)
Theorem requests_keep_the_context (query : str) (w : World) (a : ReActAgent) :
  exists new system user,
    events (fst (snd (run query (w, a)))) = events w ++ new
    /\ (if PyStr.eqb (mode a) (u "function_calling")
        then system = SYSTEM_PROMPT_FUNCTION_CALLING /\ user = query
        else requests new = []
             \/ Format.format SYSTEM_PROMPT_TEXT_PARSING
                  [(u "tools_description",
                    Tools.get_tools_description (tools a))]
                = Returned system
                /\ user = u "Question: " ++ query ++ nl)
    /\ Forall (fun request =>
                 extends ([role_content (u "system") system]
                            ++ History.get_messages (history a)
                            ++ [role_content (u "user") user]) request
                 /\ offers (if PyStr.eqb (mode a) (u "function_calling")
                            then Tools.to_openai_tools (tools a) else [])
                      request)
         (requests new).
Proof.
  unfold run. unfold bind at 1, get. cbn [snd].
  destruct (PyStr.eqb (mode a) (u "function_calling")).
  - unfold _run_function_calling. unfold bind at 1, get. cbn [snd].
    match goal with
    | |- context [function_calling_steps ?n query ?t ?msgs (w, a)] =>
      destruct (function_calling_steps_requests n query t msgs w a)
        as (new & Hevents & Hall)
    end.
    exists new, SYSTEM_PROMPT_FUNCTION_CALLING, query.
    split; [ exact Hevents | ].
    split; [ split; reflexivity | exact Hall ].
  - destruct (PyStr.eqb (mode a) (u "text_parsing")).
    + unfold _run_text_parsing. unfold bind at 1, get. cbn [snd].
      unfold bind at 1, lift.
      destruct (Format.format _ _) as [system_prompt | e] eqn:Hprompt.
      * match goal with
        | |- context [text_parsing_steps ?n query ?msgs (w, a)] =>
          destruct (text_parsing_steps_requests n query msgs w a)
            as (new & Hevents & Hall)
        end.
        exists new, system_prompt, (u "Question: " ++ query ++ nl).
        split; [ exact Hevents | ].
        split; [ right; split; reflexivity | exact Hall ].
      * exists [], [], query. cbn [fst snd].
        split; [ symmetry; apply app_nil_r | ].
        split; [ left; reflexivity | constructor ].
    + exists [], [], query. unfold raise. cbn [fst snd].
      split; [ symmetry; apply app_nil_r | ].
      split; [ left; reflexivity | constructor ].
Qed.

End WithEnvironment.
End RequestFacts.

(* ================================================================== *)
(** ** The pipeline: retries and the walk through the steps *)
(* ================================================================== *)

Module RetryFacts.
Import SharedState Multi Pipeline.

(** The agents the dispatches of a trace went to, in order. *)
Definition agents_of (evs : list Event) : list str :=
  flat_map (fun e => match e with
                     | EvDispatch agent_name _ => [agent_name]
                     | _ => []
                     end) evs.

(** The number of dispatches a step was given: at most [retry], and at
    least one when [retry] allows one. *)
Definition tried (step : Message.PipelineStep) (k : nat) : Prop :=
  (Z.of_nat k <= Z.max 0 (Message.retry step))%Z
  /\ ((1 <= Message.retry step)%Z -> 1 <= k).

(** The agents visited when the steps are given [ks] dispatches each. *)
Definition visits (steps : list Message.PipelineStep) (ks : list nat) : list str :=
  concat (map (fun sk : Message.PipelineStep * nat =>
                 repeat (Message.agent_name (fst sk)) (snd sk))
              (combine steps ks)).

(** What a dispatch keeps of the shared state: the task, the plan, the
    status and the step counter. *)
Definition same_progress (s s' : Sys) : Prop :=
  task (state (snd s')) = task (state (snd s))
  /\ plan (state (snd s')) = plan (state (snd s))
  /\ status (state (snd s')) = status (state (snd s))
  /\ current_step (state (snd s')) = current_step (state (snd s)).

Lemma same_progress_refl s : same_progress s s.
Proof. repeat split. Qed.

Lemma same_progress_trans s1 s2 s3 :
  same_progress s1 s2 -> same_progress s2 s3 -> same_progress s1 s3.
Proof.
  intros (H1 & H2 & H3 & H4) (H5 & H6 & H7 & H8).
  repeat split; congruence.
Qed.

Lemma agents_of_app (l1 l2 : list Event) :
  agents_of (l1 ++ l2) = agents_of l1 ++ agents_of l2.
Proof. apply flat_map_app. Qed.

Lemma agents_of_dispatches (evs : list Event) :
  agents_of (filter is_dispatch evs) = agents_of evs.
Proof.
  induction evs as [ | e evs IH]; [ reflexivity | ].
  destruct e; cbn [filter is_dispatch agents_of flat_map app] in *;
    fold (agents_of evs) in *; fold (agents_of (filter is_dispatch evs)) in *;
    rewrite IH; reflexivity.
Qed.

Lemma agents_of_repeat (agent_name sub_task : str) (k : nat) :
  agents_of (repeat (EvDispatch agent_name sub_task) k) = repeat agent_name k.
Proof.
  induction k as [ | k IH]; [ reflexivity | ].
  cbn [repeat agents_of flat_map app]. fold (agents_of (repeat (EvDispatch agent_name sub_task) k)).
  rewrite IH. reflexivity.
Qed.

Lemma agents_of_hooks (args : HookArgs) (k : nat) :
  agents_of (repeat (EvHook args) k) = [].
Proof. induction k as [ | k IH]; [ reflexivity | exact IH ]. Qed.

Lemma bind_returned_inv {S A B} (m : M S A) (k : A -> M S B) (s s' : S) (b : B) :
  bind m k s = (Returned b, s') ->
  exists a s1, m s = (Returned a, s1) /\ k a s1 = (Returned b, s').
Proof.
  unfold bind. destruct (m s) as [[a | e] s1]; [ | discriminate ].
  intros Hk. exists a, s1. split; [ reflexivity | exact Hk ].
Qed.

Section WithEnvironment.
Context `{Builtins} `{Ports} `{Prompts}.




Lemma pbind {A B} (m : M Sys A) (k : A -> M Sys B) :
  keeps same_progress m -> (forall a, keeps same_progress (k a)) ->
  keeps same_progress (bind m k).
Proof. apply keeps_bind. exact same_progress_trans. Qed.

Lemma fire_hook_progress args : keeps same_progress (_fire_hook args).
Proof.
  intros [w b]. rewrite CoordinatorFacts.fire_hook_trace. repeat split.
Qed.

Lemma dispatch_progress (agent_name sub_task : str) :
  keeps same_progress (_dispatch agent_name sub_task).
Proof.
  unfold _dispatch.
  apply pbind; [ intros s; repeat split | intros _ ].
  apply pbind; [ apply keeps_get; exact same_progress_refl | intros self ].
  destruct (dict_get (_agents (snd self)) agent_name) as [agent | ].
  2: { apply keeps_ret. exact same_progress_refl. }
  apply pbind; [ apply fire_hook_progress | intros _ ].
  apply pbind.
  { intros s. unfold post_message, modify, State.new_message. cbn [fst snd].
    repeat split. }
  intros _.
  apply pbind.
  { apply keeps_try_except; try exact same_progress_trans.
    - intros s. unfold agent_run.
      destruct (ReAct.run (full_task agent sub_task) (fst s, agent))
        as [o [w' agent']].
      repeat split.
    - intros e. apply pbind; [ apply fire_hook_progress | intros _ ].
      apply keeps_ret. exact same_progress_refl. }
  intros result.
  apply pbind.
  { intros s. unfold agent_reset, modify. cbn [snd].
    destruct (dict_get (_agents (snd s)) agent_name); repeat split. }
  intros _.
  apply pbind.
  { intros s. unfold state_add_result, modify, State.add_result, State.new_message.
    cbn [fst snd]. repeat split. }
  intros _.
  apply pbind; [ apply fire_hook_progress | intros _ ].
  apply keeps_ret. exact same_progress_refl.
Qed.

(** What a step's attempts do, for any agent and any replies. *)
Lemma attempts_spec (n : nat) :
  forall (step : Message.PipelineStep) (sub_task last_error : str) (s : Sys),
    exists result s' k,
      attempts n step sub_task last_error s = (Returned result, s')
      /\ k <= n
      /\ filter is_dispatch (events (fst s'))
         = filter is_dispatch (events (fst s))
           ++ repeat (EvDispatch (Message.agent_name step) sub_task) k
      /\ (n = 0 -> result = last_error /\ s' = s)
      /\ (1 <= n -> 1 <= k)
      /\ (k < n -> startswith result error_prefix = false)
      /\ same_progress s s'.
Proof.
  induction n as [ | n IH]; intros step sub_task last_error s; cbn [attempts].
  - exists last_error, s, 0. split; [ reflexivity | ].
    split; [ lia | ]. split; [ cbn [repeat]; rewrite app_nil_r; reflexivity | ].
    split; [ intros _; split; reflexivity | ].
    split; [ lia | ]. split; [ lia | apply same_progress_refl ].
  - destruct (dispatch_spec (Message.agent_name step) sub_task s)
      as (result & s1 & Hrun & _ & Hevents & _).
    assert (Hkept : same_progress s s1).
    { pose proof (dispatch_progress (Message.agent_name step) sub_task s) as Hp.
      rewrite Hrun in Hp. exact Hp. }
    erewrite bind_returned by exact Hrun.
    destruct (startswith result error_prefix) eqn:Herror; cbn [negb].
    + destruct (IH step sub_task result s1)
        as (result' & s' & k & Hrest & Hk & Hev & Hzero & Hone & Hearly & Hkept').
      exists result', s', (S k). split; [ exact Hrest | ].
      split; [ lia | ].
      split.
      { rewrite Hev, Hevents, <- app_assoc. reflexivity. }
      split; [ discriminate | ]. split; [ lia | ].
      split; [ intros Hlt; apply Hearly; lia | ].
      eapply same_progress_trans; [ exact Hkept | exact Hkept' ].
    + exists result, s1, 1. split; [ reflexivity | ].
      split; [ lia | ]. split; [ exact Hevents | ].
      split; [ discriminate | ]. split; [ lia | ].
      split; [ intros _; exact Herror | exact Hkept ].
Qed.



Lemma run_steps_spec (steps : list Message.PipelineStep) :
  forall (i : Z) (task0 prev final r : str) (s s' : Sys),
    run_steps steps i task0 prev final s = (Returned r, s') ->
    task (state (snd s')) = task (state (snd s))
    /\ plan (state (snd s')) = plan (state (snd s))
    /\ status (state (snd s')) = status (state (snd s))
    /\ current_step (state (snd s'))
       = match steps with
         | [] => current_step (state (snd s))
         | _ => (i + Z.of_nat (length steps))%Z
         end
    /\ exists ks,
         Forall2 tried steps ks
         /\ agents_of (events (fst s')) = agents_of (events (fst s)) ++ visits steps ks.
Proof.
  induction steps as [ | step rest IH]; intros i task0 prev final r s s' Hrun;
    cbn [run_steps] in Hrun.
  - injection Hrun as _ <-. repeat split.
    exists []. split; [ constructor | ]. unfold visits. cbn [combine map concat].
    rewrite app_nil_r. reflexivity.
  - apply bind_returned_inv in Hrun. destruct Hrun as (u1 & s1 & Hupd & Hrun).
    unfold update_state, modify in Hupd. injection Hupd as _ <-.
    apply bind_returned_inv in Hrun. destruct Hrun as (self & s1' & Hget & Hrun).
    unfold get in Hget. injection Hget as <- <-.
    apply bind_returned_inv in Hrun. destruct Hrun as (rendered & s2 & Hfmt & Hrun).
    unfold lift in Hfmt. injection Hfmt as _ <-.
    apply bind_returned_inv in Hrun. destruct Hrun as (result & s3 & Hexec & Hrun).
    unfold _execute_with_retry in Hexec.
    match type of Hexec with
    | attempts ?n step rendered [] ?s0 = _ =>
      destruct (attempts_spec n step rendered [] s0)
        as (result' & s3' & k & Hatt & Hk & Hev & _ & Hone & _ & Hkept)
    end.
    rewrite Hatt in Hexec. injection Hexec as <- <-.
    apply bind_returned_inv in Hrun. destruct Hrun as (result2 & s4 & Htr & Hrun).
    assert (Hs4 : s4 = s3').
    { destruct (Message.transform step) as [f | ].
      - unfold lift in Htr. injection Htr as _ <-. reflexivity.
      - unfold ret in Htr. injection Htr as _ <-. reflexivity. }
    subst s4.
    apply bind_returned_inv in Hrun. destruct Hrun as (self2 & s5 & Hget2 & Hrun).
    unfold get in Hget2. injection Hget2 as <- <-.
    apply bind_returned_inv in Hrun. destruct Hrun as (u2 & s6 & Hhook & Hrun).
    destruct s3' as [w3 b3]. rewrite CoordinatorFacts.fire_hook_trace in Hhook.
    injection Hhook as _ <-.
    apply IH in Hrun.
    destruct Hrun as (Htask & Hplan & Hstatus & Hstep & ks & Hks & Hagents).
    destruct Hkept as (Kt & Kp & Ks & Kc).
    cbn [fst snd state set_state State.set_current_step task plan status
         current_step events] in *.
    split; [ congruence | ]. split; [ congruence | ]. split; [ congruence | ].
    split.
    { rewrite Hstep. destruct rest as [ | step2 rest].
      - rewrite Kc. cbn [length]. lia.
      - cbn [length]. lia. }
    exists (k :: ks). split.
    + constructor; [ | exact Hks ]. split; [ lia | ]. intros Hretry. apply Hone. lia.
    + rewrite Hagents, agents_of_app, agents_of_hooks, app_nil_r.
      rewrite <- agents_of_dispatches, Hev, agents_of_app, agents_of_dispatches,
        agents_of_repeat.
      unfold visits. cbn [combine map concat fst snd].
      rewrite <- app_assoc. reflexivity.
Qed.

(** X21. A pipeline run that returns has walked through every step, in
    order: each step was dispatched to its agent at least once (when its
    [retry] allows one) and at most [retry] times, whether the steps
    before it failed or not. At the end the shared state holds the task,
    one plan line per step, the number of the last step and the status
    [done]. *)
Theorem pipeline_visits_every_step
  (steps : list Message.PipelineStep) (task0 r : str) (s s' : Sys) :
  steps <> [] ->
  run_with steps task0 s = (Returned r, s') ->
  status (state (snd s')) = done
  /\ task (state (snd s')) = task0
  /\ plan (state (snd s')) = plan_lines steps 0
  /\ length (plan (state (snd s'))) = length steps
  /\ current_step (state (snd s')) = Z.of_nat (length steps)
  /\ exists ks,
       Forall2 tried steps ks
       /\ agents_of (events (fst s')) = agents_of (events (fst s)) ++ visits steps ks.
Proof.
  intros Hsteps Hrun.
  assert (Hlines : forall l i, length (plan_lines l i) = length l).
  { induction l as [ | x l IHl]; intros i; cbn [plan_lines length];
      [ reflexivity | rewrite IHl; reflexivity ]. }
  specialize (Hlines steps 0%Z).
  remember (plan_lines steps 0) as lines eqn:Hlines0.
  remember (length steps) as n eqn:Hn.
  assert (Hrun' : bind (update_state State.reset)
            (fun _ => bind (update_state (fun st => State.set_task st task0))
               (fun _ => bind (update_state (fun st => State.set_status st executing))
                  (fun _ => bind (update_state (fun st => State.set_plan st lines))
                     (fun _ => bind (run_steps steps 0 task0 [] [])
                        (fun final_result =>
                           bind (update_state (fun st => State.set_status st done))
                             (fun _ => ret final_result)))))) s
                  = (Returned r, s')).
  { rewrite <- Hrun, Hlines0. unfold run_with.
    destruct steps; [ congruence | reflexivity ]. }
  clear Hrun. rename Hrun' into Hrun.
  apply bind_returned_inv in Hrun. destruct Hrun as (u1 & s1 & Hupd & Hrun).
  unfold update_state, modify in Hupd. injection Hupd as _ <-.
  apply bind_returned_inv in Hrun. destruct Hrun as (u2 & s2 & Hupd & Hrun).
  unfold update_state, modify in Hupd. injection Hupd as _ <-.
  apply bind_returned_inv in Hrun. destruct Hrun as (u3 & s3 & Hupd & Hrun).
  unfold update_state, modify in Hupd. injection Hupd as _ <-.
  apply bind_returned_inv in Hrun. destruct Hrun as (u4 & s4 & Hupd & Hrun).
  unfold update_state, modify in Hupd. injection Hupd as _ <-.
  apply bind_returned_inv in Hrun. destruct Hrun as (final & s5 & Hsteps' & Hrun).
  apply bind_returned_inv in Hrun. destruct Hrun as (u6 & s6 & Hupd & Hrun).
  unfold update_state, modify in Hupd. injection Hupd as _ <-.
  unfold ret in Hrun. injection Hrun as _ <-.
  apply run_steps_spec in Hsteps'.
  destruct Hsteps' as (Htask & Hplan & _ & Hstep & ks & Hks & Hagents).
  cbn [fst snd state set_state State.set_status State.set_plan State.set_task
       State.reset task plan status current_step] in *.
  split; [ reflexivity | ]. split; [ exact Htask | ].
  split; [ exact Hplan | ].
  split; [ rewrite Hplan; exact Hlines | ].
  split.
  { rewrite Hstep. destruct steps; [ congruence | ]. rewrite <- Hn. lia. }
  exists ks. split; [ exact Hks | exact Hagents ].
Qed.

End WithEnvironment.


(** Two steps for agents nobody registered, the first with no retry. *)
Definition ghost_steps : list Message.PipelineStep :=
  [Message.mkPipelineStep (u "ghost") (u "{task}") 1 None;
   Message.mkPipelineStep (u "phantom") (u "{prev_result}") 2 None].

Lemma pipeline_visits_every_step_witness :
  let s' := snd (@run_with Examples.builtins Examples.offline Examples.prompts
                   ghost_steps (u "report") PipelineFacts.nobody) in
  status (state (snd s')) = done
  /\ current_step (state (snd s')) = 2%Z
  /\ exists ks,
       Forall2 tried ghost_steps ks
       /\ agents_of (events (fst s')) = visits ghost_steps ks.
Proof.
  destruct (@pipeline_visits_every_step Examples.builtins Examples.offline
              Examples.prompts ghost_steps (u "report")
              (u "错误：Agent 'phantom' 不存在。可用：[]")
              PipelineFacts.nobody
              (snd (@run_with Examples.builtins Examples.offline Examples.prompts
                      ghost_steps (u "report") PipelineFacts.nobody)))
    as (Hstatus & _ & _ & _ & Hstep & ks & Hks & Hagents).
  - discriminate.
  - vm_compute. reflexivity.
  - split; [ exact Hstatus | ]. split; [ exact Hstep | ].
    exists ks. split; [ exact Hks | exact Hagents ].
Defined.

End RetryFacts.

(* ================================================================== *)
(** ** The orchestrator: reading the plan, steps for unknown agents *)
(* ================================================================== *)

Module PlanFacts.
Import SharedState Multi Orchestrator.
Import OrchestratorFacts.








Section WithEnvironment.
Context `{Builtins} `{Ports} `{Prompts}.


(** X23. The validation of a plan keeps the entries that are objects
    with both an ["agent"] and a ["task"] key, in their order, and drops
    every other entry without a word. The values are taken as they are:
    nothing checks that they are strings. *)
Theorem validation_keeps_the_well_formed_entries :
  (forall items1 items2,
     validate (items1 ++ items2) = validate items1 ++ validate items2)
  /\ (forall items step,
        In step (validate items)
        <-> exists fields,
              In (JObj fields) items
              /\ dict_get fields (u "agent") = Some (agent step)
              /\ dict_get fields (u "task") = Some (task step))
  /\ (forall items, length (validate items) <= length items).
Proof.
  split; [ | split ].
  - intros items1 items2. induction items1 as [ | item items1 IH]; [ reflexivity | ].
    cbn [app validate].
    destruct item as [ | | | | | | fields]; try exact IH.
    destruct (dict_get fields (u "agent")); [ | exact IH ].
    destruct (dict_get fields (u "task")); [ | exact IH ].
    cbn [app]. rewrite IH. reflexivity.
  - intros items step. induction items as [ | item items IH]; cbn [validate].
    + split; [ intros [] | intros (fields & [] & _) ].
    + assert (Hdrop :
        (forall fields, item = JObj fields ->
           dict_get fields (u "agent") = Some (agent step) ->
           dict_get fields (u "task") = Some (task step) -> False) ->
        (In step (validate items)
         <-> exists fields,
               In (JObj fields) (item :: items)
               /\ dict_get fields (u "agent") = Some (agent step)
               /\ dict_get fields (u "task") = Some (task step))).
      { intros Hno. rewrite IH.
        split; intros (fields & Hin & Ha & Ht); exists fields;
          (split; [ | split; assumption ]).
        - right. exact Hin.
        - destruct Hin as [Heq | Hin]; [ | exact Hin ].
          exfalso. exact (Hno fields Heq Ha Ht). }
      destruct item as [ | | | | | | fields0];
        try (apply Hdrop; intros fields Heq; discriminate Heq).
      destruct (dict_get fields0 (u "agent")) as [a | ] eqn:Ea;
        [ | apply Hdrop; intros fields [= <-] Ha Ht; congruence ].
      destruct (dict_get fields0 (u "task")) as [t | ] eqn:Et;
        [ | apply Hdrop; intros fields [= <-] Ha Ht; congruence ].
      cbn [In]. rewrite IH. split.
      * intros [<- | (fields & Hin & Ha & Ht)].
        -- exists fields0. cbn [agent task].
           split; [ left; reflexivity | split; assumption ].
        -- exists fields. split; [ right; exact Hin | split; assumption ].
      * intros (fields & [[= <-] | Hin] & Ha & Ht).
        -- left. destruct step as [a' t']. cbn [agent task] in *. congruence.
        -- right. exists fields. split; [ exact Hin | split; assumption ].
  - intros items. induction items as [ | item items IH]; cbn [validate length];
      [ lia | ].
    destruct item as [ | | | | | | fields]; try lia.
    destruct (dict_get fields (u "agent")); [ | lia ].
    destruct (dict_get fields (u "task")); cbn [length]; lia.
Qed.









End WithEnvironment.








End PlanFacts.

(* ================================================================== *)
(** ** The debate: who speaks when, and what a debater is shown *)
(* ================================================================== *)

Module DebateSchedule.
Import SharedState Multi Debate.
Import DebateFacts RetryFacts.

(** The entries of a round that are not the debater's own. *)
Definition others (exclude : str) (round_ops : Round) : Round :=
  filter (fun no : str * str => negb (PyStr.eqb (fst no) exclude)) round_ops.

(** The lines for rounds that hold the entries of the others only. *)
Fixpoint lines_of_others (rounds : list Round) (i : Z) : list str :=
  match rounds with
  | [] => []
  | round_ops :: rest =>
    map (fun no : str * str => quoted i (fst no) (snd no)) round_ops
      ++ lines_of_others rest (i + 1)
  end.

Lemma all_opinion_lines_others (all_rounds : list Round) (exclude : str) :
  forall i,
    all_opinion_lines all_rounds i exclude
    = lines_of_others (map (others exclude) all_rounds) i.
Proof.
  induction all_rounds as [ | round_ops rest IH]; intros i;
    cbn [all_opinion_lines map lines_of_others]; [ reflexivity | ].
  rewrite IH. reflexivity.
Qed.

Lemma all_opinion_lines_in (all_rounds : list Round) (exclude : str) :
  forall (k : Z) (i : nat) (round_ops : Round) (n o : str),
    nth_error all_rounds i = Some round_ops ->
    In (n, o) round_ops ->
    n <> exclude ->
    In (quoted (k + Z.of_nat i) n o) (all_opinion_lines all_rounds k exclude).
Proof.
  induction all_rounds as [ | r rest IH]; intros k i round_ops n o Hnth Hin Hne.
  - destruct i; discriminate Hnth.
  - cbn [all_opinion_lines]. apply in_or_app. destruct i as [ | i].
    + left. injection Hnth as ->. unfold opinion_lines.
      replace (k + Z.of_nat 0)%Z with k by lia.
      apply (in_map (fun no : str * str => quoted k (fst no) (snd no))
               _ (n, o)).
      apply filter_In. split; [ exact Hin | ].
      cbn [fst]. apply eqb_neq in Hne. rewrite Hne. reflexivity.
    + right. replace (k + Z.of_nat (S i))%Z with (k + 1 + Z.of_nat i)%Z by lia.
      apply (IH _ _ round_ops); assumption.
Qed.

(** X26. What [_format_opinions] shows a debater depends on the entries
    of the other debaters only: two ledgers that differ in the debater's
    own entries give the same text. Every entry of another debater, of
    any earlier round, is quoted in it with its round number; and when no
    one else has spoken (a debate of one, or the first round) the text
    is the placeholder. *)
Theorem opinions_shown_are_those_of_the_others
  (all_rounds : list Round) (exclude : str) :
  (forall all_rounds',
     map (others exclude) all_rounds' = map (others exclude) all_rounds ->
     _format_opinions all_rounds' exclude = _format_opinions all_rounds exclude)
  /\ (forall (i : nat) (round_ops : Round) (n o : str),
        nth_error all_rounds i = Some round_ops ->
        In (n, o) round_ops ->
        n <> exclude ->
        Substring (quoted (Z.of_nat i + 1) n o)
          (_format_opinions all_rounds exclude))
  /\ (Forall (fun round_ops => others exclude round_ops = []) all_rounds ->
      _format_opinions all_rounds exclude = u "(暂无其他观点)").
Proof.
  split; [ | split ].
  - intros all_rounds' Hsame. unfold _format_opinions.
    rewrite !all_opinion_lines_others, Hsame. reflexivity.
  - intros i round_ops n o Hnth Hin Hne. unfold _format_opinions.
    pose proof (@all_opinion_lines_in all_rounds exclude 1 i round_ops n o
                  Hnth Hin Hne) as Hline.
    replace (1 + Z.of_nat i)%Z with (Z.of_nat i + 1)%Z in Hline by lia.
    destruct (all_opinion_lines all_rounds 1 exclude) as [ | l lines];
      [ destruct Hline | ].
    apply StateFacts.in_join. exact Hline.
  - intros Hnone. unfold _format_opinions.
    rewrite all_opinion_lines_others.
    replace (lines_of_others (map (others exclude) all_rounds) 1) with (@nil str);
      [ reflexivity | ].
    generalize 1%Z.
    induction Hnone as [ | r rest Hr Hrest IH]; intros k;
      cbn [map lines_of_others]; [ reflexivity | ].
    rewrite Hr, <- IH. reflexivity.
Qed.

Section WithEnvironment.
Context `{Builtins} `{Ports} `{Prompts}.






End WithEnvironment.


End DebateSchedule.

(* ================================================================== *)
(** ** The predefined roles *)
(* ================================================================== *)

Module RolesFacts.
Import Multi Roles.

(** The names of the predefined roles, in the order of the table. *)
Definition role_names : list str :=
  [u "researcher"; u "analyst"; u "writer"; u "reviewer";
   u "python_expert"; u "go_expert"].

(** What every entry of the table satisfies. *)
Definition well_formed (n : str) (role : AgentRole) : Prop :=
  name role = n
  /\ description role <> []
  /\ system_prompt role <> []
  /\ NoDup (tools role).

Lemma table_is_well_formed (n : str) (role : AgentRole) :
  In (n, role) ROLES -> well_formed n role.
Proof.
  unfold ROLES. cbn [In]. intros Hin.
  repeat (destruct Hin as [Heq | Hin];
          [ injection Heq as <- <-; unfold well_formed;
            cbn [name description system_prompt tools];
            split; [ reflexivity | ];
            split; [ intros Hnil; vm_compute in Hnil; discriminate Hnil | ];
            split; [ intros Hnil; vm_compute in Hnil; discriminate Hnil | ];
            repeat constructor; cbn [In]; intros Hdup;
            repeat (destruct Hdup as [Hdup | Hdup];
                    [ vm_compute in Hdup; discriminate Hdup | ]);
            exact Hdup
          | ]).
  destruct Hin.
Qed.

Section WithBuiltins.
Context `{Builtins}.

Lemma get_role_returned (n : str) (role : AgentRole) :
  get_role n = Returned role -> dict_get ROLES n = Some role.
Proof.
  unfold get_role. destruct (dict_mem ROLES n); cbn [negb]; [ | discriminate ].
  destruct (dict_get ROLES n) as [role' | ]; [ | discriminate ].
  intros [= ->]. reflexivity.
Qed.

(** X28. The table of predefined roles. [get_role] returns a role exactly
    for the six names of the table, and the role it returns is the one
    filed under that name and carries that name; its description and its
    system prompt are not empty and it names no tool twice. For every
    other name it raises [KeyError] with a message that lists the six
    names. *)
Theorem predefined_roles_are_filed_under_their_names (n : str) :
  match get_role n with
  | Returned role =>
    In n role_names
    /\ dict_get ROLES n = Some role
    /\ name role = n
    /\ description role <> []
    /\ system_prompt role <> []
    /\ NoDup (tools role)
  | Raised e =>
    ~ In n role_names
    /\ exn_class e = KeyError
    /\ exn_text e
       = repr_str (u "角色 '" ++ n ++ u "' 不存在。可用角色：" ++ repr_list role_names)
  end.
Proof.
  destruct (get_role n) as [role | e] eqn:Hrole.
  - pose proof Hrole as Hget. apply get_role_returned in Hget.
    pose proof Hget as Hin. apply StateFacts.dict_get_in in Hin.
    pose proof Hin as Hwf. apply table_is_well_formed in Hwf.
    destruct Hwf as (Hname & Hdesc & Hprompt & Htools).
    split.
    { change role_names with (dict_keys ROLES). unfold dict_keys.
      apply (in_map fst ROLES (n, role) Hin). }
    repeat split; assumption.
  - unfold get_role in Hrole.
    destruct (dict_mem ROLES n) eqn:Hmem; cbn [negb] in Hrole.
    + apply dict_mem_true in Hmem. destruct Hmem as [role Hget].
      rewrite Hget in Hrole. discriminate Hrole.
    + injection Hrole as <-. apply dict_mem_false in Hmem.
      apply RegistryFacts.dict_get_none in Hmem.
      split; [ exact Hmem | ]. split; reflexivity.
Qed.

End WithBuiltins.

(** X29. A predefined role can always be added. Whatever tools the global
    registry holds, [add_agent] on a role that [get_role] returned does
    not raise, since no predefined role names a tool twice; the agent is
    registered under the name that was asked for, and every task it is
    dispatched starts with the role's system prompt under the heading of
    the role instructions, the task coming last. *)
Theorem predefined_roles_can_always_be_added `{Builtins}
  (n : str) (role : AgentRole) (mode : option str) (max_steps : option Z)
  (b : BaseMultiAgent) :
  get_role n = Returned role ->
  RegistryFacts.well_keyed (global_tools b) ->
  exists b' agent,
    add_agent role mode max_steps b = (Returned tt, b')
    /\ get_agent b' n = Some agent
    /\ Tools.tool_names (ReAct.tools agent)
       = filter (Tools.contains (global_tools b)) (tools role)
    /\ forall sub_task,
         full_task agent sub_task
         = u "[系统角色指令]" ++ nl ++ system_prompt role ++ nl ++ nl
             ++ u "[当前任务]" ++ nl ++ sub_task.
Proof.
  intros Hrole Hkeyed.
  pose proof Hrole as Hin. apply get_role_returned in Hin.
  apply StateFacts.dict_get_in in Hin. apply table_is_well_formed in Hin.
  destruct Hin as (Hname & _ & Hprompt & Htools).
  unfold add_agent. unfold bind at 1, get. unfold bind at 1, lift.
  rewrite CoordinatorFacts.role_registry_registers_found.
  pose proof (@RegistryFacts.register_all_spec
                (CoordinatorFacts.found (global_tools b) (tools role)) []
                (NoDup_nil _)) as Hspec.
  change (Tools.mkRegistry (map RegistryFacts.keyed [])) with Tools.empty in Hspec.
  cbn [app] in Hspec.
  rewrite (CoordinatorFacts.found_names _ Hkeyed) in Hspec.
  destruct (RegistryFacts.register_all Tools.empty
              (CoordinatorFacts.found (global_tools b) (tools role))) as [r | e].
  2: { exfalso. apply (proj1 Hspec). apply NoDup_filter. exact Htools. }
  destruct Hspec as [_ Hstored].
  unfold modify. eexists. eexists. split; [ reflexivity | ].
  unfold get_agent, set_agents. cbn [_agents].
  split; [ rewrite <- Hname; apply dict_get_set_same | ].
  cbn [ReAct.init ReAct.tools ReAct.mode ReAct.max_steps ReAct.history
       ReAct._role_system_prompt ReAct._role_name].
  split.
  - unfold Tools.tool_names. rewrite Hstored, RegistryFacts.keyed_names.
    apply (CoordinatorFacts.found_names _ Hkeyed).
  - intros sub_task. unfold full_task. cbn [ReAct._role_system_prompt].
    destruct (system_prompt role) as [ | c prompt]; [ congruence | reflexivity ].
Qed.

Lemma predefined_roles_can_always_be_added_witness :
  exists role b' agent,
    @get_role Examples.builtins (u "writer") = Returned role
    /\ add_agent role None None (Multi.init Tools.empty false) = (Returned tt, b')
    /\ get_agent b' (u "writer") = Some agent
    /\ Tools.tool_names (ReAct.tools agent)
       = filter (Tools.contains Tools.empty) (tools role).
Proof.
  destruct (@get_role Examples.builtins (u "writer")) as [role | e] eqn:Hrole.
  - destruct (@predefined_roles_can_always_be_added Examples.builtins (u "writer")
                role None None (Multi.init Tools.empty false) Hrole)
      as (b' & agent & Hadd & Hget & Htools & _).
    + intros n t Hget. discriminate Hget.
    + exists role, b', agent.
      split; [ reflexivity | ]. split; [ exact Hadd | ].
      split; [ exact Hget | exact Htools ].
  - vm_compute in Hrole. discriminate Hrole.
Defined.

End RolesFacts.
